(** * IronPulse workout tracker: session logging and analytics

    A shallow embedding of the session initializer
    ([findLastWeightForExercise] and the initialization effect of
    [ActiveWorkout]), the session mutators ([updateSet], [toggleComplete],
    [addSet], [removeSet]), the finalizer ([handleFinishWorkout]) and the
    statistics of [Stats] ([exerciseStats], [weeklyActivity]), followed by
    the state handlers of [App], the exercise names and the charts of
    [Stats], the custom plan editor of [PlanManager] and the mapping of a
    generated plan in [generateWorkoutPlan].

    Conventions of the embedding.
    - A JavaScript [number] holding a weight, a rep count or a volume is an
      exact rational ([Q]); rounding of IEEE doubles and [NaN] are not
      modelled.  Time stamps (milliseconds) are integers ([Z]); counts and
      array indices are natural numbers.
    - [crypto.randomUUID()] draws from an identifier supply [uuid : nat ->
      string] indexed by a counter that is threaded through the code.
    - [Date.now()] is an argument.
    - A plain object used as a dictionary is the list of its own
      properties in enumeration order (keys here are exercise identifiers:
      non-numeric strings, enumerated in insertion order; properties
      inherited from [Object.prototype] are not modelled). *)

From Stdlib Require Import ZArith QArith Qminmax Lqa String List Lia.
From Stdlib Require Import Sorting.Sorted Sorting.Permutation.
From stdpp Require Import base list pretty.

Open Scope Q_scope.
Open Scope string_scope.
Open Scope list_scope.

(** ** Data model ([types.ts]) *)

Record SetLog := {
  sl_id : string;
  sl_reps : Q;
  sl_weight : Q;
  sl_completed : bool
}.

Record Exercise := {
  ex_id : string;
  ex_name : string;
  ex_targetSets : nat;
  ex_targetReps : string;
  ex_notes : option string
}.

Record WorkoutDay := {
  wd_id : string;
  wd_name : string;
  wd_exercises : list Exercise
}.

Record TrainingPlan := {
  tp_id : string;
  tp_name : string;
  tp_description : string;
  tp_days : list WorkoutDay;
  tp_isAiGenerated : option bool;
  tp_createdAt : Z
}.

(** [{ [key: string]: A }]: own properties in enumeration order. *)
Definition JsObject (A : Type) : Type := list (string * A).

Record ActiveSession := {
  as_id : string;
  as_planId : string;
  as_dayId : string;
  as_startTime : Z;
  as_exercises : JsObject (list SetLog)
}.

(** The element type of [WorkoutLogDetail.sets]. *)
Record LoggedSet := {
  ls_weight : Q;
  ls_reps : Q;
  ls_completed : bool
}.

Record WorkoutLogDetail := {
  ld_name : string;
  ld_sets : list LoggedSet
}.

Record WorkoutHistory := {
  wh_id : string;
  wh_date : Z;
  wh_planName : string;
  wh_dayName : string;
  wh_durationSeconds : Z;
  wh_totalVolume : Q;
  wh_exercisesCompleted : nat;
  wh_exercises : option (list WorkoutLogDetail)
}.

(** ** Dictionary objects *)

(** [o[k]]; [None] is [undefined]. *)
Fixpoint obj_get {A : Type} (o : JsObject A) (k : string) : option A :=
  match o with
  | [] => None
  | (k', v) :: o' => if String.eqb k' k then Some v else obj_get o' k
  end.

(** [o[k] = v], and likewise [{ ...o, [k]: v }]: an existing key keeps its
    place, a new key goes last. *)
Fixpoint obj_set {A : Type} (o : JsObject A) (k : string) (v : A) : JsObject A :=
  match o with
  | [] => [(k, v)]
  | (k', v') :: o' =>
      if String.eqb k' k then (k, v) :: o' else (k', v') :: obj_set o' k v
  end.

(** [Object.keys(o)]. *)
Definition obj_keys {A : Type} (o : JsObject A) : list string := map fst o.

(** [x || []] for an array-valued lookup. *)
Definition or_empty {A : Type} (x : option (list A)) : list A :=
  match x with Some l => l | None => [] end.

(** [a < b] on numbers. *)
Definition Qltb (a b : Q) : bool := negb (Qle_bool b a).

(** ** Session initializer ([ActiveWorkout.tsx]) *)

(** [findLastWeightForExercise]: the [for ... of] loop over [history] is the
    recursion; [last sets] is [sets[sets.length - 1]], present exactly when
    [sets.length > 0]. *)
Fixpoint findLastWeightForExercise (exerciseName : string)
    (history : list WorkoutHistory) : Q :=
  match history with
  | [] => 0
  | record :: rest =>
      match wh_exercises record with
      | Some exercises =>
          match find (fun e => String.eqb (ld_name e) exerciseName) exercises with
          | Some exerciseLog =>
              match last (ld_sets exerciseLog) with
              | Some lastSet =>
                  match find ls_completed (rev (ld_sets exerciseLog)) with
                  | Some lastCompletedSet => ls_weight lastCompletedSet
                  | None => ls_weight lastSet
                  end
              | None => findLastWeightForExercise exerciseName rest
              end
          | None => findLastWeightForExercise exerciseName rest
          end
      | None => findLastWeightForExercise exerciseName rest
      end
  end.

(** The [return] statement through which [findLastWeightForExercise] leaves:
    the last completed set, the fallback to the last set, or the final
    [return 0]. *)
Inductive ReturnSite : Type :=
| LastCompletedSet
| LastSetFallback
| NeverPerformed.

(** [findLastWeightForExercise] with each returned weight replaced by the
    place of its [return]. *)
Fixpoint findLastWeightSite (exerciseName : string)
    (history : list WorkoutHistory) : ReturnSite :=
  match history with
  | [] => NeverPerformed
  | record :: rest =>
      match wh_exercises record with
      | Some exercises =>
          match find (fun e => String.eqb (ld_name e) exerciseName) exercises with
          | Some exerciseLog =>
              match last (ld_sets exerciseLog) with
              | Some lastSet =>
                  match find ls_completed (rev (ld_sets exerciseLog)) with
                  | Some lastCompletedSet => LastCompletedSet
                  | None => LastSetFallback
                  end
              | None => findLastWeightSite exerciseName rest
              end
          | None => findLastWeightSite exerciseName rest
          end
      | None => findLastWeightSite exerciseName rest
      end
  end.

(** The inner [for (let i = 0; i < ex.targetSets; i++) sets.push(...)],
    drawing identifiers [uuid k], [uuid (k+1)], ... *)
Fixpoint newSets (uuid : nat -> string) (k : nat) (targetSets : nat)
    (lastWeight : Q) : list SetLog :=
  match targetSets with
  | O => []
  | S n =>
      {| sl_id := uuid k; sl_reps := 0; sl_weight := lastWeight;
         sl_completed := false |} :: newSets uuid (S k) n lastWeight
  end.

(** State of the initialization effect: [initialExercises],
    [initialLastWeights] and the position in the identifier supply. *)
Record InitState := {
  initialExercises : JsObject (list SetLog);
  initialLastWeights : JsObject Q;
  nextId : nat
}.

(** Body of [day.exercises.forEach(ex => ...)]. *)
Definition initExercise (uuid : nat -> string) (history : list WorkoutHistory)
    (st : InitState) (ex : Exercise) : InitState :=
  let lastWeight := findLastWeightForExercise (ex_name ex) history in
  {| initialExercises :=
       obj_set (initialExercises st) (ex_id ex)
         (newSets uuid (nextId st) (ex_targetSets ex) lastWeight);
     initialLastWeights := obj_set (initialLastWeights st) (ex_id ex) lastWeight;
     nextId := (nextId st + ex_targetSets ex)%nat |}.

Definition initLoop (uuid : nat -> string) (history : list WorkoutHistory)
    (day : WorkoutDay) (k : nat) : InitState :=
  fold_left (initExercise uuid history) (wd_exercises day)
    {| initialExercises := []; initialLastWeights := []; nextId := k |}.

(** The [useState] initial value of [session]. *)
Definition emptySession (uuid : nat -> string) (plan : TrainingPlan)
    (day : WorkoutDay) (now : Z) : ActiveSession :=
  {| as_id := uuid O; as_planId := tp_id plan; as_dayId := wd_id day;
     as_startTime := now; as_exercises := [] |}.

(** The session after the initialization effect:
    [setSession(prev => ({ ...prev, exercises: initialExercises }))]. *)
Definition initialize (uuid : nat -> string) (plan : TrainingPlan)
    (day : WorkoutDay) (history : list WorkoutHistory) (now : Z) : ActiveSession :=
  let prev := emptySession uuid plan day now in
  {| as_id := as_id prev; as_planId := as_planId prev; as_dayId := as_dayId prev;
     as_startTime := as_startTime prev;
     as_exercises := initialExercises (initLoop uuid history day 1) |}.

(** [lastWeights] after the effect. *)
Definition initialLastWeightsOf (uuid : nat -> string) (day : WorkoutDay)
    (history : list WorkoutHistory) : JsObject Q :=
  initialLastWeights (initLoop uuid history day 1).

(** ** Session mutators ([ActiveWorkout.tsx])

    The mutators are untyped at run time: [updateSet] can leave a set object
    with some of its properties missing and an array with empty slots.  They
    are therefore modelled on the run-time value of the session; a well-typed
    [ActiveSession] is embedded by [sessionValue]. *)

(** A set object at run time; [None] is an absent (or [undefined])
    property. *)
Record SetObject := {
  so_id : option string;
  so_reps : option Q;
  so_weight : option Q;
  so_completed : option bool
}.

(** An array slot: an object, or nothing (a hole, or [undefined]). *)
Inductive Slot : Type :=
| Empty
| Elem (o : SetObject).

Record JsSession := {
  js_id : string;
  js_planId : string;
  js_dayId : string;
  js_startTime : Z;
  js_exercises : JsObject (list Slot)
}.

Definition objectOf (s : SetLog) : SetObject :=
  {| so_id := Some (sl_id s); so_reps := Some (sl_reps s);
     so_weight := Some (sl_weight s); so_completed := Some (sl_completed s) |}.

Definition slotsOf (sets : list SetLog) : list Slot :=
  map (fun s => Elem (objectOf s)) sets.

Definition sessionValue (s : ActiveSession) : JsSession :=
  {| js_id := as_id s; js_planId := as_planId s; js_dayId := as_dayId s;
     js_startTime := as_startTime s;
     js_exercises := map (fun kv => (fst kv, slotsOf (snd kv))) (as_exercises s) |}.

(** The pair [field], [value] of [updateSet]; [field] ranges over
    [keyof SetLog] and the value has the type of that field. *)
Inductive FieldValue : Type :=
| IdValue (v : string)
| RepsValue (v : Q)
| WeightValue (v : Q)
| CompletedValue (v : bool).

(** [{}] *)
Definition emptyObject : SetObject :=
  {| so_id := None; so_reps := None; so_weight := None; so_completed := None |}.

(** [{ ...o, [field]: value }] *)
Definition assignField (o : SetObject) (fv : FieldValue) : SetObject :=
  match fv with
  | IdValue v =>
      {| so_id := Some v; so_reps := so_reps o; so_weight := so_weight o;
         so_completed := so_completed o |}
  | RepsValue v =>
      {| so_id := so_id o; so_reps := Some v; so_weight := so_weight o;
         so_completed := so_completed o |}
  | WeightValue v =>
      {| so_id := so_id o; so_reps := so_reps o; so_weight := Some v;
         so_completed := so_completed o |}
  | CompletedValue v =>
      {| so_id := so_id o; so_reps := so_reps o; so_weight := so_weight o;
         so_completed := Some v |}
  end.

(** [{ ...x }] for [x = sets[i]]: spreading [undefined] gives [{}]. *)
Definition spread (x : option Slot) : SetObject :=
  match x with
  | Some (Elem o) => o
  | _ => emptyObject
  end.

(** [sets[i] = v] on an array: in range the slot is overwritten; out of
    range the array grows to length [i + 1], the gap staying empty. *)
Definition array_assign (sets : list Slot) (i : nat) (v : Slot) : list Slot :=
  if (i <? length sets)%nat then <[i := v]> sets
  else sets ++ replicate (i - length sets) Empty ++ [v].

(** [{ ...prev, exercises: exercises }] *)
Definition withExercises (prev : JsSession) (exercises : JsObject (list Slot))
    : JsSession :=
  {| js_id := js_id prev; js_planId := js_planId prev; js_dayId := js_dayId prev;
     js_startTime := js_startTime prev; js_exercises := exercises |}.

(** The state updater of [updateSet]. *)
Definition updateSet (exerciseId : string) (setIndex : nat) (fv : FieldValue)
    (prev : JsSession) : JsSession :=
  let sets := or_empty (obj_get (js_exercises prev) exerciseId) in
  let sets := array_assign sets setIndex
                (Elem (assignField (spread (sets !! setIndex)) fv)) in
  withExercises prev (obj_set (js_exercises prev) exerciseId sets).

(** Truthiness of a possibly absent boolean property. *)
Definition truthy (b : option bool) : bool :=
  match b with Some true => true | _ => false end.

(** The state updater of [toggleComplete].  Reading [.completed] of
    [sets[setIndex]] when that is [undefined] raises a [TypeError]: [None]. *)
Definition toggleComplete (exerciseId : string) (setIndex : nat)
    (prev : JsSession) : option JsSession :=
  let sets := or_empty (obj_get (js_exercises prev) exerciseId) in
  match sets !! setIndex with
  | Some (Elem o) =>
      let sets := array_assign sets setIndex
                    (Elem (assignField (spread (sets !! setIndex))
                             (CompletedValue (negb (truthy (so_completed o)))))) in
      Some (withExercises prev (obj_set (js_exercises prev) exerciseId sets))
  | _ => None
  end.

(** The state updater of [addSet]; [newId] is the [crypto.randomUUID()] of
    the new set.  [currentSets[currentSets.length - 1] || { weight: 0, reps: 0 }]. *)
Definition addSet (newId : string) (exerciseId : string) (prev : JsSession)
    : JsSession :=
  let currentSets := or_empty (obj_get (js_exercises prev) exerciseId) in
  let lastSet :=
    match last currentSets with
    | Some (Elem o) => o
    | _ => {| so_id := None; so_reps := Some 0; so_weight := Some 0;
              so_completed := None |}
    end in
  withExercises prev
    (obj_set (js_exercises prev) exerciseId
       (currentSets ++
        [Elem {| so_id := Some newId; so_reps := so_reps lastSet;
                 so_weight := so_weight lastSet; so_completed := Some false |}])).

(** The state updater of [removeSet]; [removelast] is [slice(0, -1)]. *)
Definition removeSet (exerciseId : string) (prev : JsSession) : JsSession :=
  let currentSets := or_empty (obj_get (js_exercises prev) exerciseId) in
  if (length currentSets <=? 1)%nat then prev
  else withExercises prev
         (obj_set (js_exercises prev) exerciseId (removelast currentSets)).

(** ** Session finalizer ([App.tsx]) *)

(** The accumulators [volume], [exercisesDone] and [detailedExercises] of
    [handleFinishWorkout]. *)
Record FinishState := {
  volume : Q;
  exercisesDone : nat;
  detailedExercises : list WorkoutLogDetail
}.

(** [s => ({ weight: s.weight, reps: s.reps, completed: s.completed })] *)
Definition loggedSet (s : SetLog) : LoggedSet :=
  {| ls_weight := sl_weight s; ls_reps := sl_reps s;
     ls_completed := sl_completed s |}.

(** [exerciseDef ? exerciseDef.name : "Unknown Exercise"] *)
Definition exerciseNameOf (day : WorkoutDay) (exId : string) : string :=
  match find (fun e => String.eqb (ex_id e) exId) (wd_exercises day) with
  | Some exerciseDef => ex_name exerciseDef
  | None => "Unknown Exercise"
  end.

(** Body of [Object.entries(session.exercises).forEach(([exId, sets]) => ...)]. *)
Definition finishExercise (day : WorkoutDay) (st : FinishState)
    (entry : string * list SetLog) : FinishState :=
  let exerciseName := exerciseNameOf day (fst entry) in
  let completedSets := List.filter sl_completed (snd entry) in
  if (0 <? length completedSets)%nat then
    {| volume :=
         fold_left (fun v s => v + sl_weight s * sl_reps s) completedSets (volume st);
       exercisesDone := S (exercisesDone st);
       detailedExercises :=
         detailedExercises st ++
         [{| ld_name := exerciseName; ld_sets := map loggedSet completedSets |}] |}
  else st.

Definition finishLoop (day : WorkoutDay) (session : ActiveSession) : FinishState :=
  fold_left (finishExercise day) (as_exercises session)
    {| volume := 0; exercisesDone := O; detailedExercises := [] |}.

(** [handleFinishWorkout], up to the construction of [record]; [None] is
    one of the early [return]s ([!activeDayId] holds of [null] and of the
    empty string).  [newId] is [crypto.randomUUID()], [nowDate] and [nowEnd]
    are the two readings of [Date.now()]. *)
Definition handleFinishWorkout (activePlan : option TrainingPlan)
    (activeDayId : option string) (newId : string) (nowDate nowEnd : Z)
    (session : ActiveSession) : option WorkoutHistory :=
  match activePlan, activeDayId with
  | Some plan, Some dayId =>
      if String.eqb dayId EmptyString then None
      else
        match find (fun d => String.eqb (wd_id d) dayId) (tp_days plan) with
        | None => None
        | Some day =>
            let st := finishLoop day session in
            Some {| wh_id := newId;
                    wh_date := nowDate;
                    wh_planName := tp_name plan;
                    wh_dayName := wd_name day;
                    wh_durationSeconds := (nowEnd - as_startTime session) / 1000;
                    wh_totalVolume := volume st;
                    wh_exercisesCompleted := exercisesDone st;
                    wh_exercises := Some (detailedExercises st) |}
        end
  | _, _ => None
  end.

(** [setHistory(prev => [record, ...prev])] *)
Definition appendRecord (record : WorkoutHistory) (prev : list WorkoutHistory)
    : list WorkoutHistory :=
  record :: prev.

(** ** Statistics ([Stats.tsx]) *)

Record StatPoint := {
  sp_date : Z;
  sp_maxWeight : Q;
  sp_volume : Q;
  sp_estOneRepMax : Q
}.

(** Epley formula: [s.weight * (1 + s.reps / 30)]. *)
Definition oneRepMax (weight reps : Q) : Q := weight * (1 + reps / 30).

(** The accumulators [maxWeight], [volume], [max1RM] of one record. *)
Record SetAcc := {
  acc_maxWeight : Q;
  acc_volume : Q;
  acc_max1RM : Q
}.

(** Body of [exData.sets.forEach(s => ...)]. *)
Definition statSet (acc : SetAcc) (s : LoggedSet) : SetAcc :=
  if ls_completed s then
    {| acc_maxWeight :=
         if Qltb (acc_maxWeight acc) (ls_weight s) then ls_weight s
         else acc_maxWeight acc;
       acc_volume := acc_volume acc + ls_weight s * ls_reps s;
       acc_max1RM :=
         if Qltb (acc_max1RM acc) (oneRepMax (ls_weight s) (ls_reps s))
         then oneRepMax (ls_weight s) (ls_reps s)
         else acc_max1RM acc |}
  else acc.

Definition statSets (sets : list LoggedSet) : SetAcc :=
  fold_left statSet sets {| acc_maxWeight := 0; acc_volume := 0; acc_max1RM := 0 |}.

(** Body of [history.forEach(h => ...)] in [exerciseStats]. *)
Definition statRecord (selectedExercise : string) (stats : list StatPoint)
    (h : WorkoutHistory) : list StatPoint :=
  match wh_exercises h with
  | None => stats
  | Some exercises =>
      match find (fun e => String.eqb (ld_name e) selectedExercise) exercises with
      | None => stats
      | Some exData =>
          let acc := statSets (ld_sets exData) in
          if Qltb 0 (acc_volume acc) then
            stats ++ [{| sp_date := wh_date h; sp_maxWeight := acc_maxWeight acc;
                         sp_volume := acc_volume acc;
                         sp_estOneRepMax := acc_max1RM acc |}]
          else stats
      end
  end.

(** [stats.sort((a, b) => a.date - b.date)]: [Array.prototype.sort] is a
    stable sort, here by ascending date; the result of a stable sort does not
    depend on the algorithm, and is computed by insertion, an element going
    before the first one that is not older. *)
Fixpoint insertByDate (p : StatPoint) (l : list StatPoint) : list StatPoint :=
  match l with
  | [] => [p]
  | q :: l' =>
      if (sp_date p <=? sp_date q)%Z then p :: q :: l'
      else q :: insertByDate p l'
  end.

Definition sortByDate (l : list StatPoint) : list StatPoint :=
  fold_right insertByDate [] l.

(** [exerciseStats]; an empty [selectedExercise] is falsy. *)
Definition exerciseStats (history : list WorkoutHistory)
    (selectedExercise : string) : list StatPoint :=
  if String.eqb selectedExercise EmptyString then []
  else sortByDate (fold_left (statRecord selectedExercise) history []).

Record Bucket := {
  b_label : string;
  b_workouts : nat;
  b_volume : Q
}.

Definition weeks : nat := 4.

(** [i === 0 ? 'This Week' : `${i}w ago`] *)
Definition bucketLabel (i : nat) : string :=
  if (i =? 0)%nat then "This Week" else (pretty i ++ "w ago")%string.

(** [new Array(weeks).fill(0).map((_, i) => ({ label, workouts: 0, volume: 0 }))] *)
Definition initialData : list Bucket :=
  map (fun i => {| b_label := bucketLabel i; b_workouts := O; b_volume := 0 |})
      (seq 0 weeks).

(** [1000 * 60 * 60 * 24] *)
Definition msPerDay : Z := 1000 * 60 * 60 * 24.

(** [Math.floor((now.getTime() - h.date) / (1000 * 60 * 60 * 24))] *)
Definition daysAgo (now date : Z) : Z := ((now - date) / msPerDay)%Z.

(** [Math.floor(daysAgo / 7)] *)
Definition weekIndex (now date : Z) : Z := (daysAgo now date / 7)%Z.

(** [data[i]] for an integer [i]; [None] is [undefined]. *)
Definition bucketAt (data : list Bucket) (i : Z) : option Bucket :=
  if (i <? 0)%Z then None else data !! Z.to_nat i.

(** Body of [history.forEach(h => ...)] in [weeklyActivity]; [None] is the
    [TypeError] of updating a property of [undefined]. *)
Definition weekRecord (now : Z) (data : list Bucket) (h : WorkoutHistory)
    : option (list Bucket) :=
  let i := weekIndex now (wh_date h) in
  if (i <? Z.of_nat weeks)%Z then
    match bucketAt data i with
    | Some b =>
        Some (<[Z.to_nat i :=
                 {| b_label := b_label b; b_workouts := S (b_workouts b);
                    b_volume := b_volume b + wh_totalVolume h |}]> data)
    | None => None
    end
  else Some data.

Fixpoint weekLoop (now : Z) (history : list WorkoutHistory) (data : list Bucket)
    : option (list Bucket) :=
  match history with
  | [] => Some data
  | h :: rest =>
      match weekRecord now data h with
      | Some data' => weekLoop now rest data'
      | None => None
      end
  end.

(** [weeklyActivity]: [data.reverse()] after the loop. *)
Definition weeklyActivity (history : list WorkoutHistory) (now : Z)
    : option (list Bucket) :=
  match weekLoop now history initialData with
  | Some data => Some (rev data)
  | None => None
  end.

(** ** Elapsed time ([ActiveWorkout.tsx]) *)

(** [s.padStart(2, '0')] *)
Definition padStart2 (s : string) : string :=
  match String.length s with
  | O => "00"
  | S O => ("0" ++ s)%string
  | _ => s
  end.

(** [formatTime]; [elapsed] counts the ticks of the timer from 0. *)
Definition formatTime (seconds : nat) : string :=
  let mins := (seconds / 60)%nat in
  let secs := (seconds mod 60)%nat in
  (pretty mins ++ ":" ++ padStart2 (pretty secs))%string.

(** ** Application state ([App.tsx]) *)

Inductive AppView : Type :=
| DASHBOARD
| PLANS
| ACTIVE_WORKOUT
| STATS.

(** The [useState] cells of [App]. *)
Record AppState := {
  st_view : AppView;
  st_plans : list TrainingPlan;
  st_history : list WorkoutHistory;
  st_activePlan : option TrainingPlan;
  st_activeDayId : option string
}.

(** [handleStartWorkout] *)
Definition handleStartWorkout (plan : TrainingPlan) (dayId : string)
    (st : AppState) : AppState :=
  {| st_view := ACTIVE_WORKOUT; st_plans := st_plans st;
     st_history := st_history st; st_activePlan := Some plan;
     st_activeDayId := Some dayId |}.

(** [handleFinishWorkout] with its state updates: after an early [return]
    the state is as before; otherwise the record goes to the front of the
    history, the active plan and day are cleared and the view is [STATS]. *)
Definition finishWorkout (newId : string) (nowDate nowEnd : Z)
    (session : ActiveSession) (st : AppState) : AppState :=
  match handleFinishWorkout (st_activePlan st) (st_activeDayId st)
          newId nowDate nowEnd session with
  | None => st
  | Some record =>
      {| st_view := STATS; st_plans := st_plans st;
         st_history := appendRecord record (st_history st);
         st_activePlan := None; st_activeDayId := None |}
  end.

(** [handleCancelWorkout]; [confirmed] is the answer to [window.confirm]. *)
Definition handleCancelWorkout (confirmed : bool) (st : AppState) : AppState :=
  if confirmed then
    {| st_view := DASHBOARD; st_plans := st_plans st;
       st_history := st_history st; st_activePlan := None;
       st_activeDayId := None |}
  else st.

(** [deletePlan]: [prev.filter(p => p.id !== id)] when confirmed. *)
Definition deletePlan (confirmed : bool) (id : string) (st : AppState) : AppState :=
  if confirmed then
    {| st_view := st_view st;
       st_plans := List.filter (fun p => negb (String.eqb (tp_id p) id)) (st_plans st);
       st_history := st_history st; st_activePlan := st_activePlan st;
       st_activeDayId := st_activeDayId st |}
  else st.

(** [onAddPlan]: [setPlans([p, ...plans])] *)
Definition onAddPlan (p : TrainingPlan) (st : AppState) : AppState :=
  {| st_view := st_view st; st_plans := p :: st_plans st;
     st_history := st_history st; st_activePlan := st_activePlan st;
     st_activeDayId := st_activeDayId st |}.

(** The "This Week" figure of the dashboard:
    [history.filter(h => Date.now() - h.date < 7 * 24 * 60 * 60 * 1000).length],
    the readings of [Date.now()] of one rendering taken to be one [now]. *)
Definition thisWeekCount (now : Z) (history : list WorkoutHistory) : nat :=
  length (List.filter (fun h => (now - wh_date h <? 7 * 24 * 60 * 60 * 1000)%Z)
            history).

(** ** Exercise names and charts ([Stats.tsx]) *)

(** [exercises.add(name)] on a [Set], kept in insertion order. *)
Definition set_add (name : string) (exercises : list string) : list string :=
  if existsb (String.eqb name) exercises then exercises else exercises ++ [name].

(** The [Set] filled by the two nested [forEach] of [uniqueExercises]. *)
Definition collectNames (history : list WorkoutHistory) : list string :=
  fold_left
    (fun exercises h =>
       match wh_exercises h with
       | Some logged =>
           fold_left (fun exercises e => set_add (ld_name e) exercises) logged exercises
       | None => exercises
       end)
    history [].

(** [Array.prototype.sort()] without comparator orders strings by their
    UTF-16 code units: the order is the parameter [le].  The elements
    being distinct, the result is computed by insertion. *)
Fixpoint insertName (le : string -> string -> bool) (x : string)
    (l : list string) : list string :=
  match l with
  | [] => [x]
  | y :: l' => if le x y then x :: y :: l' else y :: insertName le x l'
  end.

Definition sortNames (le : string -> string -> bool) (l : list string)
    : list string :=
  fold_right (insertName le) [] l.

(** [uniqueExercises] *)
Definition uniqueExercises (le : string -> string -> bool)
    (history : list WorkoutHistory) : list string :=
  sortNames le (collectNames history).

(** [history.reduce((acc, h) => acc + h.totalVolume, 0)] *)
Definition totalVolumeOf (history : list WorkoutHistory) : Q :=
  fold_left (fun acc h => acc + wh_totalVolume h) history 0.

(** [x || d] on numbers: 0 is falsy. *)
Definition orNumber (x d : Q) : Q := if Qeq_bool x 0 then d else x.

(** [renderBarChart]: the heights, in percent, of the bars.
    [Math.max(...volumes) || 1] is not evaluated into a height when there is
    no bar. *)
Definition barHeights (weekly : list Bucket) : list Q :=
  match weekly with
  | [] => []
  | w :: rest =>
      let maxVol := orNumber (fold_left Qmax (map b_volume rest) (b_volume w)) 1 in
      map (fun week => b_volume week / maxVol * 100) weekly
  end.

(** [renderLineChart]: the points of the polyline in a 100 x 50 box; [None]
    is the "Not enough data" branch. *)
Definition lineChartPoints (points : list StatPoint) : option (list (Q * Q)) :=
  match points with
  | [] | [_] => None
  | p :: rest =>
      let minVal := fold_left Qmin (map sp_maxWeight rest) (sp_maxWeight p) * (9 # 10) in
      let maxVal := fold_left Qmax (map sp_maxWeight rest) (sp_maxWeight p) * (11 # 10) in
      let range := orNumber (maxVal - minVal) 10 in
      let width := 100 in
      let height := 50 in
      Some (imap (fun i q =>
                    (inject_Z (Z.of_nat i) / inject_Z (Z.of_nat (length points - 1))
                       * width,
                     height - (sp_maxWeight q - minVal) / range * height))
                 points)
  end.

(** ** Custom plan editor ([PlanManager]) *)

(** [Omit<TrainingPlan, 'id' | 'createdAt' | 'isAiGenerated'>] *)
Record CustomPlan := {
  cp_name : string;
  cp_description : string;
  cp_days : list WorkoutDay
}.

(** [{ name: '', description: '', days: [] }], also [resetCustomPlan]. *)
Definition emptyCustomPlan : CustomPlan :=
  {| cp_name := EmptyString; cp_description := EmptyString; cp_days := [] |}.

Inductive EditorView : Type :=
| ListView
| AiView
| CustomView.

(** What [handleSaveCustomPlan] leaves behind: the plan handed to
    [onAddPlan] ([None] after the alert), the form and the view. *)
Record SaveResult := {
  saved : option TrainingPlan;
  formAfter : CustomPlan;
  viewAfter : EditorView
}.

(** [handleSaveCustomPlan], called in the custom view. *)
Definition handleSaveCustomPlan (newId : string) (now : Z)
    (customPlan : CustomPlan) : SaveResult :=
  if String.eqb (cp_name customPlan) EmptyString
     || (length (cp_days customPlan) =? 0)%nat
  then {| saved := None; formAfter := customPlan; viewAfter := CustomView |}
  else
    {| saved := Some {| tp_id := newId; tp_name := cp_name customPlan;
                        tp_description := cp_description customPlan;
                        tp_days := cp_days customPlan;
                        tp_isAiGenerated := Some false;
                        tp_createdAt := now |};
       formAfter := emptyCustomPlan; viewAfter := ListView |}.

Inductive PlanField : Type :=
| PlanName
| PlanDescription.

(** [handleCustomPlanChange] *)
Definition handleCustomPlanChange (field : PlanField) (value : string)
    (prev : CustomPlan) : CustomPlan :=
  match field with
  | PlanName =>
      {| cp_name := value; cp_description := cp_description prev;
         cp_days := cp_days prev |}
  | PlanDescription =>
      {| cp_name := cp_name prev; cp_description := value;
         cp_days := cp_days prev |}
  end.

(** [{ ...prev, days: days }] *)
Definition withDays (prev : CustomPlan) (days : list WorkoutDay) : CustomPlan :=
  {| cp_name := cp_name prev; cp_description := cp_description prev;
     cp_days := days |}.

(** [addDayToCustomPlan]; [newId] is [crypto.randomUUID()]. *)
Definition addDayToCustomPlan (newId : string) (prev : CustomPlan) : CustomPlan :=
  withDays prev
    (cp_days prev ++
     [{| wd_id := newId;
         wd_name := ("Day " ++ pretty (length (cp_days prev) + 1)%nat)%string;
         wd_exercises := [] |}]).

(** [removeDayFromCustomPlan] *)
Definition removeDayFromCustomPlan (dayId : string) (prev : CustomPlan)
    : CustomPlan :=
  withDays prev
    (List.filter (fun d => negb (String.eqb (wd_id d) dayId)) (cp_days prev)).

(** [handleDayNameChange] *)
Definition handleDayNameChange (dayId : string) (name : string)
    (prev : CustomPlan) : CustomPlan :=
  withDays prev
    (map (fun d =>
            if String.eqb (wd_id d) dayId then
              {| wd_id := wd_id d; wd_name := name; wd_exercises := wd_exercises d |}
            else d)
         (cp_days prev)).

(** [{ ...d, exercises: exercises }] *)
Definition withDayExercises (d : WorkoutDay) (exercises : list Exercise)
    : WorkoutDay :=
  {| wd_id := wd_id d; wd_name := wd_name d; wd_exercises := exercises |}.

(** The [map] of [addExerciseToDay]: each day with the id gets an exercise
    whose id is drawn from the supply when its callback runs. *)
Fixpoint addExerciseDays (uuid : nat -> string) (k : nat) (dayId : string)
    (days : list WorkoutDay) : list WorkoutDay * nat :=
  match days with
  | [] => ([], k)
  | d :: rest =>
      if String.eqb (wd_id d) dayId then
        let d' := withDayExercises d
                    (wd_exercises d ++
                     [{| ex_id := uuid k; ex_name := EmptyString;
                         ex_targetSets := 3; ex_targetReps := "8-12";
                         ex_notes := None |}]) in
        let '(rest', k') := addExerciseDays uuid (S k) dayId rest in
        (d' :: rest', k')
      else
        let '(rest', k') := addExerciseDays uuid k dayId rest in
        (d :: rest', k')
  end.

(** [addExerciseToDay] *)
Definition addExerciseToDay (uuid : nat -> string) (k : nat) (dayId : string)
    (prev : CustomPlan) : CustomPlan * nat :=
  let '(days, k') := addExerciseDays uuid k dayId (cp_days prev) in
  (withDays prev days, k').

(** [removeExerciseFromDay] *)
Definition removeExerciseFromDay (dayId exId : string) (prev : CustomPlan)
    : CustomPlan :=
  withDays prev
    (map (fun d =>
            if String.eqb (wd_id d) dayId then
              withDayExercises d
                (List.filter (fun ex => negb (String.eqb (ex_id ex) exId))
                   (wd_exercises d))
            else d)
         (cp_days prev)).

(** The pair [field], [value] of [handleExerciseChange]; [field] ranges over
    [keyof Omit<Exercise, 'id'>]. *)
Inductive ExerciseFieldValue : Type :=
| NameValue (v : string)
| TargetSetsValue (v : nat)
| TargetRepsValue (v : string)
| NotesValue (v : string).

(** [{ ...ex, [field]: value }] *)
Definition assignExerciseField (ex : Exercise) (fv : ExerciseFieldValue)
    : Exercise :=
  match fv with
  | NameValue v =>
      {| ex_id := ex_id ex; ex_name := v; ex_targetSets := ex_targetSets ex;
         ex_targetReps := ex_targetReps ex; ex_notes := ex_notes ex |}
  | TargetSetsValue v =>
      {| ex_id := ex_id ex; ex_name := ex_name ex; ex_targetSets := v;
         ex_targetReps := ex_targetReps ex; ex_notes := ex_notes ex |}
  | TargetRepsValue v =>
      {| ex_id := ex_id ex; ex_name := ex_name ex;
         ex_targetSets := ex_targetSets ex; ex_targetReps := v;
         ex_notes := ex_notes ex |}
  | NotesValue v =>
      {| ex_id := ex_id ex; ex_name := ex_name ex;
         ex_targetSets := ex_targetSets ex; ex_targetReps := ex_targetReps ex;
         ex_notes := Some v |}
  end.

(** [handleExerciseChange] *)
Definition handleExerciseChange (dayId exId : string) (fv : ExerciseFieldValue)
    (prev : CustomPlan) : CustomPlan :=
  withDays prev
    (map (fun d =>
            if String.eqb (wd_id d) dayId then
              withDayExercises d
                (map (fun ex =>
                        if String.eqb (ex_id ex) exId then assignExerciseField ex fv
                        else ex)
                     (wd_exercises d))
            else d)
         (cp_days prev)).

(** ** Plans from the generation service ([geminiService.ts]) *)

(** The parsed response, as far as it is read. *)
Record ExerciseData := {
  ed_name : string;
  ed_targetSets : nat;
  ed_targetReps : string;
  ed_notes : option string
}.

Record DayData := {
  dd_name : string;
  dd_exercises : list ExerciseData
}.

Record PlanData := {
  pd_planName : string;
  pd_description : string;
  pd_days : list DayData
}.

(** [e.notes] or, when it is falsy, the empty string. *)
Definition notesOrEmpty (notes : option string) : string :=
  match notes with
  | Some s => s
  | None => EmptyString
  end.

(** [d.exercises.map((e: any) => ({ id: crypto.randomUUID(), ... }))] *)
Fixpoint mapExercises (uuid : nat -> string) (k : nat)
    (exercises : list ExerciseData) : list Exercise * nat :=
  match exercises with
  | [] => ([], k)
  | e :: rest =>
      let ex := {| ex_id := uuid k; ex_name := ed_name e;
                   ex_targetSets := ed_targetSets e;
                   ex_targetReps := ed_targetReps e;
                   ex_notes := Some (notesOrEmpty (ed_notes e)) |} in
      let '(rest', k') := mapExercises uuid (S k) rest in
      (ex :: rest', k')
  end.

(** [data.days.map((d: any) => ({ id: crypto.randomUUID(), ... }))]: the
    id of a day is drawn before those of its exercises. *)
Fixpoint mapDays (uuid : nat -> string) (k : nat) (days : list DayData)
    : list WorkoutDay * nat :=
  match days with
  | [] => ([], k)
  | d :: rest =>
      let '(exercises, k1) := mapExercises uuid (S k) (dd_exercises d) in
      let day := {| wd_id := uuid k; wd_name := dd_name d;
                    wd_exercises := exercises |} in
      let '(rest', k2) := mapDays uuid k1 rest in
      (day :: rest', k2)
  end.

(** "Map to internal types" of [generateWorkoutPlan]: the plan id is drawn
    first, then the time is read, then the days are mapped. *)
Definition planOfData (uuid : nat -> string) (k : nat) (now : Z)
    (data : PlanData) : TrainingPlan :=
  {| tp_id := uuid k; tp_name := pd_planName data;
     tp_description := pd_description data;
     tp_days := fst (mapDays uuid (S k) (pd_days data));
     tp_isAiGenerated := Some true; tp_createdAt := now |}.

(** * Specification-side definitions *)

(** ** Sessions used as concrete inputs *)

Definition demoSet (i : string) (w r : Q) (c : bool) : SetLog :=
  {| sl_id := i; sl_reps := r; sl_weight := w; sl_completed := c |}.

(** One exercise ["ex-1"] holding a single set. *)
Definition oneSetSession : ActiveSession :=
  {| as_id := "s"; as_planId := "p"; as_dayId := "d"; as_startTime := 0;
     as_exercises := [("ex-1", [demoSet "a" 60 10 false])] |}.

(** ** Mutators *)

(** Every exercise slot of the session holds at least one set. *)
Definition everyExerciseHasSet (s : JsSession) : Prop :=
  Forall (fun kv => (1 <= length (snd kv))%nat) (js_exercises s).

(** A sequence of [removeSet] clicks. *)
Definition removeSets (ids : list string) (s : JsSession) : JsSession :=
  fold_left (fun s exerciseId => removeSet exerciseId s) ids s.

(** ** Finalizer *)

(** The sets of the session marked completed, in enumeration order. *)
Definition completedSetsOf (session : ActiveSession) : list SetLog :=
  List.filter sl_completed (concat (map snd (as_exercises session))).

(** Sum of [weight * reps] over a list of sets. *)
Definition volumeOf (sets : list SetLog) : Q :=
  fold_right (fun s v => sl_weight s * sl_reps s + v) 0 sets.

(** All sets of the detailed log of a record. *)
Definition loggedSetsOf (record : WorkoutHistory) : list LoggedSet :=
  match wh_exercises record with
  | Some exercises => concat (map ld_sets exercises)
  | None => []
  end.

(** The exercise slot has at least one completed set. *)
Definition hasCompletedSet (entry : string * list SetLog) : bool :=
  existsb sl_completed (snd entry).

(** The detail entry of an exercise slot: its name and its completed sets. *)
Definition detailOf (day : WorkoutDay) (entry : string * list SetLog)
    : WorkoutLogDetail :=
  {| ld_name := exerciseNameOf day (fst entry);
     ld_sets := map loggedSet (List.filter sl_completed (snd entry)) |}.

(** The record is one that [handleFinishWorkout] builds. *)
Definition finalizerOutput (record : WorkoutHistory) : Prop :=
  exists activePlan activeDayId newId nowDate nowEnd session,
    handleFinishWorkout activePlan activeDayId newId nowDate nowEnd session
      = Some record.

(** Every entry of the detailed log has a set, and all its sets are
    completed. *)
Definition cleanRecord (record : WorkoutHistory) : Prop :=
  exists exercises,
    wh_exercises record = Some exercises /\
    Forall (fun e => ld_sets e <> [] /\
                     Forall (fun s => ls_completed s = true) (ld_sets e))
           exercises.

(** A plan, a day and a finished session used as concrete inputs. *)
Definition benchDay : WorkoutDay :=
  {| wd_id := "d"; wd_name := "Push";
     wd_exercises :=
       [{| ex_id := "ex-1"; ex_name := "Bench Press"; ex_targetSets := 3;
           ex_targetReps := "8-12"; ex_notes := None |}] |}.

Definition benchPlan : TrainingPlan :=
  {| tp_id := "p"; tp_name := "Push Pull Legs"; tp_description := EmptyString;
     tp_days := [benchDay]; tp_isAiGenerated := None; tp_createdAt := 0 |}.

(** Set 1 logged as 60 x 10 and completed, sets 2 and 3 untouched. *)
Definition finishedSession : ActiveSession :=
  {| as_id := "s"; as_planId := "p"; as_dayId := "d"; as_startTime := 1000;
     as_exercises :=
       [("ex-1", [demoSet "a" 60 10 true; demoSet "b" 0 0 false;
                  demoSet "c" 0 0 false])] |}.

Definition finishedRecord : WorkoutHistory :=
  {| wh_id := "r"; wh_date := 126000; wh_planName := "Push Pull Legs";
     wh_dayName := "Push"; wh_durationSeconds := 125; wh_totalVolume := 0 + 60 * 10;
     wh_exercisesCompleted := 1;
     wh_exercises :=
       Some [{| ld_name := "Bench Press";
                ld_sets := [{| ls_weight := 60; ls_reps := 10;
                               ls_completed := true |}] |}] |}.

(** ** Initializer *)

(** The first detail entry of the record carrying the exercise's name. *)
Definition matchingEntry (exerciseName : string) (record : WorkoutHistory)
    : option WorkoutLogDetail :=
  match wh_exercises record with
  | Some exercises => find (fun e => String.eqb (ld_name e) exerciseName) exercises
  | None => None
  end.

(** The sets of that entry; none when the record has no such entry. *)
Definition entrySets (exerciseName : string) (record : WorkoutHistory)
    : list LoggedSet :=
  match matchingEntry exerciseName record with
  | Some e => ld_sets e
  | None => []
  end.

(** The carry-forward weight.  The record that counts is the newest one
    whose entry for the exercise holds a set; the weight is that of the last
    completed set of the entry, else of its last set; it is 0 when no record
    has such an entry. *)
Inductive CarryForward (exerciseName : string)
    : list WorkoutHistory -> Q -> Prop :=
| carry_last_completed newer record older before s after :
    Forall (fun r => entrySets exerciseName r = []) newer ->
    entrySets exerciseName record = before ++ s :: after ->
    ls_completed s = true ->
    Forall (fun s' => ls_completed s' = false) after ->
    CarryForward exerciseName (newer ++ record :: older) (ls_weight s)
| carry_last_set newer record older before s :
    Forall (fun r => entrySets exerciseName r = []) newer ->
    entrySets exerciseName record = before ++ [s] ->
    Forall (fun s' => ls_completed s' = false) (before ++ [s]) ->
    CarryForward exerciseName (newer ++ record :: older) (ls_weight s)
| carry_never history :
    Forall (fun r => entrySets exerciseName r = []) history ->
    CarryForward exerciseName history 0.

(** The entry of the newest record containing a detail entry with the
    exercise's name, whether or not it holds a set. *)
Definition newestMatchingEntry (exerciseName : string)
    (history : list WorkoutHistory) : option WorkoutLogDetail :=
  match find (fun r => bool_decide (is_Some (matchingEntry exerciseName r))) history with
  | Some r => matchingEntry exerciseName r
  | None => None
  end.

Definition benchRecord (date : Z) (sets : list LoggedSet) : WorkoutHistory :=
  {| wh_id := "h"; wh_date := date; wh_planName := "Push Pull Legs";
     wh_dayName := "Push"; wh_durationSeconds := 0; wh_totalVolume := 0;
     wh_exercisesCompleted := 1;
     wh_exercises := Some [{| ld_name := "Bench Press"; ld_sets := sets |}] |}.

Definition lset (w r : Q) (c : bool) : LoggedSet :=
  {| ls_weight := w; ls_reps := r; ls_completed := c |}.

(** A day whose two exercises share one identifier. *)
Definition twinDay : WorkoutDay :=
  {| wd_id := "d"; wd_name := "Push";
     wd_exercises :=
       [{| ex_id := "x"; ex_name := "Bench Press"; ex_targetSets := 1;
           ex_targetReps := "8-12"; ex_notes := None |};
        {| ex_id := "x"; ex_name := "Dips"; ex_targetSets := 2;
           ex_targetReps := "8-12"; ex_notes := None |}] |}.

(** An identifier supply. *)
Definition demoUuid (n : nat) : string := pretty n.

(** ** Statistics *)

(** Ascending dates. *)
Definition dateLe (a b : StatPoint) : Prop := (sp_date a <= sp_date b)%Z.

(** Sum of [weight * reps] over the completed sets of the record's entry for
    the exercise. *)
Definition entryVolume (exerciseName : string) (record : WorkoutHistory) : Q :=
  fold_right (fun s v => ls_weight s * ls_reps s + v) 0
    (List.filter ls_completed (entrySets exerciseName record)).

(** The record falls in the bucket of index [i]. *)
Definition inWeek (now : Z) (i : nat) (h : WorkoutHistory) : bool :=
  (weekIndex now (wh_date h) =? Z.of_nat i)%Z.

(** The rollup of the records of bucket [i]. *)
Definition bucketOf (now : Z) (history : list WorkoutHistory) (i : nat) : Bucket :=
  {| b_label := bucketLabel i;
     b_workouts := length (List.filter (inWeek now i) history);
     b_volume := fold_left (fun v h => v + wh_totalVolume h)
                   (List.filter (inWeek now i) history) 0 |}.

Definition datedRecord (date : Z) (totalVolume : Q) : WorkoutHistory :=
  {| wh_id := "h"; wh_date := date; wh_planName := "Push Pull Legs";
     wh_dayName := "Push"; wh_durationSeconds := 0; wh_totalVolume := totalVolume;
     wh_exercisesCompleted := 1; wh_exercises := None |}.

(** Bucket [b] of index [i] after the records of [history] were rolled in. *)
Definition rollInto (now : Z) (history : list WorkoutHistory) (i : nat)
    (b : Bucket) : Bucket :=
  {| b_label := b_label b;
     b_workouts := (b_workouts b + length (List.filter (inWeek now i) history))%nat;
     b_volume := fold_left (fun v h => v + wh_totalVolume h)
                   (List.filter (inWeek now i) history) (b_volume b) |}.
(** ** Further specification-side definitions *)

(** The run-time session is the value of a well-typed [ActiveSession]. *)
Definition wellTyped (s : JsSession) : Prop := exists t, s = sessionValue t.

(** The two writes address the same field. *)
Definition sameField (fv fv' : FieldValue) : Prop :=
  match fv, fv' with
  | IdValue _, IdValue _ | RepsValue _, RepsValue _
  | WeightValue _, WeightValue _ | CompletedValue _, CompletedValue _ => True
  | _, _ => False
  end.

(** The set with its [completed] flag replaced. *)
Definition withCompleted (s : SetLog) (c : bool) : SetLog :=
  {| sl_id := sl_id s; sl_reps := sl_reps s; sl_weight := sl_weight s;
     sl_completed := c |}.

(** Two exercises, of two sets and of one. *)
Definition twoExerciseSession : ActiveSession :=
  {| as_id := "s"; as_planId := "p"; as_dayId := "d"; as_startTime := 0;
     as_exercises := [("ex-1", [demoSet "a" 60 10 false; demoSet "b" 60 8 false]);
                      ("ex-2", [demoSet "c" 20 12 true])] |}.

(** Every slot of every exercise holds a set object with all four
    properties. *)
Definition fullSlots (s : JsSession) : Prop :=
  Forall (fun kv => Forall (fun sl => exists t, sl = Elem (objectOf t)) (snd kv))
         (js_exercises s).

(** The set with one field replaced. *)
Definition withField (s : SetLog) (fv : FieldValue) : SetLog :=
  match fv with
  | IdValue v =>
      {| sl_id := v; sl_reps := sl_reps s; sl_weight := sl_weight s;
         sl_completed := sl_completed s |}
  | RepsValue v =>
      {| sl_id := sl_id s; sl_reps := v; sl_weight := sl_weight s;
         sl_completed := sl_completed s |}
  | WeightValue v =>
      {| sl_id := sl_id s; sl_reps := sl_reps s; sl_weight := v;
         sl_completed := sl_completed s |}
  | CompletedValue v =>
      {| sl_id := sl_id s; sl_reps := sl_reps s; sl_weight := sl_weight s;
         sl_completed := v |}
  end.

(** The entries the initialization effect builds for a list of exercises,
    the first identifier drawn being [uuid k]. *)
Fixpoint initEntries (uuid : nat -> string) (history : list WorkoutHistory)
    (k : nat) (exercises : list Exercise) : JsObject (list SetLog) :=
  match exercises with
  | [] => []
  | ex :: rest =>
      (ex_id ex,
       newSets uuid k (ex_targetSets ex)
         (findLastWeightForExercise (ex_name ex) history))
      :: initEntries uuid history (k + ex_targetSets ex) rest
  end.

(** The number of sets a day plans. *)
Definition plannedSets (day : WorkoutDay) : nat :=
  list_sum (map ex_targetSets (wd_exercises day)).

(** The identifiers of the sets of a session, in enumeration order. *)
Definition setIds (s : ActiveSession) : list string :=
  map sl_id (concat (map snd (as_exercises s))).

(** The history is ordered newest first. *)
Definition newestFirst (history : list WorkoutHistory) : Prop :=
  StronglySorted (fun a b => (wh_date b <= wh_date a)%Z) history.

(** An application state with one plan and one recorded workout. *)
Definition demoState : AppState :=
  {| st_view := PLANS; st_plans := [benchPlan]; st_history := [finishedRecord];
     st_activePlan := None; st_activeDayId := None |}.

(** The record is dated within the 28 days before [now]. *)
Definition recent (now : Z) (h : WorkoutHistory) : bool :=
  (now - wh_date h <? 28 * 24 * 60 * 60 * 1000)%Z.

(** Sum of a list of numbers. *)
Definition sumQ (l : list Q) : Q := fold_right Qplus 0 l.

(** Some record of the history logs an exercise of that name. *)
Definition logged (name : string) (history : list WorkoutHistory) : Prop :=
  exists h exercises e,
    In h history /\ wh_exercises h = Some exercises /\ In e exercises /\
    ld_name e = name.

(** A form of the custom plan editor with one day of one exercise. *)
Definition demoForm : CustomPlan :=
  {| cp_name := "My Split"; cp_description := EmptyString;
     cp_days := [{| wd_id := "d1"; wd_name := "Day 1";
                    wd_exercises :=
                      [{| ex_id := "e1"; ex_name := "Squat"; ex_targetSets := 3;
                          ex_targetReps := "5"; ex_notes := None |}] |}] |}.

(** The identifiers of a plan in the order in which they are drawn. *)
Definition allIds (plan : TrainingPlan) : list string :=
  tp_id plan
  :: flat_map (fun d => wd_id d :: map ex_id (wd_exercises d)) (tp_days plan).

(** The number of identifiers a parsed response needs. *)
Definition idsNeeded (days : list DayData) : nat :=
  list_sum (map (fun d => S (length (dd_exercises d))) days).

(** * Properties *)

(** ** Dictionary objects *)

Section JsObjectFacts.
Context {A : Type}.
Implicit Types (o : JsObject A) (k : string) (v : A).

Lemma obj_get_set_eq o k v : obj_get (obj_set o k v) k = Some v.
Proof.
  induction o as [|[k' v'] o IH]; simpl.
  - by rewrite String.eqb_refl.
  - destruct (String.eqb k' k) eqn:E; simpl.
    + by rewrite String.eqb_refl.
    + by rewrite E.
Qed.

Lemma obj_get_set_ne o k k' v :
  k <> k' -> obj_get (obj_set o k v) k' = obj_get o k'.
Proof.
  intros Hne. induction o as [|[k0 v0] o IH]; simpl.
  - destruct (String.eqb_spec k k'); congruence.
  - destruct (String.eqb_spec k0 k) as [->|Hk]; simpl.
    + destruct (String.eqb_spec k k'); congruence.
    + destruct (String.eqb_spec k0 k'); congruence.
Qed.

Lemma obj_get_Some_In o k v : obj_get o k = Some v -> In (k, v) o.
Proof.
  induction o as [|[k' v'] o IH]; simpl; [done|].
  destruct (String.eqb_spec k' k) as [->|Hk]; intros H.
  - left. congruence.
  - right. auto.
Qed.

Lemma obj_get_None_keys o k : obj_get o k = None <-> ~ In k (obj_keys o).
Proof.
  induction o as [|[k' v'] o IH]; simpl; [tauto|].
  destruct (String.eqb_spec k' k) as [->|Hk]; split; try done.
  - intros H. exfalso. apply H. by left.
  - intros H [?|?]; [done|]. by apply IH.
  - intros H. apply IH. tauto.
Qed.

Lemma obj_keys_set_present o k v :
  In k (obj_keys o) -> obj_keys (obj_set o k v) = obj_keys o.
Proof.
  induction o as [|[k' v'] o IH]; simpl; [done|].
  destruct (String.eqb_spec k' k) as [->|Hk]; simpl; [done|].
  intros [?|H]; [done|]. f_equal. by apply IH.
Qed.

Lemma obj_keys_set_absent o k v :
  ~ In k (obj_keys o) -> obj_keys (obj_set o k v) = obj_keys o ++ [k].
Proof.
  induction o as [|[k' v'] o IH]; simpl; [done|].
  destruct (String.eqb_spec k' k) as [->|Hk]; simpl; [tauto|].
  intros H. f_equal. apply IH. tauto.
Qed.

(** The values stored in [obj_set o k v] are [v] and values of [o]. *)
Lemma obj_set_In o k v k' v' :
  In (k', v') (obj_set o k v) -> (k' = k /\ v' = v) \/ In (k', v') o.
Proof.
  induction o as [|[k0 v0] o IH]; simpl.
  - intros [H|[]]. left. by inversion H.
  - destruct (String.eqb_spec k0 k) as [->|Hk]; simpl.
    + intros [H|H]; [left; by inversion H | right; by right].
    + intros [H|H]; [right; by left|].
      destruct (IH H) as [?|?]; [by left | right; by right].
Qed.

End JsObjectFacts.

(** ** Session mutators *)

Lemma array_assign_length sets i v :
  (length sets <= i)%nat -> length (array_assign sets i v) = S i.
Proof.
  intros H. unfold array_assign.
  destruct (Nat.ltb_spec i (length sets)); [lia|].
  rewrite !length_app, length_replicate. simpl. lia.
Qed.

Lemma array_assign_out sets i v :
  (length sets <= i)%nat ->
  array_assign sets i v = sets ++ replicate (i - length sets) Empty ++ [v].
Proof.
  intros H. unfold array_assign.
  by destruct (Nat.ltb_spec i (length sets)); [lia|].
Qed.

Lemma removelast_length {A} (l : list A) :
  length (removelast l) = (length l - 1)%nat.
Proof.
  induction l as [|x [|y l] IH]; simpl in *; auto. rewrite IH. lia.
Qed.

Lemma removeSet_keeps_floor exerciseId s :
  everyExerciseHasSet s -> everyExerciseHasSet (removeSet exerciseId s).
Proof.
  unfold everyExerciseHasSet, removeSet. intros H.
  destruct (Nat.leb_spec (length (or_empty (obj_get (js_exercises s) exerciseId))) 1)
    as [Hle|Hgt]; [done|].
  simpl. apply List.Forall_forall. intros [k v] Hin.
  apply obj_set_In in Hin as [[-> ->]|Hin].
  - simpl. rewrite removelast_length. lia.
  - rewrite List.Forall_forall in H. by apply (H (k, v)).
Qed.

Lemma removeSets_keep_floor ids s :
  everyExerciseHasSet s -> everyExerciseHasSet (removeSets ids s).
Proof.
  revert s. induction ids as [|e ids IH]; intros s H; simpl; [done|].
  apply IH. by apply removeSet_keeps_floor.
Qed.

(** C4.  [removeSet] leaves the session as it is when the exercise's list
    holds one set or none; otherwise it stores the list without its last set
    and touches no other exercise.  Hence, in a session where every exercise
    holds a set, every exercise still holds one after any sequence of
    [removeSet] calls. *)
Theorem removeSet_floor (prev : JsSession) (exerciseId : string) :
  let currentSets := or_empty (obj_get (js_exercises prev) exerciseId) in
  ((length currentSets <= 1)%nat -> removeSet exerciseId prev = prev) /\
  ((2 <= length currentSets)%nat ->
     obj_get (js_exercises (removeSet exerciseId prev)) exerciseId
       = Some (removelast currentSets) /\
     currentSets = removelast currentSets ++ [List.last currentSets Empty] /\
     (forall k, k <> exerciseId ->
        obj_get (js_exercises (removeSet exerciseId prev)) k
          = obj_get (js_exercises prev) k)) /\
  (everyExerciseHasSet prev ->
     forall ids, everyExerciseHasSet (removeSets ids prev)).
Proof.
  intros currentSets. unfold removeSet. fold currentSets.
  split; [|split].
  - intros H. by destruct (Nat.leb_spec (length currentSets) 1); [|lia].
  - intros H. destruct (Nat.leb_spec (length currentSets) 1); [lia|]. simpl.
    split; [apply obj_get_set_eq|]. split.
    + apply app_removelast_last. intros E. rewrite E in H. simpl in H. lia.
    + intros k Hk. by apply obj_get_set_ne.
  - intros H ids. by apply removeSets_keep_floor.
Qed.

Lemma withExercises_exercises prev exercises :
  js_exercises (withExercises prev exercises) = exercises.
Proof. done. Qed.

(** C3 (amended).  Addressed at an exercise id that does not exist, or at a
    set index past the end of the list, [updateSet] does not reject the
    mutation: under the exercise id it stores the old sets, followed by empty
    slots up to the index and by an object holding only the written field.
    The key exists afterwards and the session has changed; the other
    exercises and the other fields of the session are kept. *)
Theorem updateSet_out_of_range (prev : JsSession) (exerciseId : string)
    (setIndex : nat) (fv : FieldValue) :
  let sets := or_empty (obj_get (js_exercises prev) exerciseId) in
  obj_get (js_exercises prev) exerciseId = None \/ (length sets <= setIndex)%nat ->
  let next := updateSet exerciseId setIndex fv prev in
  obj_get (js_exercises next) exerciseId
    = Some (sets ++ replicate (setIndex - length sets) Empty
                 ++ [Elem (assignField emptyObject fv)]) /\
  In exerciseId (obj_keys (js_exercises next)) /\
  next <> prev /\
  (forall k, k <> exerciseId ->
     obj_get (js_exercises next) k = obj_get (js_exercises prev) k) /\
  js_id next = js_id prev /\ js_planId next = js_planId prev /\
  js_dayId next = js_dayId prev /\ js_startTime next = js_startTime prev.
Proof.
  intros sets Hout next.
  assert (Hlen : (length sets <= setIndex)%nat).
  { destruct Hout as [Hnone|H]; [|done]. subst sets. rewrite Hnone. simpl. lia. }
  assert (Hget : obj_get (js_exercises next) exerciseId
            = Some (sets ++ replicate (setIndex - length sets) Empty
                         ++ [Elem (assignField emptyObject fv)])).
  { subst next. unfold updateSet. fold sets. rewrite withExercises_exercises.
    rewrite obj_get_set_eq, array_assign_out by done.
    by rewrite (lookup_ge_None_2 sets setIndex) by done. }
  split; [done|]. split; [|split; [|split]].
  - destruct (in_dec string_dec exerciseId (obj_keys (js_exercises next)))
      as [Hin|Hnin]; [done|].
    apply obj_get_None_keys in Hnin. congruence.
  - intros Heq. rewrite Heq in Hget.
    assert (Hl : length sets = S setIndex); [|lia].
    transitivity (length (or_empty (obj_get (js_exercises prev) exerciseId)));
      [done|].
    rewrite Hget. simpl. rewrite !length_app, length_replicate. simpl. lia.
  - intros k Hk. subst next. unfold updateSet. rewrite withExercises_exercises.
    by apply obj_get_set_ne.
  - done.
Qed.

(** In range, on an existing exercise, [updateSet] replaces one field of one
    set and nothing else. *)
Lemma updateSet_in_range (prev : JsSession) exerciseId setIndex fv sets o :
  obj_get (js_exercises prev) exerciseId = Some sets ->
  sets !! setIndex = Some (Elem o) ->
  obj_get (js_exercises (updateSet exerciseId setIndex fv prev)) exerciseId
    = Some (<[setIndex := Elem (assignField o fv)]> sets).
Proof.
  intros Hget Hi. unfold updateSet. rewrite withExercises_exercises, obj_get_set_eq.
  rewrite Hget. simpl. rewrite Hi. simpl. unfold array_assign.
  apply lookup_lt_Some in Hi.
  by destruct (Nat.ltb_spec setIndex (length sets)); [|lia].
Qed.

(** C8.  For every session, exercise id and set index at which the
    exercise's list holds a set, [toggleComplete] yields the session that
    [updateSet] yields for the field [completed] and the negation of that
    set's current [completed] value.  These are all the cases in which
    there is a set whose value is negated: where the list holds none (an
    index past the end, an exercise id that does not exist, an empty slot)
    [toggleComplete] yields no session. *)
Theorem toggleComplete_updateSet (prev : JsSession) (exerciseId : string)
    (setIndex : nat) :
  let sets := or_empty (obj_get (js_exercises prev) exerciseId) in
  (forall o,
     sets !! setIndex = Some (Elem o) ->
     toggleComplete exerciseId setIndex prev
       = Some (updateSet exerciseId setIndex
                 (CompletedValue (negb (truthy (so_completed o)))) prev)) /\
  ((forall o, sets !! setIndex <> Some (Elem o)) ->
     toggleComplete exerciseId setIndex prev = None).
Proof.
  intros sets. split.
  - intros o H. unfold toggleComplete, updateSet. fold sets. by rewrite H.
  - intros H. unfold toggleComplete. fold sets.
    destruct (sets !! setIndex) as [[|o]|] eqn:E; try done. by destruct (H o).
Qed.

Lemma sessionValue_get (s : ActiveSession) exerciseId :
  obj_get (js_exercises (sessionValue s)) exerciseId
    = slotsOf <$> obj_get (as_exercises s) exerciseId.
Proof.
  simpl. induction (as_exercises s) as [|[k v] l IH]; simpl; [done|].
  by destruct (String.eqb k exerciseId).
Qed.

(** On a well-typed session the flipped value is the [completed] field of
    the addressed set. *)
Lemma toggleComplete_typed (s : ActiveSession) exerciseId setIndex sets st :
  obj_get (as_exercises s) exerciseId = Some sets ->
  sets !! setIndex = Some st ->
  toggleComplete exerciseId setIndex (sessionValue s)
    = Some (updateSet exerciseId setIndex
              (CompletedValue (negb (sl_completed st))) (sessionValue s)).
Proof.
  intros Hget Hi.
  assert (Hslot : or_empty (obj_get (js_exercises (sessionValue s)) exerciseId)
                    !! setIndex = Some (Elem (objectOf st))).
  { rewrite sessionValue_get, Hget. simpl. unfold slotsOf.
    by rewrite list_lookup_fmap, Hi. }
  unfold toggleComplete, updateSet. rewrite Hslot. simpl.
  by destruct (sl_completed st).
Qed.

(** C3 does not hold as stated: addressed at an exercise that does not
    exist, or past the end of the list, [updateSet] still writes. *)
Lemma updateSet_rejects_counterexample :
  obj_get (js_exercises (sessionValue oneSetSession)) "ex-9" = None /\
  updateSet "ex-9" 0 (RepsValue 8) (sessionValue oneSetSession)
    = withExercises (sessionValue oneSetSession)
        [("ex-1", slotsOf [demoSet "a" 60 10 false]);
         ("ex-9", [Elem (assignField emptyObject (RepsValue 8))])] /\
  updateSet "ex-9" 0 (RepsValue 8) (sessionValue oneSetSession)
    <> sessionValue oneSetSession /\
  length (or_empty (obj_get (js_exercises (sessionValue oneSetSession)) "ex-1"))
    = 1%nat /\
  updateSet "ex-1" 2 (CompletedValue true) (sessionValue oneSetSession)
    = withExercises (sessionValue oneSetSession)
        [("ex-1", slotsOf [demoSet "a" 60 10 false]
                    ++ [Empty; Elem (assignField emptyObject (CompletedValue true))])] /\
  updateSet "ex-1" 2 (CompletedValue true) (sessionValue oneSetSession)
    <> sessionValue oneSetSession.
Proof.
  repeat split; try reflexivity; vm_compute; discriminate.
Qed.

Lemma updateSet_out_of_range_witness :
  obj_get (js_exercises (sessionValue oneSetSession)) "ex-9" = None /\
  In "ex-9" (obj_keys (js_exercises
       (updateSet "ex-9" 0 (RepsValue 8) (sessionValue oneSetSession)))).
Proof.
  split; [reflexivity|].
  apply (updateSet_out_of_range (sessionValue oneSetSession) "ex-9" 0 (RepsValue 8)).
  left. reflexivity.
Defined.

Lemma removeSet_floor_witness :
  everyExerciseHasSet (sessionValue oneSetSession) /\
  everyExerciseHasSet
    (removeSets ["ex-1"; "ex-1"; "ex-1"] (sessionValue oneSetSession)).
Proof.
  assert (H : everyExerciseHasSet (sessionValue oneSetSession)).
  { repeat constructor. }
  split; [exact H|].
  apply (removeSet_floor (sessionValue oneSetSession) "ex-1"). exact H.
Defined.

(** Past the end of the list, where no set is addressed, [toggleComplete]
    raises; the handlers of the set rows pass only indices of the list. *)
Lemma toggleComplete_past_the_end :
  toggleComplete "ex-1" 1 (sessionValue oneSetSession) = None /\
  ~ (exists b, toggleComplete "ex-1" 1 (sessionValue oneSetSession)
        = Some (updateSet "ex-1" 1 (CompletedValue b) (sessionValue oneSetSession))).
Proof.
  split; [reflexivity|]. intros [b H]. vm_compute in H. discriminate.
Qed.

Lemma toggleComplete_updateSet_witness :
  or_empty (obj_get (js_exercises (sessionValue oneSetSession)) "ex-1") !! 0%nat
    = Some (Elem (objectOf (demoSet "a" 60 10 false))) /\
  toggleComplete "ex-1" 0 (sessionValue oneSetSession)
    = Some (updateSet "ex-1" 0 (CompletedValue true) (sessionValue oneSetSession)).
Proof.
  split; [reflexivity|].
  apply (proj1 (toggleComplete_updateSet (sessionValue oneSetSession) "ex-1" 0)
           (objectOf (demoSet "a" 60 10 false))).
  reflexivity.
Defined.

(** ** Estimated one-rep-max *)

(** C9 does not hold as stated: at weight 0 the estimate is 0 for every
    rep count. *)
Lemma oneRepMax_reps_counterexample :
  1 < 2 /\ ~ (oneRepMax 0 1 < oneRepMax 0 2).
Proof.
  split; [reflexivity|]. vm_compute. discriminate.
Qed.

(** C9 (amended).  For a fixed positive weight the estimated one-rep-max is
    strictly increasing in the rep count; at weight 0 it is the same for all
    rep counts; for a fixed non-negative rep count it is strictly increasing
    in the weight. *)
Theorem oneRepMax_monotone :
  (forall weight reps1 reps2,
     0 < weight -> reps1 < reps2 -> oneRepMax weight reps1 < oneRepMax weight reps2) /\
  (forall reps1 reps2, oneRepMax 0 reps1 == oneRepMax 0 reps2) /\
  (forall reps weight1 weight2,
     0 <= reps -> weight1 < weight2 -> oneRepMax weight1 reps < oneRepMax weight2 reps).
Proof.
  unfold oneRepMax, Qdiv. split; [|split].
  - intros w r1 r2 Hw Hr. apply Qmult_lt_l; [done|].
    apply Qplus_lt_r. apply Qmult_lt_compat_r; [reflexivity|done].
  - intros r1 r2. by rewrite !Qmult_0_l.
  - intros r w1 w2 Hr Hw. apply Qmult_lt_compat_r; [|done].
    apply Qlt_le_trans with (1 + 0); [reflexivity|].
    apply Qplus_le_r. apply Qmult_le_0_compat; [done|]. discriminate.
Qed.

Lemma oneRepMax_monotone_witness :
  oneRepMax 100 5 < oneRepMax 100 8 /\ oneRepMax 100 5 < oneRepMax 105 5.
Proof.
  split.
  - apply (proj1 oneRepMax_monotone 100 5 8); reflexivity.
  - apply (proj2 (proj2 oneRepMax_monotone) 5 100 105); [discriminate|reflexivity].
Defined.

(** ** Session finalizer *)

Lemma filter_nonempty_existsb {A} (f : A -> bool) (l : list A) :
  (0 <? length (List.filter f l))%nat = existsb f l.
Proof.
  induction l as [|x l IH]; simpl; [done|]. by destruct (f x).
Qed.

Lemma filter_concat {A} (f : A -> bool) (ls : list (list A)) :
  List.filter f (concat ls) = concat (map (List.filter f) ls).
Proof.
  induction ls as [|l ls IH]; simpl; [done|]. by rewrite List.filter_app, IH.
Qed.

(** The loop of the finalizer in closed form. *)
Lemma finishLoop_fold day entries st :
  fold_left (finishExercise day) entries st
  = {| volume :=
         fold_left (fun v s => v + sl_weight s * sl_reps s)
           (List.filter sl_completed (concat (map snd entries))) (volume st);
       exercisesDone :=
         (exercisesDone st + length (List.filter hasCompletedSet entries))%nat;
       detailedExercises :=
         detailedExercises st
           ++ map (detailOf day) (List.filter hasCompletedSet entries) |}.
Proof.
  revert st. induction entries as [|e entries IH]; intros st; simpl.
  - destruct st; simpl. by rewrite Nat.add_0_r, app_nil_r.
  - rewrite IH, List.filter_app, fold_left_app. unfold finishExercise.
    rewrite filter_nonempty_existsb. fold (hasCompletedSet e).
    destruct (hasCompletedSet e) eqn:E; simpl.
    + f_equal; [lia|]. by rewrite <- app_assoc.
    + assert (Hnil : List.filter sl_completed (snd e) = []).
      { unfold hasCompletedSet in E. rewrite <- filter_nonempty_existsb in E.
        destruct (List.filter sl_completed (snd e)); [done|discriminate]. }
      by rewrite Hnil.
Qed.

Lemma fold_left_volume (sets : list SetLog) (v : Q) :
  fold_left (fun v s => v + sl_weight s * sl_reps s) sets v == v + volumeOf sets.
Proof.
  revert v. induction sets as [|s sets IH]; intros v; simpl.
  - ring.
  - rewrite IH. ring.
Qed.

(** When the plan and the day are known, [handleFinishWorkout] builds this
    record. *)
Lemma handleFinishWorkout_Some plan dayId day newId nowDate nowEnd session :
  dayId <> EmptyString ->
  find (fun d => String.eqb (wd_id d) dayId) (tp_days plan) = Some day ->
  handleFinishWorkout (Some plan) (Some dayId) newId nowDate nowEnd session
  = Some {| wh_id := newId; wh_date := nowDate; wh_planName := tp_name plan;
            wh_dayName := wd_name day;
            wh_durationSeconds := (nowEnd - as_startTime session) / 1000;
            wh_totalVolume := volume (finishLoop day session);
            wh_exercisesCompleted := exercisesDone (finishLoop day session);
            wh_exercises := Some (detailedExercises (finishLoop day session)) |}.
Proof.
  intros Hid Hday. unfold handleFinishWorkout.
  destruct (String.eqb_spec dayId EmptyString); [done|]. by rewrite Hday.
Qed.

(** Every record that [handleFinishWorkout] returns has that shape. *)
Lemma handleFinishWorkout_inv activePlan activeDayId newId nowDate nowEnd session record :
  handleFinishWorkout activePlan activeDayId newId nowDate nowEnd session
    = Some record ->
  exists day,
    wh_totalVolume record = volume (finishLoop day session) /\
    wh_exercisesCompleted record = exercisesDone (finishLoop day session) /\
    wh_exercises record = Some (detailedExercises (finishLoop day session)).
Proof.
  unfold handleFinishWorkout. destruct activePlan as [plan|]; [|done].
  destruct activeDayId as [dayId|]; [|done].
  destruct (String.eqb dayId EmptyString); [done|].
  destruct (find _ (tp_days plan)) as [day|]; [|done].
  intros [= <-]. by exists day.
Qed.

Lemma finishLoop_volume day session :
  volume (finishLoop day session) == volumeOf (completedSetsOf session).
Proof.
  unfold finishLoop. rewrite finishLoop_fold. simpl.
  rewrite fold_left_volume. unfold completedSetsOf. ring.
Qed.

Lemma finishLoop_exercisesDone day session :
  exercisesDone (finishLoop day session)
    = length (List.filter hasCompletedSet (as_exercises session)).
Proof. unfold finishLoop. by rewrite finishLoop_fold. Qed.

Lemma finishLoop_detailed day session :
  detailedExercises (finishLoop day session)
    = map (detailOf day) (List.filter hasCompletedSet (as_exercises session)).
Proof. unfold finishLoop. by rewrite finishLoop_fold. Qed.

Lemma detailed_sets day (entries : list (string * list SetLog)) :
  concat (map ld_sets (map (detailOf day) (List.filter hasCompletedSet entries)))
  = map loggedSet (List.filter sl_completed (concat (map snd entries))).
Proof.
  induction entries as [|e entries IH]; simpl; [done|].
  rewrite List.filter_app, map_app, <- IH.
  unfold hasCompletedSet at 1. destruct (existsb sl_completed (snd e)) eqn:E.
  - done.
  - rewrite <- filter_nonempty_existsb in E.
    by destruct (List.filter sl_completed (snd e)); [|discriminate].
Qed.

(** C1.  When the plan and the day are known, [handleFinishWorkout] builds a
    record whose total volume is the sum of weight * reps over the sets of
    the session marked completed, and whose detailed log holds exactly those
    sets, in order: a set not marked completed adds nothing to the volume and
    is absent from the log. *)
Theorem finalize_total_volume (plan : TrainingPlan) (dayId : string)
    (day : WorkoutDay) (newId : string) (nowDate nowEnd : Z)
    (session : ActiveSession) :
  dayId <> EmptyString ->
  find (fun d => String.eqb (wd_id d) dayId) (tp_days plan) = Some day ->
  exists record,
    handleFinishWorkout (Some plan) (Some dayId) newId nowDate nowEnd session
      = Some record /\
    wh_totalVolume record == volumeOf (completedSetsOf session) /\
    loggedSetsOf record = map loggedSet (completedSetsOf session).
Proof.
  intros Hid Hday. eexists. split; [by apply handleFinishWorkout_Some|].
  unfold loggedSetsOf. simpl. split; [apply finishLoop_volume|].
  rewrite finishLoop_detailed. apply detailed_sets.
Qed.

Lemma finalize_total_volume_witness :
  exists record,
    handleFinishWorkout (Some benchPlan) (Some "d") "r" 126000 126000 finishedSession
      = Some record /\
    wh_totalVolume record == volumeOf (completedSetsOf finishedSession) /\
    loggedSetsOf record = map loggedSet (completedSetsOf finishedSession).
Proof.
  apply (finalize_total_volume benchPlan "d" benchDay "r" 126000 126000 finishedSession).
  - discriminate.
  - reflexivity.
Defined.

(** C5.  The record counts in [exercisesCompleted] the exercise slots of the
    session with at least one completed set, and its detailed log has one
    entry for each of them and no other: a slot with no completed set adds
    no entry and does not count. *)
Theorem finalize_exclusion (plan : TrainingPlan) (dayId : string)
    (day : WorkoutDay) (newId : string) (nowDate nowEnd : Z)
    (session : ActiveSession) :
  dayId <> EmptyString ->
  find (fun d => String.eqb (wd_id d) dayId) (tp_days plan) = Some day ->
  exists record,
    handleFinishWorkout (Some plan) (Some dayId) newId nowDate nowEnd session
      = Some record /\
    wh_exercisesCompleted record
      = length (List.filter hasCompletedSet (as_exercises session)) /\
    wh_exercises record
      = Some (map (detailOf day)
                (List.filter hasCompletedSet (as_exercises session))) /\
    (forall before entry after,
       as_exercises session = before ++ entry :: after ->
       List.filter sl_completed (snd entry) = [] ->
       wh_exercisesCompleted record
         = length (List.filter hasCompletedSet (before ++ after)) /\
       wh_exercises record
         = Some (map (detailOf day) (List.filter hasCompletedSet (before ++ after)))).
Proof.
  intros Hid Hday. eexists. split; [by apply handleFinishWorkout_Some|].
  simpl. rewrite finishLoop_exercisesDone, finishLoop_detailed.
  split; [done|]. split; [done|].
  intros before entry after -> Hnone.
  assert (E : hasCompletedSet entry = false).
  { unfold hasCompletedSet. rewrite <- filter_nonempty_existsb. by rewrite Hnone. }
  rewrite !List.filter_app. simpl. by rewrite E.
Qed.

Lemma finalize_exclusion_witness :
  exists record,
    handleFinishWorkout (Some benchPlan) (Some "d") "r" 126000 126000 finishedSession
      = Some record /\
    wh_exercisesCompleted record = 1%nat.
Proof.
  destruct (finalize_exclusion benchPlan "d" benchDay "r" 126000 126000
              finishedSession) as (record & Hr & Hn & _).
  - discriminate.
  - reflexivity.
  - exists record. split; [exact Hr|]. rewrite Hn. reflexivity.
Defined.

(** The end-to-end scenario: one set of 60 x 10 completed, finished 125 s
    after the start. *)
Example handleFinishWorkout_scenario :
  handleFinishWorkout (Some benchPlan) (Some "d") "r" 126000 126000 finishedSession
    = Some finishedRecord.
Proof. reflexivity. Qed.

Lemma finalizerOutput_clean record : finalizerOutput record -> cleanRecord record.
Proof.
  intros (activePlan & activeDayId & newId & nowDate & nowEnd & session & H).
  apply handleFinishWorkout_inv in H as (day & _ & _ & Hex).
  exists (detailedExercises (finishLoop day session)). split; [done|].
  rewrite finishLoop_detailed. apply List.Forall_forall. intros e He.
  apply in_map_iff in He as (entry & <- & Hentry).
  apply filter_In in Hentry as [_ Hc]. unfold hasCompletedSet in Hc.
  rewrite <- filter_nonempty_existsb in Hc. simpl. split.
  - destruct (List.filter sl_completed (snd entry)); [discriminate|done].
  - apply List.Forall_forall. intros s Hs.
    apply in_map_iff in Hs as (s0 & <- & Hs0).
    apply filter_In in Hs0 as [_ Hs0]. done.
Qed.

Lemma find_rev_last {A} (f : A -> bool) (l : list A) (x : A) :
  last l = Some x -> f x = true -> find f (rev l) = Some x.
Proof.
  intros Hl Hx. apply last_Some in Hl as [l' ->].
  rewrite rev_app_distr. simpl. by rewrite Hx.
Qed.

Lemma clean_history_site exerciseName history :
  Forall cleanRecord history ->
  findLastWeightSite exerciseName history <> LastSetFallback.
Proof.
  induction 1 as [|record rest (exercises & Hex & Hclean) _ IH]; simpl; [done|].
  rewrite Hex.
  destruct (find _ exercises) as [exerciseLog|] eqn:Hfind; [|done].
  apply find_some in Hfind as [Hin _].
  rewrite List.Forall_forall in Hclean. destruct (Hclean _ Hin) as [_ Hall].
  destruct (last (ld_sets exerciseLog)) as [lastSet|] eqn:Hlast; [|done].
  rewrite (find_rev_last _ _ lastSet Hlast); [done|].
  rewrite List.Forall_forall in Hall. apply Hall.
  apply last_Some in Hlast as [l' ->]. apply in_or_app. right. by left.
Qed.

Lemma filter_all {A} (f : A -> bool) (l : list A) :
  Forall (fun x => f x = true) l -> List.filter f l = l.
Proof.
  induction 1 as [|x l Hx _ IH]; simpl; [done|]. by rewrite Hx, IH.
Qed.

(** C10.  In a history made of records built by [handleFinishWorkout], every
    entry of every detailed log has at least one set and only completed
    sets.  So the filter on [completed] of the statistics keeps every set,
    the backward search for a completed set finds the last set of the entry,
    and [findLastWeightForExercise] never leaves through its fallback to an
    uncompleted last set. *)
Theorem finalizer_history_clean (history : list WorkoutHistory) :
  Forall finalizerOutput history ->
  Forall cleanRecord history /\
  (forall record exercises e,
     In record history -> wh_exercises record = Some exercises -> In e exercises ->
     List.filter ls_completed (ld_sets e) = ld_sets e /\
     find ls_completed (rev (ld_sets e)) = last (ld_sets e) /\
     is_Some (last (ld_sets e))) /\
  (forall exerciseName,
     findLastWeightSite exerciseName history <> LastSetFallback).
Proof.
  intros Hout.
  assert (Hclean : Forall cleanRecord history).
  { eapply List.Forall_impl; [|exact Hout]. apply finalizerOutput_clean. }
  split; [done|]. split.
  - intros record exercises e Hr Hex He.
    rewrite List.Forall_forall in Hclean.
    destruct (Hclean _ Hr) as (exercises' & Hex' & Hall).
    assert (exercises' = exercises) as -> by congruence.
    rewrite List.Forall_forall in Hall. destruct (Hall _ He) as [Hne Hc].
    split; [by apply filter_all|].
    destruct (last (ld_sets e)) as [x|] eqn:Hlast.
    + split; [|by eexists]. apply find_rev_last; [done|].
      rewrite List.Forall_forall in Hc. apply Hc.
      apply last_Some in Hlast as [l' ->]. apply in_or_app. right. by left.
    + apply last_None in Hlast. done.
  - intros exerciseName. by apply clean_history_site.
Qed.

Lemma finalizer_history_clean_witness :
  Forall finalizerOutput [finishedRecord] /\
  findLastWeightSite "Bench Press" [finishedRecord] <> LastSetFallback.
Proof.
  assert (H : Forall finalizerOutput [finishedRecord]).
  { constructor; [|constructor].
    exists (Some benchPlan), (Some "d"), "r", 126000%Z, 126000%Z, finishedSession.
    reflexivity. }
  split; [exact H|].
  apply (finalizer_history_clean [finishedRecord] H).
Defined.

(** ** Session initializer *)

Lemma newSets_length uuid k n w : length (newSets uuid k n w) = n.
Proof. revert k. induction n as [|n IH]; intros k; simpl; [done|]. by rewrite IH. Qed.

Lemma newSets_fresh uuid k n w :
  Forall (fun s => sl_reps s = 0 /\ sl_completed s = false /\ sl_weight s = w)
         (newSets uuid k n w).
Proof.
  revert k. induction n as [|n IH]; intros k; simpl; constructor; auto.
Qed.

Lemma newSets_ids uuid k n w :
  map sl_id (newSets uuid k n w) = map uuid (seq k n).
Proof.
  revert k. induction n as [|n IH]; intros k; simpl; [done|]. by rewrite IH.
Qed.

Section InitLoop.
Variable uuid : nat -> string.
Variable history : list WorkoutHistory.

Lemma initLoop_other exercises st k :
  ~ In k (map ex_id exercises) ->
  obj_get (initialExercises (fold_left (initExercise uuid history) exercises st)) k
    = obj_get (initialExercises st) k.
Proof.
  revert st. induction exercises as [|ex exercises IH]; intros st Hk; simpl; [done|].
  simpl in Hk. rewrite IH by tauto. simpl. apply obj_get_set_ne. tauto.
Qed.

Lemma initLoop_get exercises st ex :
  List.NoDup (map ex_id exercises) -> In ex exercises ->
  exists k,
    obj_get (initialExercises (fold_left (initExercise uuid history) exercises st))
            (ex_id ex)
    = Some (newSets uuid k (ex_targetSets ex)
              (findLastWeightForExercise (ex_name ex) history)).
Proof.
  revert st. induction exercises as [|ex0 exercises IH]; intros st Hnd Hin;
    simpl in *; [done|].
  apply List.NoDup_cons_iff in Hnd as [Hfresh Hnd].
  destruct Hin as [->|Hin].
  - exists (nextId st). rewrite initLoop_other by done. simpl. apply obj_get_set_eq.
  - by apply IH.
Qed.

Lemma initLoop_keys exercises st :
  List.NoDup (map ex_id exercises) ->
  (forall k, In k (map ex_id exercises) -> ~ In k (obj_keys (initialExercises st))) ->
  obj_keys (initialExercises (fold_left (initExercise uuid history) exercises st))
    = obj_keys (initialExercises st) ++ map ex_id exercises.
Proof.
  revert st. induction exercises as [|ex exercises IH]; intros st Hnd Hst; simpl.
  - by rewrite app_nil_r.
  - simpl in Hnd. apply List.NoDup_cons_iff in Hnd as [Hfresh Hnd].
    assert (Hk : obj_keys (initialExercises (initExercise uuid history st ex))
                 = obj_keys (initialExercises st) ++ [ex_id ex]).
    { simpl. apply obj_keys_set_absent. apply Hst. by left. }
    rewrite IH, Hk; [by rewrite <- app_assoc|done|].
    intros k Hin. rewrite Hk. intros Hin'. apply in_app_or in Hin' as [Hin'|Hin'].
    + apply (Hst k); [by right|done].
    + destruct Hin' as [<-|[]]. done.
Qed.

End InitLoop.

Lemma find_rev_split {A} (f : A -> bool) (l : list A) :
  match find f (rev l) with
  | Some x => exists before after,
      l = before ++ x :: after /\ f x = true /\ Forall (fun y => f y = false) after
  | None => Forall (fun y => f y = false) l
  end.
Proof.
  induction l as [|y l IH] using rev_ind; simpl; [constructor|].
  rewrite rev_app_distr. simpl. destruct (f y) eqn:Hy.
  - exists l, []. by repeat split.
  - destruct (find f (rev l)) as [x|].
    + destruct IH as (before & after & -> & Hx & Hafter).
      exists before, (after ++ [y]). split; [by rewrite <- app_assoc|].
      split; [done|]. apply Forall_app. split; [done|]. by constructor.
    + apply Forall_app. split; [done|]. by constructor.
Qed.

Lemma findLastWeight_skip exerciseName record rest :
  entrySets exerciseName record = [] ->
  findLastWeightForExercise exerciseName (record :: rest)
    = findLastWeightForExercise exerciseName rest.
Proof.
  unfold entrySets, matchingEntry. simpl. intros H.
  destruct (wh_exercises record) as [exercises|]; [|done].
  destruct (find _ exercises) as [e|]; [|done]. by rewrite H.
Qed.

Lemma findLastWeight_skips exerciseName newer rest :
  Forall (fun r => entrySets exerciseName r = []) newer ->
  findLastWeightForExercise exerciseName (newer ++ rest)
    = findLastWeightForExercise exerciseName rest.
Proof.
  induction 1 as [|r newer Hr _ IH]; [done|].
  simpl app. by rewrite findLastWeight_skip.
Qed.

Lemma findLastWeight_entry exerciseName record rest lastSet :
  last (entrySets exerciseName record) = Some lastSet ->
  findLastWeightForExercise exerciseName (record :: rest)
    = match find ls_completed (rev (entrySets exerciseName record)) with
      | Some s => ls_weight s
      | None => ls_weight lastSet
      end.
Proof.
  unfold entrySets, matchingEntry. simpl.
  destruct (wh_exercises record) as [exercises|]; [|done].
  destruct (find _ exercises) as [e|]; [|done]. by intros ->.
Qed.

Lemma carry_skip exerciseName record rest w :
  entrySets exerciseName record = [] ->
  CarryForward exerciseName rest w ->
  CarryForward exerciseName (record :: rest) w.
Proof.
  intros He H.
  destruct H as [newer r older before s after Hn Hr Hs Ha
                |newer r older before s Hn Hr Ha
                |h Hn].
  - apply (carry_last_completed _ (record :: newer) r older before s after); auto.
  - apply (carry_last_set _ (record :: newer) r older before s); auto.
  - apply carry_never. by constructor.
Qed.

(** The scan computes the carry-forward weight. *)
Lemma findLastWeight_carry exerciseName history :
  CarryForward exerciseName history (findLastWeightForExercise exerciseName history).
Proof.
  induction history as [|record rest IH].
  - apply carry_never. constructor.
  - destruct (last (entrySets exerciseName record)) as [lastSet|] eqn:Hlast.
    + rewrite (findLastWeight_entry _ _ _ _ Hlast).
      pose proof (find_rev_split ls_completed (entrySets exerciseName record)) as Hsp.
      destruct (find ls_completed (rev (entrySets exerciseName record))) as [s|].
      * destruct Hsp as (before & after & Heq & Hs & Hafter).
        by apply (carry_last_completed _ [] record rest before s after).
      * apply last_Some in Hlast as [before Heq].
        apply (carry_last_set _ [] record rest before lastSet); [done|done|].
        by rewrite <- Heq.
    + apply last_None in Hlast. rewrite findLastWeight_skip by done.
      by apply carry_skip.
Qed.

Lemma find_none_all_false {A} (f : A -> bool) (l : list A) :
  Forall (fun y => f y = false) l -> find f l = None.
Proof. induction 1 as [|y l Hy _ IH]; simpl; [done|]. by rewrite Hy. Qed.

Lemma find_app_none {A} (f : A -> bool) (l1 l2 : list A) :
  Forall (fun y => f y = false) l1 -> find f (l1 ++ l2) = find f l2.
Proof. induction 1 as [|y l Hy _ IH]; simpl; [done|]. by rewrite Hy. Qed.

Lemma find_rev_after {A} (f : A -> bool) (before after : list A) (x : A) :
  f x = true -> Forall (fun y => f y = false) after ->
  find f (rev (before ++ x :: after)) = Some x.
Proof.
  intros Hx Hafter. rewrite rev_app_distr. simpl. rewrite <- app_assoc.
  rewrite find_app_none by (by apply List.Forall_rev). simpl. by rewrite Hx.
Qed.

(** The carry-forward weight is unique: it is the one the scan returns. *)
Lemma carry_findLastWeight exerciseName history w :
  CarryForward exerciseName history w ->
  w = findLastWeightForExercise exerciseName history.
Proof.
  intros H.
  destruct H as [newer r older before s after Hn Hr Hs Ha
                |newer r older before s Hn Hr Ha
                |h Hn].
  - rewrite findLastWeight_skips by done.
    assert (Hlast : is_Some (last (entrySets exerciseName r))).
    { rewrite Hr. rewrite last_app. by simpl; destruct (last (s :: after)) eqn:E;
        [eexists | apply last_None in E; discriminate]. }
    destruct Hlast as [lastSet Hlast].
    rewrite (findLastWeight_entry _ _ _ _ Hlast), Hr.
    by rewrite find_rev_after.
  - rewrite findLastWeight_skips by done.
    assert (Hlast : last (entrySets exerciseName r) = Some s).
    { rewrite Hr. apply last_snoc. }
    rewrite (findLastWeight_entry _ _ _ _ Hlast), Hr.
    rewrite find_none_all_false; [done|]. by apply List.Forall_rev.
  - rewrite <- (app_nil_r h). by rewrite findLastWeight_skips.
Qed.

(** C2 (amended).  For a day whose exercises have distinct ids, the
    initialized session holds, under the id of each exercise of the day,
    exactly [targetSets] sets with reps 0, not completed, all of the
    carry-forward weight: that of the last completed set, else of the last
    set, of the newest record whose entry for the exercise's name holds at
    least one set, and 0 when there is no such record.  The weight is the one
    [findLastWeightForExercise] returns, and the session has the ids of the
    day as its keys, in day order. *)
Theorem initialize_sets (uuid : nat -> string) (plan : TrainingPlan)
    (day : WorkoutDay) (history : list WorkoutHistory) (now : Z) (ex : Exercise) :
  List.NoDup (map ex_id (wd_exercises day)) ->
  In ex (wd_exercises day) ->
  exists sets w,
    obj_get (as_exercises (initialize uuid plan day history now)) (ex_id ex)
      = Some sets /\
    length sets = ex_targetSets ex /\
    Forall (fun s => sl_reps s = 0 /\ sl_completed s = false /\ sl_weight s = w)
           sets /\
    w = findLastWeightForExercise (ex_name ex) history /\
    CarryForward (ex_name ex) history w /\
    (forall w', CarryForward (ex_name ex) history w' -> w' = w) /\
    obj_keys (as_exercises (initialize uuid plan day history now))
      = map ex_id (wd_exercises day).
Proof.
  intros Hnd Hin. unfold initialize, initLoop. simpl.
  destruct (initLoop_get uuid history (wd_exercises day)
              {| initialExercises := []; initialLastWeights := []; nextId := 1 |}
              ex Hnd Hin) as [k Hk].
  eexists _, _. split; [exact Hk|].
  split; [apply newSets_length|]. split; [apply newSets_fresh|].
  split; [done|]. split; [apply findLastWeight_carry|].
  split; [apply carry_findLastWeight|].
  rewrite initLoop_keys; [done|done|]. simpl. tauto.
Qed.

Lemma initialize_sets_witness :
  exists sets w,
    obj_get (as_exercises (initialize demoUuid benchPlan benchDay
                             [benchRecord 5 [lset 100 8 true; lset 105 6 true;
                                             lset 90 10 false]] 1000))
            "ex-1" = Some sets /\
    length sets = 3%nat /\
    Forall (fun s => sl_reps s = 0 /\ sl_completed s = false /\ sl_weight s = w)
           sets /\
    w = 105.
Proof.
  destruct (initialize_sets demoUuid benchPlan benchDay
              [benchRecord 5 [lset 100 8 true; lset 105 6 true; lset 90 10 false]]
              1000
              {| ex_id := "ex-1"; ex_name := "Bench Press"; ex_targetSets := 3;
                 ex_targetReps := "8-12"; ex_notes := None |})
    as (sets & w & Hget & Hlen & Hall & Hw & _).
  - repeat constructor. simpl. tauto.
  - left. reflexivity.
  - exists sets, w. repeat split; [exact Hget|exact Hlen|exact Hall|exact Hw].
Defined.

(** C2 does not hold as stated.  An entry without any set is passed over:
    two histories with the same newest matching entry carry different
    weights forward.  And of two exercises of a day that share an identifier
    only the sets of the later one are kept. *)
Lemma initialize_counterexample :
  newestMatchingEntry "Bench Press"
      [benchRecord 9 []; benchRecord 5 [lset 100 8 true]]
    = Some {| ld_name := "Bench Press"; ld_sets := [] |} /\
  newestMatchingEntry "Bench Press"
      [benchRecord 9 []; benchRecord 5 [lset 50 8 true]]
    = Some {| ld_name := "Bench Press"; ld_sets := [] |} /\
  findLastWeightForExercise "Bench Press"
      [benchRecord 9 []; benchRecord 5 [lset 100 8 true]] = 100 /\
  findLastWeightForExercise "Bench Press"
      [benchRecord 9 []; benchRecord 5 [lset 50 8 true]] = 50 /\
  option_map (@length SetLog)
    (obj_get (as_exercises (initialize demoUuid benchPlan twinDay [] 1000)) "x")
    = Some 2%nat.
Proof. repeat split. Qed.

(** The testable properties of the specification on carry-forward. *)
Example carry_forward_last_completed :
  findLastWeightForExercise "Bench Press"
    [benchRecord 5 [lset 100 8 true; lset 105 6 true; lset 90 10 false]] = 105.
Proof. reflexivity. Qed.

Example carry_forward_fallback :
  findLastWeightForExercise "Bench Press" [benchRecord 5 [lset 80 10 false]] = 80.
Proof. reflexivity. Qed.

Example carry_forward_no_match :
  findLastWeightForExercise "Squat" [benchRecord 5 [lset 80 10 false]] = 0.
Proof. reflexivity. Qed.

(** ** Exercise progression series *)

Lemma Qltb_lt a b : Qltb a b = true <-> a < b.
Proof.
  unfold Qltb. rewrite negb_true_iff, <- not_true_iff_false, Qle_bool_iff.
  split; [apply Qnot_le_lt | apply Qlt_not_le].
Qed.

Lemma insertByDate_perm p l : Permutation (insertByDate p l) (p :: l).
Proof.
  induction l as [|q l IH]; simpl; [done|].
  destruct (sp_date p <=? sp_date q)%Z; [done|].
  rewrite IH. apply perm_swap.
Qed.

Lemma sortByDate_perm l : Permutation (sortByDate l) l.
Proof.
  induction l as [|p l IH]; simpl; [done|].
  rewrite insertByDate_perm. by apply perm_skip.
Qed.

Lemma insertByDate_sorted p l :
  StronglySorted dateLe l -> StronglySorted dateLe (insertByDate p l).
Proof.
  induction 1 as [|q l Hs IH Hq]; simpl.
  - repeat constructor.
  - destruct (Z.leb_spec (sp_date p) (sp_date q)) as [Hle|Hgt].
    + constructor; [by constructor|]. constructor; [done|].
      eapply List.Forall_impl; [|exact Hq]. unfold dateLe in *. intros; lia.
    + constructor; [done|].
      eapply Permutation_Forall; [symmetry; apply insertByDate_perm|].
      constructor; [unfold dateLe; lia|done].
Qed.

Lemma sortByDate_sorted l : StronglySorted dateLe (sortByDate l).
Proof.
  induction l as [|p l IH]; simpl; [constructor|]. by apply insertByDate_sorted.
Qed.

Lemma statRecord_app selectedExercise stats h :
  statRecord selectedExercise stats h = stats ++ statRecord selectedExercise [] h.
Proof.
  unfold statRecord. destruct (wh_exercises h) as [exercises|];
    [|by rewrite app_nil_r].
  destruct (find _ exercises) as [exData|]; [|by rewrite app_nil_r].
  destruct (Qltb _ _); [done|by rewrite app_nil_r].
Qed.

Lemma statLoop_flat_map selectedExercise history stats :
  fold_left (statRecord selectedExercise) history stats
    = stats ++ flat_map (statRecord selectedExercise []) history.
Proof.
  revert stats. induction history as [|h history IH]; intros stats; simpl.
  - by rewrite app_nil_r.
  - by rewrite IH, statRecord_app, <- app_assoc.
Qed.

Lemma statSets_volume sets acc :
  acc_volume (fold_left statSet sets acc)
    == acc_volume acc
       + fold_right (fun s v => ls_weight s * ls_reps s + v) 0
           (List.filter ls_completed sets).
Proof.
  revert acc. induction sets as [|s sets IH]; intros acc; simpl.
  - ring.
  - rewrite IH. unfold statSet. destruct (ls_completed s); simpl; ring.
Qed.

(** A record contributes at most one point, and one of positive volume. *)
Lemma statRecord_point selectedExercise h p :
  In p (statRecord selectedExercise [] h) ->
  sp_date p = wh_date h /\ 0 < sp_volume p /\
  sp_volume p == entryVolume selectedExercise h.
Proof.
  unfold statRecord, entryVolume, entrySets, matchingEntry.
  destruct (wh_exercises h) as [exercises|]; [|done].
  destruct (find _ exercises) as [exData|]; [|done].
  destruct (Qltb _ _) eqn:Hv; [|done].
  intros [<-|[]]. simpl. split; [done|]. split; [by apply Qltb_lt|].
  unfold statSets. rewrite statSets_volume. simpl. ring.
Qed.

(** A record of zero volume for the exercise contributes no point. *)
Lemma statRecord_zero selectedExercise h :
  entryVolume selectedExercise h == 0 -> statRecord selectedExercise [] h = [].
Proof.
  intros Hz. destruct (statRecord selectedExercise [] h) as [|p l] eqn:E; [done|].
  destruct (statRecord_point selectedExercise h p) as (_ & Hpos & Hv).
  - rewrite E. by left.
  - rewrite Hv, Hz in Hpos. discriminate.
Qed.

(** C7.  The progression series is sorted by ascending date and each of its
    points has a positive volume; a record whose entry for the exercise has
    no completed set, or zero volume, can be dropped from the history without
    changing the series; and for a store holding the same records in another
    order the series is again sorted and has the same points. *)
Theorem exerciseStats_series (history : list WorkoutHistory)
    (selectedExercise : string) :
  StronglySorted dateLe (exerciseStats history selectedExercise) /\
  Forall (fun p => 0 < sp_volume p) (exerciseStats history selectedExercise) /\
  (forall before record after,
     history = before ++ record :: after ->
     (List.filter ls_completed (entrySets selectedExercise record) = [] \/
      entryVolume selectedExercise record == 0) ->
     exerciseStats history selectedExercise
       = exerciseStats (before ++ after) selectedExercise) /\
  (forall stored,
     Permutation history stored ->
     StronglySorted dateLe (exerciseStats stored selectedExercise) /\
     Permutation (exerciseStats history selectedExercise)
                 (exerciseStats stored selectedExercise)).
Proof.
  assert (Hsorted : forall h, StronglySorted dateLe (exerciseStats h selectedExercise)).
  { intros h. unfold exerciseStats.
    destruct (String.eqb selectedExercise EmptyString); [constructor|apply sortByDate_sorted]. }
  split; [apply Hsorted|]. split; [|split].
  - unfold exerciseStats. destruct (String.eqb selectedExercise EmptyString); [constructor|].
    eapply Permutation_Forall; [symmetry; apply sortByDate_perm|].
    rewrite statLoop_flat_map. simpl. apply List.Forall_forall. intros p Hp.
    apply in_flat_map in Hp as (h & _ & Hp).
    by apply statRecord_point in Hp as (_ & Hpos & _).
  - intros before record after -> Hzero.
    assert (Hz : entryVolume selectedExercise record == 0).
    { destruct Hzero as [Hnone|Hz]; [|done]. unfold entryVolume. by rewrite Hnone. }
    unfold exerciseStats. destruct (String.eqb selectedExercise EmptyString); [done|].
    rewrite !statLoop_flat_map, !flat_map_app. simpl.
    by rewrite (statRecord_zero _ _ Hz).
  - intros stored Hperm. split; [apply Hsorted|].
    unfold exerciseStats. destruct (String.eqb selectedExercise EmptyString); [done|].
    rewrite !sortByDate_perm, !statLoop_flat_map. simpl.
    by apply Permutation_flat_map.
Qed.

Lemma exerciseStats_series_witness :
  exerciseStats [benchRecord 9 [lset 100 8 true]; benchRecord 7 [lset 90 8 false];
                 benchRecord 5 [lset 80 8 true]] "Bench Press"
  = exerciseStats [benchRecord 9 [lset 100 8 true]; benchRecord 5 [lset 80 8 true]]
      "Bench Press".
Proof.
  apply (proj1 (proj2 (proj2 (exerciseStats_series
           [benchRecord 9 [lset 100 8 true]; benchRecord 7 [lset 90 8 false];
            benchRecord 5 [lset 80 8 true]] "Bench Press")))
         [benchRecord 9 [lset 100 8 true]] (benchRecord 7 [lset 90 8 false])
         [benchRecord 5 [lset 80 8 true]]).
  - reflexivity.
  - left. reflexivity.
Defined.

(** A store kept newest-first yields its series oldest-first. *)
Example exerciseStats_oldest_first :
  map sp_date
    (exerciseStats [benchRecord 9 [lset 100 8 true]; benchRecord 7 [lset 90 8 false];
                    benchRecord 5 [lset 80 8 true]] "Bench Press")
  = [5%Z; 9%Z].
Proof. reflexivity. Qed.

(** ** Weekly activity *)

Lemma weekIndex_nonneg now date : (date <= now)%Z -> (0 <= weekIndex now date)%Z.
Proof.
  intros H. unfold weekIndex, daysAgo.
  apply Z.div_pos; [|lia]. apply Z.div_pos; [lia|reflexivity].
Qed.

Lemma rollInto_nil now i b : rollInto now [] i b = b.
Proof. destruct b. unfold rollInto. simpl. f_equal. lia. Qed.

Lemma rollInto_cons_in now h rest i b :
  inWeek now i h = true ->
  rollInto now (h :: rest) i b
    = rollInto now rest i
        {| b_label := b_label b; b_workouts := S (b_workouts b);
           b_volume := b_volume b + wh_totalVolume h |}.
Proof.
  intros Hin. unfold rollInto. simpl. rewrite Hin. simpl. f_equal. lia.
Qed.

Lemma rollInto_cons_out now h rest i b :
  inWeek now i h = false -> rollInto now (h :: rest) i b = rollInto now rest i b.
Proof. intros Hout. unfold rollInto. simpl. by rewrite Hout. Qed.

(** One record: the bucket of its week is updated, or, for a week index
    beyond the last bucket, nothing changes. *)
Lemma weekRecord_roll now data h rest :
  length data = weeks ->
  (0 <= weekIndex now (wh_date h))%Z ->
  exists data',
    weekRecord now data h = Some data' /\ length data' = weeks /\
    imap (rollInto now rest) data' = imap (rollInto now (h :: rest)) data.
Proof.
  intros Hlen Hpos. unfold weekRecord, bucketAt.
  set (w := weekIndex now (wh_date h)) in *.
  destruct (Z.ltb_spec w (Z.of_nat weeks)) as [Hlt|Hge].
  - destruct (Z.ltb_spec w 0) as [?|_]; [lia|].
    destruct (lookup_lt_is_Some_2 data (Z.to_nat w)) as [b Hb]; [lia|].
    rewrite Hb. eexists. split; [done|]. split; [by rewrite length_insert|].
    apply list_eq. intros i. rewrite !list_lookup_imap.
    destruct (decide (i = Z.to_nat w)) as [->|Hne].
    + rewrite list_lookup_insert_eq by lia. rewrite Hb. simpl. f_equal.
      symmetry. apply rollInto_cons_in. unfold inWeek. fold w.
      apply Z.eqb_eq. lia.
    + rewrite list_lookup_insert_ne by done.
      destruct (data !! i) as [b'|]; [|done]. simpl. f_equal.
      symmetry. apply rollInto_cons_out. unfold inWeek. fold w.
      apply Z.eqb_neq. lia.
  - exists data. split; [done|]. split; [done|].
    apply list_eq. intros i. rewrite !list_lookup_imap.
    destruct (data !! i) as [b'|] eqn:Hb; [|done]. simpl. f_equal.
    symmetry. apply rollInto_cons_out. unfold inWeek. fold w.
    apply lookup_lt_Some in Hb. apply Z.eqb_neq. lia.
Qed.

Lemma weekLoop_roll now history data :
  length data = weeks ->
  Forall (fun h => (0 <= weekIndex now (wh_date h))%Z) history ->
  weekLoop now history data = Some (imap (rollInto now history) data).
Proof.
  intros Hlen Hall. revert data Hlen.
  induction Hall as [|h rest Hh _ IH]; intros data Hlen; simpl.
  - f_equal. apply list_eq. intros i. rewrite list_lookup_imap.
    destruct (data !! i); [|done]. simpl. by rewrite rollInto_nil.
  - destruct (weekRecord_roll now data h rest Hlen Hh) as (data' & -> & Hlen' & Heq).
    by rewrite IH, Heq.
Qed.

(** A record dated after [now] has week index at most -1. *)
Lemma weekIndex_future now date : (now < date)%Z -> (weekIndex now date < 0)%Z.
Proof.
  intros H. unfold weekIndex, daysAgo.
  assert ((now - date) / msPerDay < 0)%Z.
  { apply Z.div_lt_upper_bound; [reflexivity|lia]. }
  apply Z.div_lt_upper_bound; lia.
Qed.

(** A record dated after [now] makes the rollup raise. *)
Lemma weekLoop_future now history data :
  length data = weeks ->
  Exists (fun h => (now < wh_date h)%Z) history ->
  weekLoop now history data = None.
Proof.
  intros Hlen Hex. revert data Hlen.
  induction history as [|h rest IH]; intros data Hlen; [by inversion Hex|].
  simpl. destruct (Z.lt_ge_cases now (wh_date h)) as [Hfut|Hpast].
  - apply weekIndex_future in Hfut. unfold weekRecord, bucketAt.
    destruct (Z.ltb_spec (weekIndex now (wh_date h)) (Z.of_nat weeks)); [|lia].
    by destruct (Z.ltb_spec (weekIndex now (wh_date h)) 0); [|lia].
  - destruct (weekRecord_roll now data h rest Hlen) as (data' & -> & Hlen' & _);
      [by apply weekIndex_nonneg|].
    apply IH; [|done]. inversion Hex; subst; [lia|done].
Qed.

(** For a history whose records are dated no later than
    [now], [weeklyActivity] returns the four buckets oldest first (bucket 3
    down to bucket 0), bucket [i] counting once each record of week index
    [floor(floor((now - date) / 1 day) / 7) = i] and adding up its total
    volume; a record of week index 4 or more is in no bucket; and a record
    dated exactly 7 x 24 h before [now] has week index 1. *)
Theorem weeklyActivity_buckets (history : list WorkoutHistory) (now : Z) :
  Forall (fun h => (wh_date h <= now)%Z) history ->
  weeklyActivity history now
    = Some (rev (map (bucketOf now history) (seq 0 weeks))) /\
  rev (map (bucketOf now history) (seq 0 weeks))
    = [bucketOf now history 3; bucketOf now history 2;
       bucketOf now history 1; bucketOf now history 0] /\
  (forall h, weekIndex now (wh_date h) = ((now - wh_date h) / msPerDay / 7)%Z) /\
  (forall h i, (Z.of_nat weeks <= weekIndex now (wh_date h))%Z ->
               (i < weeks)%nat -> inWeek now i h = false) /\
  weekIndex now (now - 7 * (24 * 60 * 60 * 1000)) = 1%Z.
Proof.
  intros Hdates. split; [|split; [done|split; [done|split]]].
  - unfold weeklyActivity. rewrite weekLoop_roll.
    + reflexivity.
    + done.
    + eapply List.Forall_impl; [|exact Hdates].
      intros h Hh. by apply weekIndex_nonneg.
  - intros h i Hge Hi. unfold inWeek. apply Z.eqb_neq. lia.
  - unfold weekIndex, daysAgo.
    replace (now - (now - 7 * (24 * 60 * 60 * 1000)))%Z
      with (7 * (24 * 60 * 60 * 1000))%Z by lia.
    reflexivity.
Qed.

Lemma weeklyActivity_buckets_witness :
  Forall (fun h => (wh_date h <= 3000000000)%Z)
    [datedRecord 3000000000 600; datedRecord (3000000000 - 7 * 86400000) 500;
     datedRecord (3000000000 - 28 * 86400000) 400] /\
  weeklyActivity
    [datedRecord 3000000000 600; datedRecord (3000000000 - 7 * 86400000) 500;
     datedRecord (3000000000 - 28 * 86400000) 400] 3000000000
  = Some (rev (map (bucketOf 3000000000
                      [datedRecord 3000000000 600;
                       datedRecord (3000000000 - 7 * 86400000) 500;
                       datedRecord (3000000000 - 28 * 86400000) 400])
                 (seq 0 weeks))).
Proof.
  assert (H : Forall (fun h => (wh_date h <= 3000000000)%Z)
    [datedRecord 3000000000 600; datedRecord (3000000000 - 7 * 86400000) 500;
     datedRecord (3000000000 - 28 * 86400000) 400]).
  { repeat (constructor; [simpl; lia|]). constructor. }
  split; [exact H|].
  apply (weeklyActivity_buckets _ 3000000000 H).
Defined.

(** C6.  The rollup is to give every record of week index below [weeks]
    its bucket and to return the four buckets.  It does not at a record
    dated after [now], here by one millisecond: the week index is -1, the
    only test [weekIndex < weeks] lets it pass, [data[-1]] is no bucket and
    the update raises, so that no buckets are returned; the dashboard's
    filter, given the same history and [now], counts the record in this
    week. *)
Theorem weeklyActivity_future_record :
  weekIndex 3000000000 (wh_date (datedRecord 3000000001 600)) = (-1)%Z /\
  (weekIndex 3000000000 (wh_date (datedRecord 3000000001 600))
     <? Z.of_nat weeks)%Z = true /\
  bucketAt initialData
    (weekIndex 3000000000 (wh_date (datedRecord 3000000001 600))) = None /\
  weeklyActivity [datedRecord 3000000001 600] 3000000000 = None /\
  thisWeekCount 3000000000 [datedRecord 3000000001 600] = 1%nat.
Proof. repeat split. Qed.

(** The buckets of a small history, oldest first. *)
Example weeklyActivity_example :
  weeklyActivity
    [datedRecord 3000000000 600; datedRecord (3000000000 - 7 * 86400000) 500;
     datedRecord (3000000000 - 28 * 86400000) 400] 3000000000
  = Some [{| b_label := "3w ago"; b_workouts := 0; b_volume := 0 |};
          {| b_label := "2w ago"; b_workouts := 0; b_volume := 0 |};
          {| b_label := "1w ago"; b_workouts := 1; b_volume := 0 + 500 |};
          {| b_label := "This Week"; b_workouts := 1; b_volume := 0 + 600 |}].
Proof. reflexivity. Qed.

(** * Further properties *)

(** ** Mutators: composition and invariants *)

Section JsObjectMore.
Context {A : Type}.
Implicit Types (o : JsObject A) (k : string) (v : A).

Lemma obj_set_get_id o k v : obj_get o k = Some v -> obj_set o k v = o.
Proof.
  induction o as [|[k' v'] o IH]; simpl; [done|].
  destruct (String.eqb_spec k' k) as [->|Hk].
  - by intros [= ->].
  - intros H. by rewrite IH.
Qed.

Lemma obj_set_set o k v v' : obj_set (obj_set o k v) k v' = obj_set o k v'.
Proof.
  induction o as [|[k0 v0] o IH]; simpl.
  - by rewrite String.eqb_refl.
  - destruct (String.eqb_spec k0 k) as [->|Hk]; simpl.
    + by rewrite String.eqb_refl.
    + destruct (String.eqb_spec k0 k); [done|]. by rewrite IH.
Qed.

Lemma obj_keys_set o k v :
  obj_keys (obj_set o k v)
    = obj_keys o ++ match obj_get o k with Some _ => [] | None => [k] end.
Proof.
  induction o as [|[k0 v0] o IH]; simpl; [done|].
  destruct (String.eqb_spec k0 k) as [->|Hk]; simpl.
  - by rewrite app_nil_r.
  - by rewrite IH.
Qed.

(** The entry read by [obj_get] is the one replaced by [obj_set]. *)
Lemma obj_get_split o k v :
  obj_get o k = Some v ->
  exists before after,
    o = before ++ (k, v) :: after /\
    forall v', obj_set o k v' = before ++ (k, v') :: after.
Proof.
  induction o as [|[k0 v0] o IH]; simpl; [done|].
  destruct (String.eqb_spec k0 k) as [->|Hk].
  - intros [= ->]. by exists [], o.
  - intros H. destruct (IH H) as (before & after & -> & Hset).
    exists ((k0, v0) :: before), after. split; [done|].
    intros v'. simpl. by rewrite Hset.
Qed.

End JsObjectMore.

Lemma withExercises_same prev : withExercises prev (js_exercises prev) = prev.
Proof. by destruct prev. Qed.

Lemma withExercises_twice prev exs exs' :
  withExercises (withExercises prev exs) exs' = withExercises prev exs'.
Proof. done. Qed.

Lemma array_assign_lookup sets i v : array_assign sets i v !! i = Some v.
Proof.
  unfold array_assign. destruct (Nat.ltb_spec i (length sets)).
  - by apply list_lookup_insert_eq.
  - rewrite lookup_app_r by done.
    rewrite lookup_app_r by (rewrite length_replicate; lia).
    rewrite length_replicate. by replace (i - length sets - (i - length sets))%nat
      with 0%nat by lia.
Qed.

Lemma array_assign_twice sets i v v' :
  array_assign (array_assign sets i v) i v' = array_assign sets i v'.
Proof.
  unfold array_assign at 1 2.
  destruct (Nat.ltb_spec i (length sets)) as [Hlt|Hge].
  - rewrite length_insert. destruct (Nat.ltb_spec i (length sets)); [|lia].
    unfold array_assign. destruct (Nat.ltb_spec i (length sets)); [|lia].
    apply list_insert_insert_eq.
  - rewrite !length_app, length_replicate. simpl.
    destruct (Nat.ltb_spec i (length sets + (i - length sets + 1))); [|lia].
    unfold array_assign. destruct (Nat.ltb_spec i (length sets)); [lia|].
    rewrite insert_app_r_alt by done.
    rewrite insert_app_r_alt by (rewrite length_replicate; lia).
    rewrite length_replicate.
    by replace (i - length sets - (i - length sets))%nat with 0%nat by lia.
Qed.

(** X1.  [addSet] stores, under the exercise id, the current sets followed by
    one new set object: it has the new identifier, is not completed and copies
    the weight and the reps of the last set, or has weight 0 and reps 0 when
    there is no last set object.  The exercise key is created if it was
    absent; the other exercises are kept. *)
Theorem addSet_appends (newId exerciseId : string) (prev : JsSession) :
  let currentSets := or_empty (obj_get (js_exercises prev) exerciseId) in
  let next := addSet newId exerciseId prev in
  exists o,
    obj_get (js_exercises next) exerciseId = Some (currentSets ++ [Elem o]) /\
    so_id o = Some newId /\ so_completed o = Some false /\
    match last currentSets with
    | Some (Elem lastSet) =>
        so_weight o = so_weight lastSet /\ so_reps o = so_reps lastSet
    | _ => so_weight o = Some 0 /\ so_reps o = Some 0
    end /\
    (forall k, k <> exerciseId ->
       obj_get (js_exercises next) k = obj_get (js_exercises prev) k) /\
    obj_keys (js_exercises next)
      = obj_keys (js_exercises prev)
        ++ match obj_get (js_exercises prev) exerciseId with
           | Some _ => []
           | None => [exerciseId]
           end.
Proof.
  intros currentSets next. subst next. unfold addSet. fold currentSets.
  eexists. rewrite withExercises_exercises. split; [apply obj_get_set_eq|].
  simpl. split; [done|]. split; [done|]. split.
  - by destruct (last currentSets) as [[|lastSet]|].
  - split; [intros k Hk; by apply obj_get_set_ne | apply obj_keys_set].
Qed.

Lemma addSet_appends_witness :
  exists o,
    obj_get (js_exercises (addSet "n" "ex-9" (sessionValue oneSetSession))) "ex-9"
      = Some [Elem o] /\
    so_weight o = Some 0 /\ so_reps o = Some 0.
Proof.
  destruct (addSet_appends "n" "ex-9" (sessionValue oneSetSession))
    as (o & Hget & _ & _ & Hlast & _).
  exists o. split; [exact Hget|exact Hlast].
Defined.

(** X2.  [removeSet] undoes [addSet] on an exercise that exists and holds at
    least one set.  On an exercise without sets (or one that does not exist)
    the set that [addSet] created stays: it is the only one. *)
Theorem removeSet_addSet (newId exerciseId : string) (prev : JsSession) :
  let currentSets := or_empty (obj_get (js_exercises prev) exerciseId) in
  (obj_get (js_exercises prev) exerciseId = Some currentSets ->
   currentSets <> [] ->
   removeSet exerciseId (addSet newId exerciseId prev) = prev) /\
  (currentSets = [] ->
   removeSet exerciseId (addSet newId exerciseId prev)
     = addSet newId exerciseId prev).
Proof.
  intros currentSets. split.
  - intros Hget Hne. unfold removeSet, addSet. fold currentSets.
    rewrite withExercises_exercises, obj_get_set_eq. simpl.
    rewrite length_app. simpl.
    destruct (Nat.leb_spec (length currentSets + 1) 1) as [Hle|_].
    + destruct currentSets; [done|simpl in Hle; lia].
    + rewrite withExercises_twice, obj_set_set, removelast_last.
      rewrite (obj_set_get_id _ _ _ Hget). apply withExercises_same.
  - intros Hnil. unfold removeSet at 1. unfold addSet at 1. fold currentSets.
    rewrite withExercises_exercises, obj_get_set_eq, Hnil. done.
Qed.

Lemma removeSet_addSet_witness :
  removeSet "ex-1" (addSet "n" "ex-1" (sessionValue oneSetSession))
    = sessionValue oneSetSession.
Proof.
  apply (proj1 (removeSet_addSet "n" "ex-1" (sessionValue oneSetSession)));
    [reflexivity|discriminate].
Defined.

(** X3.  No mutator removes an exercise key: [removeSet] and a successful
    [toggleComplete] keep the keys as they are, [updateSet] and [addSet] keep
    them and append the addressed id when it was absent. *)
Theorem mutators_keep_keys (exerciseId : string) (prev : JsSession) :
  let grown :=
    obj_keys (js_exercises prev)
      ++ match obj_get (js_exercises prev) exerciseId with
         | Some _ => []
         | None => [exerciseId]
         end in
  obj_keys (js_exercises (removeSet exerciseId prev))
    = obj_keys (js_exercises prev) /\
  (forall setIndex next,
     toggleComplete exerciseId setIndex prev = Some next ->
     obj_keys (js_exercises next) = obj_keys (js_exercises prev)) /\
  (forall setIndex fv,
     obj_keys (js_exercises (updateSet exerciseId setIndex fv prev)) = grown) /\
  (forall newId,
     obj_keys (js_exercises (addSet newId exerciseId prev)) = grown).
Proof.
  intros grown. split; [|split; [|split]].
  - unfold removeSet.
    destruct (obj_get (js_exercises prev) exerciseId) as [sets|] eqn:Hget; simpl.
    + destruct (length sets <=? 1)%nat; [done|]. simpl.
      by rewrite obj_keys_set, Hget, app_nil_r.
    + done.
  - intros setIndex next. unfold toggleComplete.
    destruct (obj_get (js_exercises prev) exerciseId) as [sets|] eqn:Hget; simpl.
    + destruct (sets !! setIndex) as [[|o]|]; try done.
      intros [= <-]. simpl. by rewrite obj_keys_set, Hget, app_nil_r.
    + by destruct setIndex.
  - intros setIndex fv. unfold updateSet. simpl. apply obj_keys_set.
  - intros newId. unfold addSet. simpl. apply obj_keys_set.
Qed.

Lemma mutators_keep_keys_witness :
  obj_keys (js_exercises
     (removeSet "ex-1" (sessionValue twoExerciseSession))) = ["ex-1"; "ex-2"] /\
  forall next,
    toggleComplete "ex-1" 0 (sessionValue twoExerciseSession) = Some next ->
    obj_keys (js_exercises next) = ["ex-1"; "ex-2"].
Proof.
  split.
  - apply (proj1 (mutators_keep_keys "ex-1" (sessionValue twoExerciseSession))).
  - intros next H.
    apply (proj1 (proj2 (mutators_keep_keys "ex-1"
             (sessionValue twoExerciseSession))) 0%nat next H).
Defined.

Lemma assignField_same fv fv' o :
  sameField fv fv' -> assignField (assignField o fv') fv = assignField o fv.
Proof. by destruct fv, fv'. Qed.

Lemma assignField_comm fv fv' o :
  ~ sameField fv fv' ->
  assignField (assignField o fv') fv = assignField (assignField o fv) fv'.
Proof. destruct fv, fv'; simpl; try done; tauto. Qed.

(** Two writes at one index of one exercise amount to one write of the
    object built by the second from the object the first stored. *)
Lemma updateSet_updateSet exerciseId setIndex fv fv' prev :
  updateSet exerciseId setIndex fv (updateSet exerciseId setIndex fv' prev)
  = withExercises prev
      (obj_set (js_exercises prev) exerciseId
         (array_assign (or_empty (obj_get (js_exercises prev) exerciseId)) setIndex
            (Elem (assignField
                     (assignField
                        (spread (or_empty (obj_get (js_exercises prev) exerciseId)
                                   !! setIndex)) fv') fv)))).
Proof.
  unfold updateSet. cbv zeta.
  rewrite !withExercises_exercises, !obj_get_set_eq. simpl or_empty.
  rewrite array_assign_lookup. simpl spread.
  by rewrite array_assign_twice, withExercises_twice, obj_set_set.
Qed.

(** X4.  Addressed at an existing set, [updateSet] replaces the one field of
    that set and nothing else: the list keeps its length, the other sets and
    the other three fields of the set are unchanged, as are the other
    exercises and the list of keys. *)
Theorem updateSet_in_range_only (exerciseId : string) (setIndex : nat)
    (fv : FieldValue) (prev : JsSession) (sets : list Slot) (o : SetObject) :
  obj_get (js_exercises prev) exerciseId = Some sets ->
  sets !! setIndex = Some (Elem o) ->
  exists sets' o',
    obj_get (js_exercises (updateSet exerciseId setIndex fv prev)) exerciseId
      = Some sets' /\
    length sets' = length sets /\
    sets' !! setIndex = Some (Elem o') /\
    (forall j, j <> setIndex -> sets' !! j = sets !! j) /\
    match fv with
    | IdValue v =>
        so_id o' = Some v /\ so_reps o' = so_reps o /\
        so_weight o' = so_weight o /\ so_completed o' = so_completed o
    | RepsValue v =>
        so_id o' = so_id o /\ so_reps o' = Some v /\
        so_weight o' = so_weight o /\ so_completed o' = so_completed o
    | WeightValue v =>
        so_id o' = so_id o /\ so_reps o' = so_reps o /\
        so_weight o' = Some v /\ so_completed o' = so_completed o
    | CompletedValue v =>
        so_id o' = so_id o /\ so_reps o' = so_reps o /\
        so_weight o' = so_weight o /\ so_completed o' = Some v
    end /\
    (forall k, k <> exerciseId ->
       obj_get (js_exercises (updateSet exerciseId setIndex fv prev)) k
         = obj_get (js_exercises prev) k) /\
    obj_keys (js_exercises (updateSet exerciseId setIndex fv prev))
      = obj_keys (js_exercises prev).
Proof.
  intros Hget Hi.
  exists (<[setIndex := Elem (assignField o fv)]> sets), (assignField o fv).
  split; [by apply updateSet_in_range|].
  split; [apply length_insert|].
  split; [apply list_lookup_insert_eq; by apply lookup_lt_Some in Hi|].
  split; [intros j Hj; by apply list_lookup_insert_ne|].
  split; [by destruct fv|].
  split.
  - intros k Hk. unfold updateSet. rewrite withExercises_exercises.
    by apply obj_get_set_ne.
  - unfold updateSet. rewrite withExercises_exercises, obj_keys_set, Hget.
    apply app_nil_r.
Qed.

Lemma updateSet_in_range_only_witness :
  exists sets' o',
    obj_get (js_exercises
               (updateSet "ex-1" 1 (WeightValue 65) (sessionValue twoExerciseSession)))
            "ex-1" = Some sets' /\
    length sets' = 2%nat /\
    sets' !! 1%nat = Some (Elem o') /\
    so_weight o' = Some 65 /\ so_reps o' = Some 8.
Proof.
  destruct (updateSet_in_range_only "ex-1" 1 (WeightValue 65)
              (sessionValue twoExerciseSession)
              (slotsOf [demoSet "a" 60 10 false; demoSet "b" 60 8 false])
              (objectOf (demoSet "b" 60 8 false)))
    as (sets' & o' & Hget & Hlen & Hi & _ & Hfields & _).
  - reflexivity.
  - reflexivity.
  - exists sets', o'. destruct Hfields as (_ & Hr & Hw & _).
    repeat split; [exact Hget|exact Hlen|exact Hi|exact Hw|exact Hr].
Defined.

(** X5.  Two [updateSet] calls on the same field of the same set: the last
    value wins, as if the first call had not happened. *)
Theorem updateSet_last_write_wins (exerciseId : string) (setIndex : nat)
    (fv fv' : FieldValue) (prev : JsSession) :
  sameField fv fv' ->
  updateSet exerciseId setIndex fv (updateSet exerciseId setIndex fv' prev)
    = updateSet exerciseId setIndex fv prev.
Proof.
  intros Hsame. rewrite updateSet_updateSet, assignField_same by done. done.
Qed.

Lemma updateSet_last_write_wins_witness :
  updateSet "ex-1" 0 (RepsValue 12)
    (updateSet "ex-1" 0 (RepsValue 11) (sessionValue oneSetSession))
  = updateSet "ex-1" 0 (RepsValue 12) (sessionValue oneSetSession).
Proof.
  apply (updateSet_last_write_wins "ex-1" 0 (RepsValue 12) (RepsValue 11)
           (sessionValue oneSetSession)).
  exact I.
Defined.

(** X6.  [updateSet] calls on different fields of the same set commute. *)
Theorem updateSet_fields_commute (exerciseId : string) (setIndex : nat)
    (fv fv' : FieldValue) (prev : JsSession) :
  ~ sameField fv fv' ->
  updateSet exerciseId setIndex fv (updateSet exerciseId setIndex fv' prev)
    = updateSet exerciseId setIndex fv' (updateSet exerciseId setIndex fv prev).
Proof.
  intros Hdiff. rewrite !updateSet_updateSet. by rewrite assignField_comm.
Qed.

Lemma updateSet_fields_commute_witness :
  updateSet "ex-1" 0 (RepsValue 12)
    (updateSet "ex-1" 0 (WeightValue 70) (sessionValue oneSetSession))
  = updateSet "ex-1" 0 (WeightValue 70)
      (updateSet "ex-1" 0 (RepsValue 12) (sessionValue oneSetSession)).
Proof.
  apply (updateSet_fields_commute "ex-1" 0 (RepsValue 12) (WeightValue 70)
           (sessionValue oneSetSession)).
  intros H. exact H.
Defined.

(** In range, [toggleComplete] stores the object with its flag negated. *)
Lemma toggleComplete_in_range exerciseId setIndex prev sets o :
  obj_get (js_exercises prev) exerciseId = Some sets ->
  sets !! setIndex = Some (Elem o) ->
  toggleComplete exerciseId setIndex prev
  = Some (withExercises prev
            (obj_set (js_exercises prev) exerciseId
               (<[setIndex :=
                    Elem (assignField o
                            (CompletedValue (negb (truthy (so_completed o)))))]>
                  sets))).
Proof.
  intros Hget Hi. unfold toggleComplete. rewrite Hget. simpl. rewrite Hi. simpl.
  unfold array_assign. apply lookup_lt_Some in Hi.
  by destruct (Nat.ltb_spec setIndex (length sets)); [|lia].
Qed.

(** X7.  Toggling a set whose [completed] property is present negates that
    property, and toggling it again gives back the session as it was. *)
Theorem toggleComplete_twice (exerciseId : string) (setIndex : nat)
    (prev : JsSession) (o : SetObject) (b : bool) :
  or_empty (obj_get (js_exercises prev) exerciseId) !! setIndex = Some (Elem o) ->
  so_completed o = Some b ->
  exists next,
    toggleComplete exerciseId setIndex prev = Some next /\
    or_empty (obj_get (js_exercises next) exerciseId) !! setIndex
      = Some (Elem (assignField o (CompletedValue (negb b)))) /\
    toggleComplete exerciseId setIndex next = Some prev.
Proof.
  intros Hi Hb.
  destruct (obj_get (js_exercises prev) exerciseId) as [sets|] eqn:Hget;
    [|by destruct setIndex].
  simpl in Hi. pose proof (lookup_lt_Some _ _ _ Hi) as Hlt.
  assert (Hneg : negb (truthy (so_completed o)) = negb b).
  { rewrite Hb. by destruct b. }
  eexists. split; [by apply (toggleComplete_in_range _ _ _ sets o)|].
  rewrite Hneg, withExercises_exercises, obj_get_set_eq. simpl or_empty.
  split; [by apply list_lookup_insert_eq|].
  erewrite toggleComplete_in_range;
    [|rewrite withExercises_exercises; apply obj_get_set_eq
     |by apply list_lookup_insert_eq].
  rewrite withExercises_exercises, withExercises_twice, obj_set_set.
  rewrite list_insert_insert_eq.
  assert (Ho : assignField (assignField o (CompletedValue (negb b)))
                 (CompletedValue
                    (negb (truthy (so_completed
                                     (assignField o (CompletedValue (negb b)))))))
               = o).
  { destruct o as [i r w c]. simpl in Hb. subst c. by destruct b. }
  rewrite Ho, list_insert_id by done.
  by rewrite (obj_set_get_id _ _ _ Hget), withExercises_same.
Qed.

Lemma toggleComplete_twice_witness :
  exists next,
    toggleComplete "ex-1" 0 (sessionValue oneSetSession) = Some next /\
    toggleComplete "ex-1" 0 next = Some (sessionValue oneSetSession).
Proof.
  destruct (toggleComplete_twice "ex-1" 0 (sessionValue oneSetSession)
              (objectOf (demoSet "a" 60 10 false)) false)
    as (next & H1 & _ & H2); [reflexivity|reflexivity|].
  exists next. split; [exact H1|exact H2].
Defined.

Lemma full_slots_typed (sets : list Slot) :
  Forall (fun sl => exists t, sl = Elem (objectOf t)) sets ->
  exists ts, sets = slotsOf ts.
Proof.
  induction 1 as [|sl sets [t ->] _ [ts ->]].
  - by exists [].
  - by exists (t :: ts).
Qed.

Lemma wellTyped_fullSlots s : wellTyped s <-> fullSlots s.
Proof.
  split.
  - intros [t ->]. unfold fullSlots. simpl.
    apply List.Forall_forall. intros kv Hin.
    apply in_map_iff in Hin as ([k ts] & <- & _). simpl.
    apply List.Forall_forall. intros sl Hsl.
    apply in_map_iff in Hsl as (x & <- & _). by exists x.
  - unfold fullSlots. destruct s as [i p d t exs]. simpl. intros H.
    assert (Hex : exists texs,
               exs = map (fun kv => (fst kv, slotsOf (snd kv))) texs).
    { induction H as [|[k sets] exs Hsets _ [texs ->]].
      - by exists [].
      - simpl in Hsets. apply full_slots_typed in Hsets as [ts ->].
        by exists ((k, ts) :: texs). }
    destruct Hex as [texs ->].
    by exists {| as_id := i; as_planId := p; as_dayId := d; as_startTime := t;
                 as_exercises := texs |}.
Qed.

Lemma fullSlots_get s k sets :
  fullSlots s -> obj_get (js_exercises s) k = Some sets ->
  Forall (fun sl => exists t, sl = Elem (objectOf t)) sets.
Proof.
  intros H Hget. apply obj_get_Some_In in Hget.
  unfold fullSlots in H. rewrite List.Forall_forall in H. by apply (H (k, sets)).
Qed.

Lemma fullSlots_current s k :
  fullSlots s ->
  Forall (fun sl => exists t, sl = Elem (objectOf t))
         (or_empty (obj_get (js_exercises s) k)).
Proof.
  intros H. destruct (obj_get (js_exercises s) k) as [sets|] eqn:Hget; simpl.
  - by apply (fullSlots_get s k).
  - constructor.
Qed.

Lemma fullSlots_set s k sets :
  fullSlots s ->
  Forall (fun sl => exists t, sl = Elem (objectOf t)) sets ->
  fullSlots (withExercises s (obj_set (js_exercises s) k sets)).
Proof.
  intros H Hsets. unfold fullSlots. simpl.
  apply List.Forall_forall. intros [k' v'] Hin.
  apply obj_set_In in Hin as [[-> ->]|Hin]; [done|].
  unfold fullSlots in H. rewrite List.Forall_forall in H. by apply (H (k', v')).
Qed.

Lemma assignField_objectOf t fv :
  assignField (objectOf t) fv = objectOf (withField t fv).
Proof. by destruct fv. Qed.

Lemma objectOf_not_partial t fv : objectOf t <> assignField emptyObject fv.
Proof. by destruct fv. Qed.

(** X8.  On a well-typed session [addSet], [removeSet], a successful
    [toggleComplete] and an [updateSet] at an index inside the list yield a
    well-typed session again; an [updateSet] at an index past the end of the
    list does not. *)
Theorem mutators_keep_well_typed (exerciseId : string) (prev : JsSession) :
  wellTyped prev ->
  let currentSets := or_empty (obj_get (js_exercises prev) exerciseId) in
  (forall newId, wellTyped (addSet newId exerciseId prev)) /\
  wellTyped (removeSet exerciseId prev) /\
  (forall setIndex fv,
     (setIndex < length currentSets)%nat ->
     wellTyped (updateSet exerciseId setIndex fv prev)) /\
  (forall setIndex next,
     toggleComplete exerciseId setIndex prev = Some next -> wellTyped next) /\
  (forall setIndex fv,
     (length currentSets <= setIndex)%nat ->
     ~ wellTyped (updateSet exerciseId setIndex fv prev)).
Proof.
  intros Hwt currentSets. apply wellTyped_fullSlots in Hwt.
  pose proof (fullSlots_current prev exerciseId Hwt) as Hcur. fold currentSets in Hcur.
  split; [|split; [|split; [|split]]].
  - intros newId. apply wellTyped_fullSlots. unfold addSet. fold currentSets.
    apply fullSlots_set; [done|]. apply Forall_app. split; [done|].
    constructor; [|constructor].
    destruct (last currentSets) as [[|lastSet]|] eqn:Hlast.
    + apply last_Some in Hlast as [l' Heq]. rewrite Heq in Hcur.
      apply Forall_app in Hcur as [_ Hcur]. inversion Hcur as [|? ? [t Ht] _]; done.
    + apply last_Some in Hlast as [l' Heq]. rewrite Heq in Hcur.
      apply Forall_app in Hcur as [_ Hcur]. inversion Hcur as [|? ? [t Ht] _]; subst.
      inversion Ht; subst. simpl.
      by exists {| sl_id := newId; sl_reps := sl_reps t; sl_weight := sl_weight t;
                   sl_completed := false |}.
    + by exists {| sl_id := newId; sl_reps := 0; sl_weight := 0;
                   sl_completed := false |}.
  - apply wellTyped_fullSlots. unfold removeSet. fold currentSets.
    destruct (length currentSets <=? 1)%nat; [done|].
    apply fullSlots_set; [done|].
    rewrite List.Forall_forall in Hcur. apply List.Forall_forall.
    intros sl Hsl. apply Hcur.
    destruct currentSets as [|x l] eqn:E; [done|].
    rewrite (app_removelast_last Empty (l:=x :: l)) by done.
    apply in_or_app. by left.
  - intros setIndex fv Hlt. apply wellTyped_fullSlots. unfold updateSet.
    fold currentSets. cbv zeta. apply fullSlots_set; [done|].
    unfold array_assign. destruct (Nat.ltb_spec setIndex (length currentSets)); [|lia].
    destruct (lookup_lt_is_Some_2 currentSets setIndex Hlt) as [sl Hsl].
    rewrite Hsl. apply Forall_insert; [done|].
    rewrite Forall_lookup in Hcur. destruct (Hcur _ _ Hsl) as [t ->]. simpl.
    exists (withField t fv). by rewrite assignField_objectOf.
  - intros setIndex next Htoggle. apply wellTyped_fullSlots.
    unfold toggleComplete in Htoggle. fold currentSets in Htoggle.
    destruct (currentSets !! setIndex) as [[|o]|] eqn:Hsl; try done.
    injection Htoggle as <-. apply fullSlots_set; [done|].
    pose proof (lookup_lt_Some _ _ _ Hsl) as Hlt.
    unfold array_assign. destruct (Nat.ltb_spec setIndex (length currentSets)); [|lia].
    apply Forall_insert; [done|].
    rewrite Forall_lookup in Hcur. destruct (Hcur _ _ Hsl) as [t Ht].
    injection Ht as ->. simpl.
    exists (withField t (CompletedValue (negb (sl_completed t)))).
    by destruct (sl_completed t).
  - intros setIndex fv Hge Hwt'. apply wellTyped_fullSlots in Hwt'.
    assert (Hget : obj_get (js_exercises (updateSet exerciseId setIndex fv prev))
                     exerciseId
                   = Some (currentSets ++ replicate (setIndex - length currentSets) Empty
                             ++ [Elem (assignField emptyObject fv)])).
    { unfold updateSet. fold currentSets. cbv zeta.
      rewrite withExercises_exercises, obj_get_set_eq, array_assign_out by done.
      by rewrite (lookup_ge_None_2 currentSets setIndex) by done. }
    pose proof (fullSlots_get _ _ _ Hwt' Hget) as Hall.
    apply Forall_app in Hall as [_ Hall]. apply Forall_app in Hall as [_ Hall].
    inversion Hall as [|? ? [t Ht] _]; subst. injection Ht as Ht.
    by apply (objectOf_not_partial t fv).
Qed.

Lemma mutators_keep_well_typed_witness :
  wellTyped (sessionValue twoExerciseSession) /\
  wellTyped (updateSet "ex-1" 1 (WeightValue 65) (sessionValue twoExerciseSession)) /\
  ~ wellTyped (updateSet "ex-1" 2 (WeightValue 65) (sessionValue twoExerciseSession)).
Proof.
  assert (H : wellTyped (sessionValue twoExerciseSession)) by (by eexists).
  pose proof (mutators_keep_well_typed "ex-1" (sessionValue twoExerciseSession) H)
    as (_ & _ & Hin & _ & Hout).
  split; [exact H|]. split.
  - apply Hin. simpl. lia.
  - apply Hout. simpl. lia.
Defined.

(** ** From the mutators to the finalizer *)

Lemma objectOf_inj t t' : objectOf t = objectOf t' -> t = t'.
Proof. destruct t, t'. by intros [= -> -> -> ->]. Qed.

Lemma slotsOf_inj ts ts' : slotsOf ts = slotsOf ts' -> ts = ts'.
Proof.
  revert ts'. induction ts as [|t ts IH]; intros [|t' ts']; try done.
  unfold slotsOf. rewrite !map_cons. fold (slotsOf ts) (slotsOf ts'). intros H.
  assert (H1 : objectOf t = objectOf t') by congruence.
  assert (H2 : slotsOf ts = slotsOf ts') by congruence.
  f_equal; [by apply objectOf_inj | by apply IH].
Qed.

Lemma sessionValue_inj s s' : sessionValue s = sessionValue s' -> s = s'.
Proof.
  destruct s as [i p d t exs], s' as [i' p' d' t' exs'].
  unfold sessionValue. simpl. intros [= -> -> -> -> H]. f_equal.
  revert exs' H. induction exs as [|[k v] exs IH]; intros [|[k' v'] exs'];
    try done.
  rewrite !map_cons. simpl fst. simpl snd. intros H.
  assert (Hk : k = k') by congruence.
  assert (Hv : slotsOf v = slotsOf v') by congruence.
  assert (Hrest : map (fun kv => (fst kv, slotsOf (snd kv))) exs
                  = map (fun kv => (fst kv, slotsOf (snd kv))) exs') by congruence.
  subst k'. apply slotsOf_inj in Hv as ->. f_equal. by apply IH.
Qed.

Lemma sessionValue_obj_set (exs : JsObject (list SetLog)) k v :
  map (fun kv => (fst kv, slotsOf (snd kv))) (obj_set exs k v)
  = obj_set (map (fun kv => (fst kv, slotsOf (snd kv))) exs) k (slotsOf v).
Proof.
  induction exs as [|[k0 v0] exs IH]; simpl; [done|].
  destruct (String.eqb k0 k); simpl; [done|]. by rewrite IH.
Qed.

Lemma volumeOf_app l1 l2 : volumeOf (l1 ++ l2) == volumeOf l1 + volumeOf l2.
Proof.
  induction l1 as [|s l1 IH]; simpl; [ring|]. rewrite IH. ring.
Qed.

(** Marking one more set as completed adds its product to the sum. *)
Lemma volumeOf_complete sets i st :
  sets !! i = Some st -> sl_completed st = false ->
  volumeOf (List.filter sl_completed (<[i := withCompleted st true]> sets))
  == volumeOf (List.filter sl_completed sets) + sl_weight st * sl_reps st.
Proof.
  revert i. induction sets as [|s sets IH]; intros [|i] Hi Hc; simpl in *; try done.
  - injection Hi as ->. rewrite Hc. simpl. ring.
  - destruct (sl_completed s); simpl; rewrite (IH i Hi Hc); ring.
Qed.

(** X9.  If [toggleComplete] turns an uncompleted set of a well-typed session
    into a completed one, the record of the finished session has a total
    volume larger by the weight times the reps of that set. *)
Theorem completing_adds_volume (plan : TrainingPlan) (dayId : string)
    (day : WorkoutDay) (newId : string) (nowDate nowEnd : Z)
    (s s' : ActiveSession) (exerciseId : string) (setIndex : nat)
    (sets : list SetLog) (st : SetLog) :
  dayId <> EmptyString ->
  find (fun d => String.eqb (wd_id d) dayId) (tp_days plan) = Some day ->
  obj_get (as_exercises s) exerciseId = Some sets ->
  sets !! setIndex = Some st ->
  sl_completed st = false ->
  toggleComplete exerciseId setIndex (sessionValue s) = Some (sessionValue s') ->
  exists r r',
    handleFinishWorkout (Some plan) (Some dayId) newId nowDate nowEnd s = Some r /\
    handleFinishWorkout (Some plan) (Some dayId) newId nowDate nowEnd s' = Some r' /\
    wh_totalVolume r' == wh_totalVolume r + sl_weight st * sl_reps st.
Proof.
  intros Hid Hday Hget Hi Hc Htoggle.
  assert (Hs' : as_exercises s'
                = obj_set (as_exercises s) exerciseId
                    (<[setIndex := withCompleted st true]> sets)).
  { rewrite (toggleComplete_in_range _ _ _ (slotsOf sets) (objectOf st)) in Htoggle.
    - apply (inj Some) in Htoggle. rename Htoggle into Heq.
      assert (Hv : sessionValue
                     {| as_id := as_id s; as_planId := as_planId s;
                        as_dayId := as_dayId s; as_startTime := as_startTime s;
                        as_exercises :=
                          obj_set (as_exercises s) exerciseId
                            (<[setIndex := withCompleted st true]> sets) |}
                   = sessionValue s').
      { rewrite <- Heq. unfold sessionValue, withExercises. simpl. f_equal.
        rewrite sessionValue_obj_set. f_equal. unfold slotsOf.
        rewrite list_fmap_insert. f_equal. f_equal.
        unfold objectOf, withCompleted. simpl. by rewrite Hc. }
      apply sessionValue_inj in Hv. by rewrite <- Hv.
    - by rewrite sessionValue_get, Hget.
    - unfold slotsOf. by rewrite list_lookup_fmap, Hi. }
  eexists _, _. split; [by apply handleFinishWorkout_Some|].
  split; [by apply handleFinishWorkout_Some|]. simpl.
  rewrite !finishLoop_volume. unfold completedSetsOf. rewrite Hs'.
  destruct (obj_get_split _ _ _ Hget) as (before & after & -> & Hset).
  rewrite Hset, !map_app. simpl. rewrite !concat_app. simpl.
  rewrite !List.filter_app, !volumeOf_app, volumeOf_complete by done. ring.
Qed.

Lemma completing_adds_volume_witness :
  exists r r',
    handleFinishWorkout (Some benchPlan) (Some "d") "r" 9000 9000
      twoExerciseSession = Some r /\
    handleFinishWorkout (Some benchPlan) (Some "d") "r" 9000 9000
      {| as_id := "s"; as_planId := "p"; as_dayId := "d"; as_startTime := 0;
         as_exercises :=
           [("ex-1", [demoSet "a" 60 10 false; demoSet "b" 60 8 true]);
            ("ex-2", [demoSet "c" 20 12 true])] |} = Some r' /\
    wh_totalVolume r' == wh_totalVolume r + 60 * 8.
Proof.
  apply (completing_adds_volume benchPlan "d" benchDay "r" 9000 9000
           twoExerciseSession _ "ex-1" 1
           [demoSet "a" 60 10 false; demoSet "b" 60 8 false]
           (demoSet "b" 60 8 false));
    try reflexivity.
  discriminate.
Defined.

(** ** Session initializer: identifiers, displayed weights, empty finish *)

Lemma obj_set_fresh {A} (o : JsObject A) k v :
  ~ In k (obj_keys o) -> obj_set o k v = o ++ [(k, v)].
Proof.
  induction o as [|[k0 v0] o IH]; simpl; [done|].
  destruct (String.eqb_spec k0 k) as [->|Hk]; [tauto|].
  intros H. rewrite IH; [done|tauto].
Qed.

Lemma initLoop_entries uuid history exercises st :
  List.NoDup (map ex_id exercises) ->
  (forall k, In k (map ex_id exercises) -> ~ In k (obj_keys (initialExercises st))) ->
  initialExercises (fold_left (initExercise uuid history) exercises st)
    = initialExercises st ++ initEntries uuid history (nextId st) exercises.
Proof.
  revert st. induction exercises as [|ex exercises IH]; intros st Hnd Hst; simpl.
  - by rewrite app_nil_r.
  - simpl in Hnd. apply List.NoDup_cons_iff in Hnd as [Hfresh Hnd].
    rewrite IH; [|done|].
    + simpl. rewrite obj_set_fresh by (apply Hst; by left).
      by rewrite <- app_assoc.
    + intros k Hk. simpl. rewrite obj_set_fresh by (apply Hst; by left).
      unfold obj_keys. rewrite map_app. simpl. intros Hin.
      apply in_app_or in Hin as [Hin|[<-|[]]]; [|done].
      apply (Hst k); [by right|done].
Qed.

Lemma initEntries_ids uuid history k exercises :
  map sl_id (concat (map snd (initEntries uuid history k exercises)))
    = map uuid (seq k (list_sum (map ex_targetSets exercises))).
Proof.
  revert k. induction exercises as [|ex exercises IH]; intros k; simpl; [done|].
  rewrite map_app, newSets_ids, IH, seq_app, map_app. done.
Qed.

(** X10.  For a day whose exercises have distinct ids, the initialized session
    has one entry per exercise, in day order, and its sets carry the
    identifiers drawn after the session's own, in order.  With a supply that
    never repeats, the session id and all set ids are pairwise distinct. *)
Theorem initialize_identifiers (uuid : nat -> string) (plan : TrainingPlan)
    (day : WorkoutDay) (history : list WorkoutHistory) (now : Z) :
  List.NoDup (map ex_id (wd_exercises day)) ->
  let session := initialize uuid plan day history now in
  as_exercises session = initEntries uuid history 1 (wd_exercises day) /\
  as_id session = uuid 0%nat /\
  setIds session = map uuid (seq 1 (plannedSets day)) /\
  ((forall i j, uuid i = uuid j -> i = j) ->
   List.NoDup (as_id session :: setIds session)).
Proof.
  intros Hnd session.
  assert (Hex : as_exercises session = initEntries uuid history 1 (wd_exercises day)).
  { subst session. unfold initialize, initLoop. simpl.
    rewrite initLoop_entries; [done|done|]. simpl. tauto. }
  assert (Hids : setIds session = map uuid (seq 1 (plannedSets day))).
  { unfold setIds. rewrite Hex. apply initEntries_ids. }
  split; [done|]. split; [done|]. split; [done|].
  intros Hinj. rewrite Hids.
  change (as_id session :: map uuid (seq 1 (plannedSets day)))
    with (map uuid (seq 0 (S (plannedSets day)))).
  apply Finite.Injective_map_NoDup; [exact Hinj|apply List.seq_NoDup].
Qed.

Lemma initialize_identifiers_witness :
  setIds (initialize demoUuid benchPlan benchDay [] 1000) = ["1"; "2"; "3"].
Proof.
  apply (initialize_identifiers demoUuid benchPlan benchDay [] 1000).
  repeat constructor. simpl. tauto.
Defined.

Section InitInvariants.
Variable uuid : nat -> string.
Variable history : list WorkoutHistory.

(** The two dictionaries of the effect are written together. *)
Lemma initLoop_weights exercises st k :
  (forall k, match obj_get (initialExercises st) k, obj_get (initialLastWeights st) k with
             | Some sets, Some w => Forall (fun s => sl_weight s = w) sets
             | None, None => True
             | _, _ => False
             end) ->
  match obj_get (initialExercises (fold_left (initExercise uuid history) exercises st)) k,
        obj_get (initialLastWeights (fold_left (initExercise uuid history) exercises st)) k
  with
  | Some sets, Some w => Forall (fun s => sl_weight s = w) sets
  | None, None => True
  | _, _ => False
  end.
Proof.
  revert st. induction exercises as [|ex exercises IH]; intros st Hst; simpl.
  - apply Hst.
  - apply IH. intros k'. simpl.
    destruct (String.eqb_spec (ex_id ex) k') as [<-|Hne].
    + rewrite !obj_get_set_eq. eapply List.Forall_impl; [|apply newSets_fresh].
      simpl. tauto.
    + rewrite !obj_get_set_ne by done. apply Hst.
Qed.

(** No set of the initialized session is completed. *)
Lemma initLoop_uncompleted exercises st :
  Forall (fun kv => Forall (fun s => sl_completed s = false) (snd kv))
         (initialExercises st) ->
  Forall (fun kv => Forall (fun s => sl_completed s = false) (snd kv))
         (initialExercises (fold_left (initExercise uuid history) exercises st)).
Proof.
  revert st. induction exercises as [|ex exercises IH]; intros st Hst; simpl;
    [done|].
  apply IH. simpl. apply List.Forall_forall. intros [k v] Hin.
  apply obj_set_In in Hin as [[-> ->]|Hin].
  - simpl. eapply List.Forall_impl; [|apply newSets_fresh]. simpl. tauto.
  - rewrite List.Forall_forall in Hst. by apply (Hst (k, v)).
Qed.

Lemma initLoop_stays exercises st k :
  is_Some (obj_get (initialExercises st) k) ->
  is_Some (obj_get (initialExercises
                      (fold_left (initExercise uuid history) exercises st)) k).
Proof.
  revert st. induction exercises as [|ex exercises IH]; intros st Hst; simpl;
    [done|].
  apply IH. simpl. destruct (String.eqb_spec (ex_id ex) k) as [<-|Hne].
  - rewrite obj_get_set_eq. by eexists.
  - by rewrite obj_get_set_ne.
Qed.

Lemma initLoop_has exercises st k :
  In k (map ex_id exercises) ->
  is_Some (obj_get (initialExercises
                      (fold_left (initExercise uuid history) exercises st)) k).
Proof.
  revert st. induction exercises as [|ex exercises IH]; intros st Hin; simpl in *;
    [done|].
  destruct (String.eqb_spec (ex_id ex) k) as [<-|Hne].
  - apply initLoop_stays. simpl. rewrite obj_get_set_eq. by eexists.
  - apply IH. by destruct Hin.
Qed.

End InitInvariants.

(** X11.  After the initialization effect the dictionary of last weights and
    the session have the same keys, the ids of the day's exercises, and the
    weight kept for an exercise is the weight of each of its sets. *)
Theorem initialize_last_weights (uuid : nat -> string) (plan : TrainingPlan)
    (day : WorkoutDay) (history : list WorkoutHistory) (now : Z)
    (exerciseId : string) :
  match obj_get (as_exercises (initialize uuid plan day history now)) exerciseId,
        obj_get (initialLastWeightsOf uuid day history) exerciseId with
  | Some sets, Some lastWeight =>
      In exerciseId (map ex_id (wd_exercises day)) /\
      Forall (fun s => sl_weight s = lastWeight) sets
  | None, None => ~ In exerciseId (map ex_id (wd_exercises day))
  | _, _ => False
  end.
Proof.
  unfold initialize, initialLastWeightsOf, initLoop. simpl.
  pose proof (initLoop_weights uuid history (wd_exercises day)
                {| initialExercises := []; initialLastWeights := []; nextId := 1 |}
                exerciseId) as H.
  destruct (in_dec string_dec exerciseId (map ex_id (wd_exercises day))) as [Hin|Hnin].
  - destruct (obj_get _ exerciseId) as [sets|] eqn:E1.
    + destruct (obj_get (initialLastWeights _) exerciseId) as [w|] eqn:E2.
      * split; [done|]. by apply H.
      * by apply H.
    + destruct (initLoop_has uuid history (wd_exercises day)
                  {| initialExercises := []; initialLastWeights := []; nextId := 1 |}
                  exerciseId Hin) as [x Hx].
      congruence.
  - rewrite initLoop_other in * by done. simpl in *.
    destruct (obj_get (initialLastWeights _) exerciseId) as [w|] eqn:E2; [|done].
    by apply H.
Qed.

Lemma initialize_last_weights_witness :
  match obj_get (as_exercises (initialize demoUuid benchPlan benchDay
                                 [benchRecord 5 [lset 80 10 true]] 1000)) "ex-1",
        obj_get (initialLastWeightsOf demoUuid benchDay
                   [benchRecord 5 [lset 80 10 true]]) "ex-1" with
  | Some sets, Some lastWeight =>
      In "ex-1" (map ex_id (wd_exercises benchDay)) /\
      Forall (fun s => sl_weight s = lastWeight) sets
  | None, None => ~ In "ex-1" (map ex_id (wd_exercises benchDay))
  | _, _ => False
  end.
Proof.
  apply (initialize_last_weights demoUuid benchPlan benchDay
           [benchRecord 5 [lset 80 10 true]] 1000 "ex-1").
Defined.

(** ** A workout from start to the next start *)

Lemma filter_none {A} (f : A -> bool) (l : list A) :
  Forall (fun x => f x = false) l -> List.filter f l = [].
Proof. induction 1 as [|x l Hx _ IH]; simpl; [done|]. by rewrite Hx. Qed.

Lemma finishLoop_none_completed day entries st :
  Forall (fun kv => Forall (fun s => sl_completed s = false) (snd kv)) entries ->
  fold_left (finishExercise day) entries st = st.
Proof.
  intros H. revert st. induction H as [|kv entries Hkv _ IH]; intros st; simpl;
    [done|].
  assert (Hnil : List.filter sl_completed (snd kv) = []) by (by apply filter_none).
  unfold finishExercise at 2. rewrite Hnil. simpl. apply IH.
Qed.

(** X12.  Finishing a session as the initializer built it, with no set
    completed, gives a record of volume 0, with no completed exercise and an
    empty detailed log; its duration is the floor of the elapsed
    milliseconds over 1000. *)
Theorem finish_untouched_session (uuid : nat -> string)
    (plan activePlan : TrainingPlan) (day : WorkoutDay)
    (history : list WorkoutHistory) (now : Z) (dayId newId : string)
    (nowDate nowEnd : Z) (activeDay : WorkoutDay) :
  dayId <> EmptyString ->
  find (fun d => String.eqb (wd_id d) dayId) (tp_days activePlan) = Some activeDay ->
  exists record,
    handleFinishWorkout (Some activePlan) (Some dayId) newId nowDate nowEnd
      (initialize uuid plan day history now) = Some record /\
    wh_totalVolume record = 0 /\
    wh_exercisesCompleted record = 0%nat /\
    wh_exercises record = Some [] /\
    wh_durationSeconds record = ((nowEnd - now) / 1000)%Z.
Proof.
  intros Hid Hday. eexists. split; [by apply handleFinishWorkout_Some|].
  unfold finishLoop. rewrite finishLoop_none_completed; [done|].
  unfold initialize, initLoop. simpl. apply initLoop_uncompleted. constructor.
Qed.

Lemma finish_untouched_session_witness :
  exists record,
    handleFinishWorkout (Some benchPlan) (Some "d") "r" 5000 5000
      (initialize demoUuid benchPlan benchDay [] 1000) = Some record /\
    wh_totalVolume record = 0 /\
    wh_exercisesCompleted record = 0%nat /\
    wh_exercises record = Some [] /\
    wh_durationSeconds record = 4%Z.
Proof.
  apply (finish_untouched_session demoUuid benchPlan benchPlan benchDay [] 1000
           "d" "r" 5000 5000 benchDay).
  - discriminate.
  - reflexivity.
Defined.

Lemma find_detail_skip day name (before : list (string * list SetLog)) rest :
  Forall (fun kv => hasCompletedSet kv = false \/ exerciseNameOf day (fst kv) <> name)
         before ->
  find (fun e => String.eqb (ld_name e) name)
       (map (detailOf day) (List.filter hasCompletedSet (before ++ rest)))
  = find (fun e => String.eqb (ld_name e) name)
         (map (detailOf day) (List.filter hasCompletedSet rest)).
Proof.
  induction 1 as [|kv before Hkv _ IH]; simpl; [done|].
  destruct (hasCompletedSet kv) eqn:E; simpl; [|done].
  destruct Hkv as [?|Hne]; [congruence|].
  by destruct (String.eqb_spec (exerciseNameOf day (fst kv)) name).
Qed.

(** X13.  After a workout is finished and its record put in front of the
    history, the weight carried forward for an exercise name is that of the
    last completed set of the first session entry of that name having a
    completed set. *)
Theorem finish_then_carry_forward (plan : TrainingPlan) (dayId : string)
    (day : WorkoutDay) (newId : string) (nowDate nowEnd : Z)
    (session : ActiveSession) (prev : list WorkoutHistory)
    (before after : list (string * list SetLog)) (exerciseId : string)
    (earlier later : list SetLog) (s : SetLog) :
  dayId <> EmptyString ->
  find (fun d => String.eqb (wd_id d) dayId) (tp_days plan) = Some day ->
  as_exercises session = before ++ (exerciseId, earlier ++ s :: later) :: after ->
  Forall (fun kv => hasCompletedSet kv = false \/
                    exerciseNameOf day (fst kv) <> exerciseNameOf day exerciseId)
         before ->
  sl_completed s = true ->
  Forall (fun s' => sl_completed s' = false) later ->
  exists record,
    handleFinishWorkout (Some plan) (Some dayId) newId nowDate nowEnd session
      = Some record /\
    findLastWeightForExercise (exerciseNameOf day exerciseId)
      (appendRecord record prev) = sl_weight s.
Proof.
  intros Hid Hday Hex Hbefore Hs Hlater.
  eexists. split; [by apply handleFinishWorkout_Some|].
  unfold appendRecord. simpl. rewrite finishLoop_detailed, Hex.
  rewrite find_detail_skip by done. simpl.
  assert (Hfilter : List.filter sl_completed (earlier ++ s :: later)
                    = List.filter sl_completed earlier ++ [s]).
  { rewrite List.filter_app. simpl. by rewrite Hs, (filter_none _ _ Hlater). }
  assert (Hhas : hasCompletedSet (exerciseId, earlier ++ s :: later) = true).
  { unfold hasCompletedSet. rewrite <- filter_nonempty_existsb. simpl.
    rewrite Hfilter, length_app. simpl. apply Nat.ltb_lt. lia. }
  rewrite Hhas. simpl. rewrite String.eqb_refl. unfold detailOf. simpl.
  rewrite Hfilter, map_app. simpl.
  rewrite last_snoc, rev_app_distr. simpl. by rewrite Hs.
Qed.

Lemma finish_then_carry_forward_witness :
  exists record,
    handleFinishWorkout (Some benchPlan) (Some "d") "r" 126000 126000
      finishedSession = Some record /\
    findLastWeightForExercise "Bench Press" (appendRecord record []) = 60.
Proof.
  apply (finish_then_carry_forward benchPlan "d" benchDay "r" 126000 126000
           finishedSession [] [] [] "ex-1" []
           [demoSet "b" 0 0 false; demoSet "c" 0 0 false] (demoSet "a" 60 10 true)).
  - discriminate.
  - reflexivity.
  - reflexivity.
  - constructor.
  - reflexivity.
  - repeat constructor.
Defined.

(** ** Application state *)

(** X14.  [handleFinishWorkout] returns without a record exactly when there
    is no active plan, or no active day id, or the id is the empty string, or
    no day of the plan has that id. *)
Theorem handleFinishWorkout_early_return (activePlan : option TrainingPlan)
    (activeDayId : option string) (newId : string) (nowDate nowEnd : Z)
    (session : ActiveSession) :
  handleFinishWorkout activePlan activeDayId newId nowDate nowEnd session = None
  <->
  (activePlan = None \/ activeDayId = None \/ activeDayId = Some EmptyString \/
   exists plan dayId,
     activePlan = Some plan /\ activeDayId = Some dayId /\
     Forall (fun d => wd_id d <> dayId) (tp_days plan)).
Proof.
  unfold handleFinishWorkout.
  destruct activePlan as [plan|]; [|by split; [left|]].
  destruct activeDayId as [dayId|]; [|by split; [right; left|]].
  destruct (String.eqb_spec dayId EmptyString) as [->|Hid];
    [by split; [right; right; left|]|].
  destruct (find _ (tp_days plan)) as [day|] eqn:Hfind; split; try done.
  - intros [?|[?|[[= ?]|(plan' & dayId' & [= <-] & [= <-] & Hall)]]]; try done.
    apply find_some in Hfind as [Hin Heq]. apply String.eqb_eq in Heq.
    rewrite List.Forall_forall in Hall. by destruct (Hall day Hin).
  - intros _. right. right. right. exists plan, dayId. repeat split.
    apply List.Forall_forall. intros d Hd Heq.
    apply (find_none _ _ Hfind) in Hd. apply String.eqb_neq in Hd. done.
Qed.

Lemma handleFinishWorkout_early_return_witness :
  handleFinishWorkout (Some benchPlan) (Some "other") "r" 5000 5000 finishedSession
    = None.
Proof.
  apply (proj2 (handleFinishWorkout_early_return (Some benchPlan) (Some "other")
                  "r" 5000 5000 finishedSession)).
  right. right. right. exists benchPlan, "other". repeat split.
  repeat constructor. discriminate.
Defined.

(** X15.  [handleStartWorkout] keeps the plans and the history.  In the
    state it leaves for a day of the plan with a non-empty id,
    [handleFinishWorkout], on whatever session it is handed, puts one
    record, dated by the clock and named after the plan and the first day of
    that id, in front of the history, clears the active plan and day and
    selects the statistics view.  With an empty day id it returns early and
    the state stays as [handleStartWorkout] left it. *)
Theorem start_then_finish (plan : TrainingPlan) (day : WorkoutDay)
    (newId : string) (nowDate nowEnd : Z) (session : ActiveSession)
    (st : AppState) :
  In day (tp_days plan) ->
  let started := handleStartWorkout plan (wd_id day) st in
  (st_plans started = st_plans st /\ st_history started = st_history st) /\
  (wd_id day <> EmptyString ->
   exists first record,
     find (fun d => String.eqb (wd_id d) (wd_id day)) (tp_days plan)
       = Some first /\
     wd_id first = wd_id day /\
     handleFinishWorkout (st_activePlan started) (st_activeDayId started)
       newId nowDate nowEnd session = Some record /\
     wh_date record = nowDate /\ wh_planName record = tp_name plan /\
     wh_dayName record = wd_name first /\
     finishWorkout newId nowDate nowEnd session started
       = {| st_view := STATS; st_plans := st_plans st;
            st_history := record :: st_history st;
            st_activePlan := None; st_activeDayId := None |}) /\
  (wd_id day = EmptyString ->
   handleFinishWorkout (st_activePlan started) (st_activeDayId started)
     newId nowDate nowEnd session = None /\
   finishWorkout newId nowDate nowEnd session started = started).
Proof.
  intros Hin started. split; [done|]. split.
  - intros Hid.
    destruct (find (fun d => String.eqb (wd_id d) (wd_id day)) (tp_days plan))
      as [first|] eqn:Hfind.
    + pose proof (find_some _ _ Hfind) as [_ Heq]. apply String.eqb_eq in Heq.
      eexists first, _. split; [done|].
      split; [done|].
      split; [by apply handleFinishWorkout_Some|].
      split; [done|]. split; [done|]. split; [done|].
      unfold finishWorkout. simpl st_activePlan. simpl st_activeDayId.
      by rewrite (handleFinishWorkout_Some _ _ _ _ _ _ _ Hid Hfind).
    + apply (find_none _ _ Hfind) in Hin. by rewrite String.eqb_refl in Hin.
  - intros Hid. unfold finishWorkout, handleFinishWorkout. simpl.
    by rewrite Hid.
Qed.

Lemma start_then_finish_witness :
  exists record,
    handleFinishWorkout (Some benchPlan) (Some "d") "r" 126000 126000 finishedSession
      = Some record /\
    wh_dayName record = wd_name benchDay /\
    finishWorkout "r" 126000 126000 finishedSession
        (handleStartWorkout benchPlan "d" demoState)
      = {| st_view := STATS; st_plans := [benchPlan];
           st_history := [record; finishedRecord];
           st_activePlan := None; st_activeDayId := None |}.
Proof.
  destruct (proj1 (proj2 (start_then_finish benchPlan benchDay "r" 126000 126000
                     finishedSession demoState (or_introl eq_refl))))
    as (first & record & H0 & _ & H1 & _ & _ & H2 & H3).
  - discriminate.
  - exists record. split; [exact H1|]. split; [|exact H3].
    injection H0 as <-. exact H2.
Defined.

(** X16.  Finishing either leaves the history alone or puts one record, dated
    by the clock, in front of it; a newest-first history whose records are
    not dated after that reading stays newest-first.  Starting, cancelling,
    deleting a plan and adding a plan do not touch the history. *)
Theorem history_newest_first (newId : string) (nowDate nowEnd : Z)
    (session : ActiveSession) (st : AppState) :
  let finished := finishWorkout newId nowDate nowEnd session st in
  (st_history finished = st_history st \/
   exists record,
     st_history finished = record :: st_history st /\ wh_date record = nowDate) /\
  (newestFirst (st_history st) ->
   Forall (fun h => (wh_date h <= nowDate)%Z) (st_history st) ->
   newestFirst (st_history finished) /\
   Forall (fun h => (wh_date h <= nowDate)%Z) (st_history finished)) /\
  (forall plan dayId confirmed id p,
     st_history (handleStartWorkout plan dayId st) = st_history st /\
     st_history (handleCancelWorkout confirmed st) = st_history st /\
     st_history (deletePlan confirmed id st) = st_history st /\
     st_history (onAddPlan p st) = st_history st).
Proof.
  intros finished. subst finished. unfold finishWorkout.
  destruct (handleFinishWorkout _ _ _ _ _ _) as [record|] eqn:Hrec.
  - assert (Hdate : wh_date record = nowDate).
    { unfold handleFinishWorkout in Hrec.
      destruct (st_activePlan st) as [plan|]; [|done].
      destruct (st_activeDayId st) as [dayId|]; [|done].
      destruct (String.eqb dayId EmptyString); [done|].
      destruct (find _ _); [|done]. by injection Hrec as <-. }
    simpl. split; [right; by exists record|]. split.
    + intros Hsorted Hall. unfold appendRecord. split.
      * constructor; [done|]. by rewrite Hdate.
      * constructor; [lia|done].
    + intros plan dayId confirmed id p. by destruct confirmed.
  - split; [by left|]. split; [done|].
    intros plan dayId confirmed id p. by destruct confirmed.
Qed.

Lemma history_newest_first_witness :
  newestFirst (st_history demoState) /\
  newestFirst (st_history (finishWorkout "r" 200000 200000 finishedSession
                             (handleStartWorkout benchPlan "d" demoState))).
Proof.
  assert (H : newestFirst (st_history demoState)) by (repeat constructor).
  split; [exact H|].
  apply (proj1 (proj2 (history_newest_first "r" 200000 200000 finishedSession
                         (handleStartWorkout benchPlan "d" demoState)))).
  - exact H.
  - repeat constructor. simpl. lia.
Defined.

(** X17.  A confirmed [deletePlan] removes every plan of the id and keeps the
    others; unconfirmed, or for an id no plan has, it changes nothing;
    deleting a plan just added under a fresh id gives back the state; and
    deleting a plan commutes with finishing a workout. *)
Theorem deletePlan_removes (id : string) (st : AppState) :
  Forall (fun p => tp_id p <> id) (st_plans (deletePlan true id st)) /\
  (forall p, tp_id p <> id ->
     In p (st_plans st) <-> In p (st_plans (deletePlan true id st))) /\
  deletePlan false id st = st /\
  (Forall (fun p => tp_id p <> id) (st_plans st) -> deletePlan true id st = st) /\
  (forall p, tp_id p = id ->
     Forall (fun q => tp_id q <> id) (st_plans st) ->
     deletePlan true id (onAddPlan p st) = st) /\
  (forall confirmed newId nowDate nowEnd session,
     finishWorkout newId nowDate nowEnd session (deletePlan confirmed id st)
       = deletePlan confirmed id (finishWorkout newId nowDate nowEnd session st)).
Proof.
  assert (Hkeep : forall plans : list TrainingPlan,
             Forall (fun p => tp_id p <> id) plans ->
             List.filter (fun p => negb (String.eqb (tp_id p) id)) plans = plans).
  { induction 1 as [|p plans Hp _ IH]; simpl; [done|].
    destruct (String.eqb_spec (tp_id p) id); [done|]. simpl. by rewrite IH. }
  split; [|split; [|split; [|split; [|split]]]].
  - simpl. apply List.Forall_forall. intros p Hp.
    apply filter_In in Hp as [_ Hp]. apply negb_true_iff in Hp.
    by apply String.eqb_neq in Hp.
  - intros p Hp. simpl. rewrite filter_In. split; [|tauto].
    intros Hin. split; [done|]. apply negb_true_iff. by apply String.eqb_neq.
  - done.
  - intros Hall. destruct st. unfold deletePlan. simpl in *. by rewrite Hkeep.
  - intros p Hp Hall. destruct st. unfold deletePlan, onAddPlan. simpl in *.
    rewrite Hp, String.eqb_refl. simpl. by rewrite Hkeep.
  - intros confirmed newId nowDate nowEnd session.
    destruct confirmed; [|done]. unfold finishWorkout, deletePlan. simpl.
    by destruct (handleFinishWorkout _ _ _ _ _ _).
Qed.

Lemma deletePlan_removes_witness :
  deletePlan true "p" (onAddPlan benchPlan
                         {| st_view := PLANS; st_plans := [];
                            st_history := []; st_activePlan := None;
                            st_activeDayId := None |})
  = {| st_view := PLANS; st_plans := []; st_history := [];
       st_activePlan := None; st_activeDayId := None |}.
Proof.
  apply (proj1 (proj2 (proj2 (proj2 (proj2 (deletePlan_removes "p" _)))))
           benchPlan).
  - reflexivity.
  - constructor.
Defined.

(** ** The week on the dashboard and in the statistics *)

Lemma this_week_iff now date :
  (date <= now)%Z ->
  (now - date <? 7 * 24 * 60 * 60 * 1000)%Z = (weekIndex now date =? 0)%Z.
Proof.
  intros Hle. unfold weekIndex, daysAgo.
  rewrite Z.div_div by (try reflexivity; discriminate).
  change (msPerDay * 7)%Z with (7 * 24 * 60 * 60 * 1000)%Z.
  set (w := (7 * 24 * 60 * 60 * 1000)%Z).
  assert (Hw : (0 < w)%Z) by reflexivity.
  destruct (Z.ltb_spec (now - date) w) as [Hlt|Hge].
  - symmetry. apply Z.eqb_eq. apply Z.div_small. lia.
  - symmetry. apply Z.eqb_neq. intros H0.
    apply Z.div_small_iff in H0; lia.
Qed.

Lemma thisWeekCount_inWeek now history :
  Forall (fun h => (wh_date h <= now)%Z) history ->
  thisWeekCount now history = length (List.filter (inWeek now 0) history).
Proof.
  unfold thisWeekCount. induction 1 as [|h history Hh _ IH]; simpl; [done|].
  unfold inWeek at 1. rewrite <- this_week_iff by done.
  destruct (_ <? _)%Z; simpl; by rewrite IH.
Qed.

(** X18.  For a history not dated after [now], the week count of the
    dashboard is the workout count of the last bucket of [weeklyActivity],
    the one labelled "This Week". *)
Theorem this_week_is_bucket_zero (history : list WorkoutHistory) (now : Z) :
  Forall (fun h => (wh_date h <= now)%Z) history ->
  exists buckets thisWeek,
    weeklyActivity history now = Some buckets /\
    last buckets = Some thisWeek /\
    b_label thisWeek = "This Week" /\
    b_workouts thisWeek = thisWeekCount now history.
Proof.
  intros Hdates. unfold weeklyActivity.
  rewrite weekLoop_roll; [|done|].
  - eexists _, _. split; [done|]. simpl. split; [done|]. split; [done|].
    by rewrite thisWeekCount_inWeek.
  - eapply List.Forall_impl; [|exact Hdates]. intros h Hh. by apply weekIndex_nonneg.
Qed.

Lemma this_week_is_bucket_zero_witness :
  exists buckets thisWeek,
    weeklyActivity [datedRecord 3000000000 600;
                    datedRecord (3000000000 - 7 * 86400000) 500] 3000000000
      = Some buckets /\
    last buckets = Some thisWeek /\
    b_label thisWeek = "This Week" /\
    b_workouts thisWeek
      = thisWeekCount 3000000000
          [datedRecord 3000000000 600;
           datedRecord (3000000000 - 7 * 86400000) 500].
Proof.
  apply (this_week_is_bucket_zero _ 3000000000).
  repeat (constructor; [simpl; lia|]). constructor.
Defined.

(** ** Weekly activity: nothing is lost, nothing is counted twice *)

Lemma recent_iff now date :
  (date <= now)%Z ->
  (now - date <? 28 * 24 * 60 * 60 * 1000)%Z
    = (weekIndex now date <? Z.of_nat weeks)%Z.
Proof.
  intros Hle. unfold weekIndex, daysAgo.
  rewrite Z.div_div by (try reflexivity; discriminate).
  change (msPerDay * 7)%Z with (7 * 24 * 60 * 60 * 1000)%Z.
  change (Z.of_nat weeks) with 4%Z.
  set (w := (7 * 24 * 60 * 60 * 1000)%Z).
  change (28 * 24 * 60 * 60 * 1000)%Z with (4 * w)%Z.
  assert (Hw : (0 < w)%Z) by reflexivity.
  destruct (Z.ltb_spec (now - date) (4 * w)) as [Hlt|Hge]; symmetry.
  - apply Z.ltb_lt. apply Z.div_lt_upper_bound; lia.
  - apply Z.ltb_ge. apply Z.div_le_lower_bound; lia.
Qed.

Lemma fold_left_total (l : list WorkoutHistory) (a : Q) :
  fold_left (fun acc h => acc + wh_totalVolume h) l a
  == a + fold_left (fun acc h => acc + wh_totalVolume h) l 0.
Proof.
  revert a. induction l as [|h l IH]; intros a; simpl; [ring|].
  rewrite IH, (IH (0 + wh_totalVolume h)). ring.
Qed.

(** Each record of a week index from 0 to 3 is in exactly one of the four
    filters. *)
Lemma four_weeks_partition now history :
  Forall (fun h => (0 <= weekIndex now (wh_date h))%Z) history ->
  (length (List.filter (inWeek now 3) history)
   + (length (List.filter (inWeek now 2) history)
      + (length (List.filter (inWeek now 1) history)
         + (length (List.filter (inWeek now 0) history) + 0))))%nat
  = length (List.filter (fun h => (weekIndex now (wh_date h) <? Z.of_nat weeks)%Z)
              history) /\
  totalVolumeOf (List.filter (inWeek now 3) history)
  + (totalVolumeOf (List.filter (inWeek now 2) history)
     + (totalVolumeOf (List.filter (inWeek now 1) history)
        + (totalVolumeOf (List.filter (inWeek now 0) history) + 0)))
  == totalVolumeOf
       (List.filter (fun h => (weekIndex now (wh_date h) <? Z.of_nat weeks)%Z)
          history).
Proof.
  unfold totalVolumeOf.
  induction 1 as [|h history Hh _ [IHn IHv]]; [split; [done|simpl; ring]|].
  cbn [List.filter].
  destruct (inWeek now 3 h) eqn:E3, (inWeek now 2 h) eqn:E2,
           (inWeek now 1 h) eqn:E1, (inWeek now 0 h) eqn:E0,
           (weekIndex now (wh_date h) <? Z.of_nat weeks)%Z eqn:E4;
    unfold inWeek, weeks in E3, E2, E1, E0, E4;
    repeat match goal with
           | H : (_ =? _)%Z = true |- _ => apply Z.eqb_eq in H
           | H : (_ =? _)%Z = false |- _ => apply Z.eqb_neq in H
           | H : (_ <? _)%Z = true |- _ => apply Z.ltb_lt in H
           | H : (_ <? _)%Z = false |- _ => apply Z.ltb_ge in H
           end;
    try lia;
    (split;
     [cbn [length]; lia
     |cbn [fold_left]; rewrite ?(fold_left_total _ (0 + _)), <- ?IHv; ring]).
Qed.

Lemma filter_ext_Forall {A} (f g : A -> bool) (P : A -> Prop) (l : list A) :
  (forall x, P x -> f x = g x) -> Forall P l -> List.filter f l = List.filter g l.
Proof.
  intros Hfg. induction 1 as [|x l Hx _ IH]; simpl; [done|].
  by rewrite (Hfg x Hx), IH.
Qed.

(** X19.  For a history not dated after [now], the buckets of
    [weeklyActivity] are labelled "3w ago", "2w ago", "1w ago", "This Week";
    their workout counts add up to the number of records of the last 28
    days and their volumes to the total volume of those records. *)
Theorem weeklyActivity_conserves (history : list WorkoutHistory) (now : Z) :
  Forall (fun h => (wh_date h <= now)%Z) history ->
  exists buckets,
    weeklyActivity history now = Some buckets /\
    map b_label buckets = ["3w ago"; "2w ago"; "1w ago"; "This Week"] /\
    list_sum (map b_workouts buckets) = length (List.filter (recent now) history) /\
    sumQ (map b_volume buckets) == totalVolumeOf (List.filter (recent now) history).
Proof.
  intros Hdates.
  assert (Hpos : Forall (fun h => (0 <= weekIndex now (wh_date h))%Z) history).
  { eapply List.Forall_impl; [|exact Hdates]. intros h Hh. by apply weekIndex_nonneg. }
  assert (Hrecent : List.filter (recent now) history
                    = List.filter (fun h => (weekIndex now (wh_date h)
                                             <? Z.of_nat weeks)%Z) history).
  { apply (filter_ext_Forall _ _ _ _ (fun h => recent_iff now (wh_date h)) Hdates). }
  unfold weeklyActivity. rewrite weekLoop_roll by done.
  eexists. split; [done|]. split; [done|].
  destruct (four_weeks_partition now history Hpos) as [Hn Hv].
  rewrite Hrecent. split.
  - rewrite <- Hn. reflexivity.
  - rewrite <- Hv. reflexivity.
Qed.

Lemma weeklyActivity_conserves_witness :
  exists buckets,
    weeklyActivity [datedRecord 3000000000 600;
                    datedRecord (3000000000 - 7 * 86400000) 500;
                    datedRecord (3000000000 - 28 * 86400000) 400] 3000000000
      = Some buckets /\
    list_sum (map b_workouts buckets) = 2%nat.
Proof.
  destruct (weeklyActivity_conserves
              [datedRecord 3000000000 600;
               datedRecord (3000000000 - 7 * 86400000) 500;
               datedRecord (3000000000 - 28 * 86400000) 400] 3000000000)
    as (buckets & H1 & _ & H2 & _).
  - repeat (constructor; [simpl; lia|]). constructor.
  - exists buckets. split; [exact H1|]. rewrite H2. reflexivity.
Defined.

(** ** Progression points: best weight and best estimate *)

Lemma Qltb_ge a b : Qltb a b = false -> b <= a.
Proof.
  unfold Qltb. rewrite negb_false_iff. apply Qle_bool_iff.
Qed.

(** The accumulators only grow, and bound the completed sets seen. *)
Lemma statSets_bounds sets acc :
  let final := fold_left statSet sets acc in
  acc_maxWeight acc <= acc_maxWeight final /\
  acc_max1RM acc <= acc_max1RM final /\
  Forall (fun s => ls_completed s = true ->
                   ls_weight s <= acc_maxWeight final /\
                   oneRepMax (ls_weight s) (ls_reps s) <= acc_max1RM final) sets.
Proof.
  revert acc. induction sets as [|s sets IH]; intros acc; simpl.
  - split; [apply Qle_refl|]. split; [apply Qle_refl|constructor].
  - destruct (IH (statSet acc s)) as (Hw & Hr & Hall).
    assert (Hstep : acc_maxWeight acc <= acc_maxWeight (statSet acc s) /\
                    acc_max1RM acc <= acc_max1RM (statSet acc s) /\
                    (ls_completed s = true ->
                     ls_weight s <= acc_maxWeight (statSet acc s) /\
                     oneRepMax (ls_weight s) (ls_reps s)
                       <= acc_max1RM (statSet acc s))).
    { unfold statSet. destruct (ls_completed s); simpl;
        [|by repeat split; try apply Qle_refl].
      destruct (Qltb (acc_maxWeight acc) (ls_weight s)) eqn:E1,
               (Qltb (acc_max1RM acc) (oneRepMax (ls_weight s) (ls_reps s))) eqn:E2;
        try apply Qltb_lt in E1; try apply Qltb_lt in E2;
        try apply Qltb_ge in E1; try apply Qltb_ge in E2;
        repeat split; intros; try apply Qle_refl; try done;
        by apply Qlt_le_weak. }
    destruct Hstep as (Hw0 & Hr0 & Hs).
    split; [by eapply Qle_trans|]. split; [by eapply Qle_trans|].
    constructor; [|done]. intros Hc. destruct (Hs Hc) as [H1 H2].
    split; by eapply Qle_trans.
Qed.

(** Each accumulator is its initial value or comes from a completed set. *)
Lemma statSets_attained sets acc :
  let final := fold_left statSet sets acc in
  (acc_maxWeight final = acc_maxWeight acc \/
   exists s, In s sets /\ ls_completed s = true /\
             acc_maxWeight final = ls_weight s) /\
  (acc_max1RM final = acc_max1RM acc \/
   exists s, In s sets /\ ls_completed s = true /\
             acc_max1RM final = oneRepMax (ls_weight s) (ls_reps s)).
Proof.
  revert acc. induction sets as [|s sets IH]; intros acc; simpl.
  - split; by left.
  - destruct (IH (statSet acc s)) as [Hw Hr]. split.
    + destruct Hw as [Hw|(s' & Hin & Hc & Hw)].
      * rewrite Hw. unfold statSet. destruct (ls_completed s) eqn:Hc; [|by left].
        simpl. destruct (Qltb _ _); [|by left].
        right. exists s. split; [by left|done].
      * right. exists s'. split; [by right|done].
    + destruct Hr as [Hr|(s' & Hin & Hc & Hr)].
      * rewrite Hr. unfold statSet. destruct (ls_completed s) eqn:Hc; [|by left].
        simpl. destruct (Qltb (acc_max1RM acc) _); [|by left].
        right. exists s. split; [by left|done].
      * right. exists s'. split; [by right|done].
Qed.

Lemma statRecord_fields selectedExercise h p :
  In p (statRecord selectedExercise [] h) ->
  sp_date p = wh_date h /\
  sp_maxWeight p = acc_maxWeight (statSets (entrySets selectedExercise h)) /\
  sp_estOneRepMax p = acc_max1RM (statSets (entrySets selectedExercise h)).
Proof.
  unfold statRecord, entrySets, matchingEntry.
  destruct (wh_exercises h) as [exercises|]; [|done].
  destruct (find _ exercises) as [exData|]; [|done].
  destruct (Qltb _ _); [|done]. by intros [<-|[]].
Qed.

(** X20.  Every point of the progression series is dated as a record of the
    history whose completed sets for the exercise all have a weight at most
    the point's best weight and an estimate at most the point's best
    estimate; each of the two is attained by a completed set, or is 0. *)
Theorem exerciseStats_best (history : list WorkoutHistory)
    (selectedExercise : string) (p : StatPoint) :
  In p (exerciseStats history selectedExercise) ->
  exists h,
    In h history /\ sp_date p = wh_date h /\
    Forall (fun s => ls_completed s = true ->
                     ls_weight s <= sp_maxWeight p /\
                     oneRepMax (ls_weight s) (ls_reps s) <= sp_estOneRepMax p)
           (entrySets selectedExercise h) /\
    (sp_maxWeight p = 0 \/
     exists s, In s (entrySets selectedExercise h) /\ ls_completed s = true /\
               sp_maxWeight p = ls_weight s) /\
    (sp_estOneRepMax p = 0 \/
     exists s, In s (entrySets selectedExercise h) /\ ls_completed s = true /\
               sp_estOneRepMax p = oneRepMax (ls_weight s) (ls_reps s)).
Proof.
  unfold exerciseStats. destruct (String.eqb selectedExercise EmptyString); [done|].
  intros Hp. apply (Permutation_in _ (sortByDate_perm _)) in Hp.
  rewrite statLoop_flat_map in Hp. simpl in Hp.
  apply in_flat_map in Hp as (h & Hh & Hp).
  apply statRecord_fields in Hp as (Hd & -> & ->).
  exists h. split; [done|]. split; [done|].
  unfold statSets.
  pose proof (statSets_bounds (entrySets selectedExercise h)
                {| acc_maxWeight := 0; acc_volume := 0; acc_max1RM := 0 |})
    as (_ & _ & Hall).
  pose proof (statSets_attained (entrySets selectedExercise h)
                {| acc_maxWeight := 0; acc_volume := 0; acc_max1RM := 0 |})
    as [Hw Hr].
  split; [exact Hall|]. split; [exact Hw|exact Hr].
Qed.

Lemma exerciseStats_best_witness :
  exists h,
    In h [benchRecord 5 [lset 100 8 true; lset 105 6 true; lset 120 1 false]] /\
    Forall (fun s => ls_completed s = true -> ls_weight s <= 105 /\
                     oneRepMax (ls_weight s) (ls_reps s) <= 100 * (1 + 8 / 30))
           (entrySets "Bench Press" h).
Proof.
  destruct (exerciseStats_best
              [benchRecord 5 [lset 100 8 true; lset 105 6 true; lset 120 1 false]]
              "Bench Press"
              {| sp_date := 5; sp_maxWeight := 105;
                 sp_volume := 0 + 100 * 8 + 105 * 6;
                 sp_estOneRepMax := 100 * (1 + 8 / 30) |})
    as (h & Hh & _ & Hall & _).
  - left. reflexivity.
  - exists h. split; [exact Hh|exact Hall].
Defined.

(** ** Exercise names offered for selection *)

Lemma set_add_In name x exercises :
  In x (set_add name exercises) <-> x = name \/ In x exercises.
Proof.
  unfold set_add. destruct (existsb (String.eqb name) exercises) eqn:E.
  - split; [tauto|]. intros [->|H]; [|done].
    apply existsb_exists in E as (y & Hy & Heq). apply String.eqb_eq in Heq.
    by subst.
  - rewrite in_app_iff. simpl. intuition.
Qed.

Lemma set_add_NoDup name exercises :
  List.NoDup exercises -> List.NoDup (set_add name exercises).
Proof.
  intros H. unfold set_add.
  destruct (existsb (String.eqb name) exercises) eqn:E; [done|].
  apply List.NoDup_app; [done|repeat constructor; by intros []|].
  intros x Hx [<-|[]].
  assert (existsb (String.eqb name) exercises = true); [|congruence].
  apply existsb_exists. exists name. split; [done|apply String.eqb_refl].
Qed.

Lemma addNames_In (loggedEx : list WorkoutLogDetail) exercises x :
  In x (fold_left (fun exercises e => set_add (ld_name e) exercises) loggedEx exercises)
  <-> In x exercises \/ exists e, In e loggedEx /\ ld_name e = x.
Proof.
  revert exercises. induction loggedEx as [|e l IH]; intros exercises; simpl.
  - split; [tauto|]. intros [?|(e & [] & _)]. done.
  - rewrite IH, set_add_In. split.
    + intros [[->|?]|(e' & He' & <-)]; [right; exists e; tauto|tauto|].
      right. exists e'. tauto.
    + intros [?|(e' & [<-|He'] & <-)]; [tauto|tauto|]. right. exists e'. tauto.
Qed.

Lemma addNames_NoDup (loggedEx : list WorkoutLogDetail) exercises :
  List.NoDup exercises ->
  List.NoDup (fold_left (fun exercises e => set_add (ld_name e) exercises)
                loggedEx exercises).
Proof.
  revert exercises. induction loggedEx as [|e l IH]; intros exercises H; simpl;
    [done|].
  apply IH. by apply set_add_NoDup.
Qed.

Lemma collect_In history exercises x :
  In x (fold_left
          (fun exercises h =>
             match wh_exercises h with
             | Some loggedEx =>
                 fold_left (fun exercises e => set_add (ld_name e) exercises)
                   loggedEx exercises
             | None => exercises
             end) history exercises)
  <-> In x exercises \/ logged x history.
Proof.
  revert exercises. induction history as [|h history IH]; intros exercises; simpl.
  - split; [tauto|]. intros [?|(h & ? & ? & [] & _)]. done.
  - rewrite IH. unfold logged. split.
    + intros [Hin|(h' & exs & e & Hh & Hex & He & Hn)].
      * destruct (wh_exercises h) as [loggedEx|] eqn:E; [|tauto].
        apply addNames_In in Hin as [?|(e & He & Hn)]; [tauto|].
        right. exists h, loggedEx, e. repeat split; auto. by left.
      * right. exists h', exs, e. repeat split; auto. by right.
    + intros [Hin|(h' & exs & e & [<-|Hh] & Hex & He & Hn)].
      * left. destruct (wh_exercises h); [|done]. apply addNames_In. tauto.
      * left. rewrite Hex. apply addNames_In. right. by exists e.
      * right. exists h', exs, e. repeat split; auto.
Qed.

Lemma collect_NoDup history exercises :
  List.NoDup exercises ->
  List.NoDup (fold_left
                (fun exercises h =>
                   match wh_exercises h with
                   | Some loggedEx =>
                       fold_left (fun exercises e => set_add (ld_name e) exercises)
                         loggedEx exercises
                   | None => exercises
                   end) history exercises).
Proof.
  revert exercises. induction history as [|h history IH]; intros exercises H; simpl;
    [done|].
  apply IH. destruct (wh_exercises h); [|done]. by apply addNames_NoDup.
Qed.

Section SortNames.
Variable le : string -> string -> bool.
Hypothesis le_total : forall a b, le a b = true \/ le b a = true.

Lemma insertName_perm x l : Permutation (insertName le x l) (x :: l).
Proof.
  induction l as [|y l IH]; simpl; [done|].
  destruct (le x y); [done|]. rewrite IH. apply perm_swap.
Qed.

Lemma sortNames_perm l : Permutation (sortNames le l) l.
Proof.
  induction l as [|x l IH]; simpl; [done|].
  rewrite insertName_perm. by apply perm_skip.
Qed.

Lemma insertName_sorted x l :
  Sorted (fun a b => le a b = true) l ->
  Sorted (fun a b => le a b = true) (insertName le x l).
Proof.
  induction 1 as [|y l Hs IH Hy]; simpl.
  - repeat constructor.
  - destruct (le x y) eqn:E.
    + constructor; [by constructor|]. by constructor.
    + constructor; [done|].
      destruct l as [|z l]; simpl.
      * constructor. destruct (le_total x y); [congruence|done].
      * destruct (le x z); constructor.
        -- destruct (le_total x y); [congruence|done].
        -- by inversion Hy.
Qed.

Lemma sortNames_sorted l : Sorted (fun a b => le a b = true) (sortNames le l).
Proof.
  induction l as [|x l IH]; simpl; [constructor|]. by apply insertName_sorted.
Qed.

End SortNames.

Lemma statRecord_unlogged name h :
  (forall exercises e, wh_exercises h = Some exercises -> In e exercises ->
                       ld_name e <> name) ->
  statRecord name [] h = [].
Proof.
  intros H. unfold statRecord.
  destruct (wh_exercises h) as [exercises|]; [|done].
  destruct (find _ exercises) as [e|] eqn:Hfind; [|done].
  apply find_some in Hfind as [Hin Heq]. apply String.eqb_eq in Heq.
  by destruct (H exercises e eq_refl Hin).
Qed.

(** X21.  For a total order on strings, [uniqueExercises] is sorted, has no
    duplicates and holds exactly the names logged in the history; a name it
    does not hold has an empty progression series. *)
Theorem uniqueExercises_names (le : string -> string -> bool)
    (history : list WorkoutHistory) :
  (forall a b, le a b = true \/ le b a = true) ->
  List.NoDup (uniqueExercises le history) /\
  Sorted (fun a b => le a b = true) (uniqueExercises le history) /\
  (forall name, In name (uniqueExercises le history) <-> logged name history) /\
  (forall name, ~ In name (uniqueExercises le history) ->
                exerciseStats history name = []).
Proof.
  intros Htotal.
  assert (Hmem : forall name,
             In name (uniqueExercises le history) <-> logged name history).
  { intros name. unfold uniqueExercises.
    split.
    - intros Hin. apply (Permutation_in _ (sortNames_perm le _)) in Hin.
      apply collect_In in Hin as [[]|H]. done.
    - intros H. apply (Permutation_in _ (Permutation_sym (sortNames_perm le _))).
      apply collect_In. by right. }
  split; [|split; [|split]].
  - unfold uniqueExercises.
    apply (Permutation_NoDup (Permutation_sym (sortNames_perm le _))).
    apply collect_NoDup. constructor.
  - by apply sortNames_sorted.
  - exact Hmem.
  - intros name Hnot. unfold exerciseStats.
    destruct (String.eqb name EmptyString); [done|].
    rewrite statLoop_flat_map. simpl.
    assert (Hnil : flat_map (statRecord name []) history = []).
    { assert (Hall : forall h, In h history -> statRecord name [] h = []).
      { intros h Hh. apply statRecord_unlogged. intros exercises e Hex He Hn.
        apply Hnot, Hmem. by exists h, exercises, e. }
      clear -Hall. induction history as [|h history IH]; simpl; [done|].
      rewrite Hall by (by left). apply IH. intros h' Hh'. apply Hall. by right. }
    by rewrite Hnil.
Qed.

Lemma uniqueExercises_names_witness :
  uniqueExercises String.leb
    [benchRecord 9 [lset 100 8 true]; benchRecord 5 [lset 80 8 true]]
    = ["Bench Press"] /\
  exerciseStats [benchRecord 9 [lset 100 8 true]; benchRecord 5 [lset 80 8 true]]
    "Squat" = [].
Proof.
  split; [reflexivity|].
  apply (proj2 (proj2 (proj2
           (uniqueExercises_names String.leb
              [benchRecord 9 [lset 100 8 true]; benchRecord 5 [lset 80 8 true]]
              String.leb_total)))).
  intros [H|[]]. discriminate.
Defined.

(** ** Charts *)

Lemma fold_max_bounds (l : list Q) (a : Q) :
  a <= fold_left Qmax l a /\ Forall (fun x => x <= fold_left Qmax l a) l.
Proof.
  revert a. induction l as [|x l IH]; intros a; simpl.
  - split; [apply Qle_refl|constructor].
  - destruct (IH (Qmax a x)) as [H1 H2]. split.
    + eapply Qle_trans; [apply Q.le_max_l|exact H1].
    + constructor; [|done]. eapply Qle_trans; [apply Q.le_max_r|exact H1].
Qed.

Lemma fold_min_bounds (l : list Q) (a : Q) :
  fold_left Qmin l a <= a /\ Forall (fun x => fold_left Qmin l a <= x) l.
Proof.
  revert a. induction l as [|x l IH]; intros a; simpl.
  - split; [apply Qle_refl|constructor].
  - destruct (IH (Qmin a x)) as [H1 H2]. split.
    + eapply Qle_trans; [exact H1|apply Q.le_min_l].
    + constructor; [|done]. eapply Qle_trans; [exact H1|apply Q.le_min_r].
Qed.

Lemma fold_max_proper (l : list Q) (a b : Q) :
  a == b -> fold_left Qmax l a == fold_left Qmax l b.
Proof.
  revert a b. induction l as [|c l IH]; intros a b Hab; simpl; [done|].
  apply IH. by rewrite Hab.
Qed.

(** The minimum of non-negative numbers is non-negative. *)
Lemma fold_min_nonneg (l : list Q) (a : Q) :
  0 <= a -> Forall (fun x => 0 <= x) l -> 0 <= fold_left Qmin l a.
Proof.
  intros Ha H. revert a Ha. induction H as [|x l Hx _ IH]; intros a Ha; simpl;
    [done|].
  apply IH. by apply Q.min_glb.
Qed.

Lemma orNumber_cases x d :
  (x == 0 /\ orNumber x d = d) \/ (~ x == 0 /\ orNumber x d = x).
Proof.
  unfold orNumber. destruct (Qeq_bool x 0) eqn:E.
  - left. split; [by apply Qeq_bool_iff|done].
  - right. split; [|done]. intros H. apply Qeq_bool_iff in H. congruence.
Qed.

(** A fraction of a positive whole, in percent or in any scale. *)
Lemma scaled_fraction (v m scale : Q) :
  0 <= v -> v <= m -> 0 < m -> 0 <= scale ->
  0 <= v / m * scale /\ v / m * scale <= scale.
Proof.
  intros Hv Hvm Hm Hs.
  assert (H0 : 0 <= v / m).
  { apply Qle_shift_div_l; [done|]. lra. }
  assert (H1 : v / m <= 1).
  { apply Qle_shift_div_r; [done|]. lra. }
  split.
  - by apply Qmult_le_0_compat.
  - apply Qle_trans with (1 * scale); [by apply Qmult_le_compat_r|lra].
Qed.

(** X22.  For non-negative volumes the bars of [renderBarChart] are as many as
    the weeks and between 0 and 100 percent high; if some volume is positive
    a bar reaches 100 percent, and if all volumes are 0 all bars are 0. *)
Theorem barHeights_in_range (weekly : list Bucket) :
  Forall (fun w => 0 <= b_volume w) weekly ->
  length (barHeights weekly) = length weekly /\
  Forall (fun height => 0 <= height /\ height <= 100) (barHeights weekly) /\
  (Exists (fun w => 0 < b_volume w) weekly ->
   Exists (fun height => height == 100) (barHeights weekly)) /\
  (Forall (fun w => b_volume w == 0) weekly ->
   Forall (fun height => height == 0) (barHeights weekly)).
Proof.
  intros Hpos. destruct weekly as [|w rest]; [by repeat split; try constructor;
    intros H; inversion H|].
  unfold barHeights.
  set (m := fold_left Qmax (map b_volume rest) (b_volume w)).
  destruct (fold_max_bounds (map b_volume rest) (b_volume w)) as [Hw Hrest].
  fold m in Hw, Hrest.
  assert (Hall : Forall (fun x => 0 <= b_volume x /\ b_volume x <= m) (w :: rest)).
  { apply List.Forall_forall. intros x Hx. rewrite List.Forall_forall in Hpos.
    split; [by apply Hpos|]. destruct Hx as [<-|Hx]; [done|].
    rewrite List.Forall_forall in Hrest. apply Hrest. by apply in_map. }
  assert (Hm0 : 0 <= m).
  { inversion Hall as [|? ? [H1 H2] _]; subst. lra. }
  split; [by rewrite length_map|].
  destruct (orNumber_cases m 1) as [[Hz ->]|[Hnz ->]].
  - split; [|split].
    + apply List.Forall_forall. intros height Hh.
      apply in_map_iff in Hh as (x & <- & Hx).
      rewrite List.Forall_forall in Hall. destruct (Hall x Hx) as [H1 H2].
      assert (Hx0 : b_volume x == 0) by lra.
      rewrite Hx0. split; vm_compute; discriminate.
    + intros Hex. exfalso. apply List.Exists_exists in Hex as (x & Hx & Hpx).
      rewrite List.Forall_forall in Hall. destruct (Hall x Hx) as [H1 H2]. lra.
    + intros _. apply List.Forall_forall. intros height Hh.
      apply in_map_iff in Hh as (x & <- & Hx).
      rewrite List.Forall_forall in Hall. destruct (Hall x Hx) as [H1 H2].
      assert (Hx0 : b_volume x == 0) by lra. rewrite Hx0. reflexivity.
  - assert (Hmpos : 0 < m) by (apply Qle_lteq in Hm0 as [?|H]; [done|by symmetry in H]).
    split; [|split].
    + apply List.Forall_forall. intros height Hh.
      apply in_map_iff in Hh as (x & <- & Hx).
      rewrite List.Forall_forall in Hall. destruct (Hall x Hx) as [H1 H2].
      apply scaled_fraction; try done.
    + intros _.
      assert (Hatt : exists x, In x (w :: rest) /\ b_volume x == m).
      { subst m. clear. revert w. induction rest as [|y rest IH]; intros w; simpl.
        - exists w. split; [by left|reflexivity].
        - destruct (Q.max_spec (b_volume w) (b_volume y)) as [[_ Hmax]|[_ Hmax]].
          + destruct (IH y) as (x & Hx & Heq). exists x. split; [by right|].
            rewrite Heq. clear -Hmax. revert Hmax.
            generalize (b_volume w) (b_volume y). intros a b Hab.
            apply fold_max_proper. by symmetry.
          + destruct (IH w) as (x & Hx & Heq).
            exists x. split; [destruct Hx as [<-|Hx]; [by left|by right; right]|].
            rewrite Heq.
            apply fold_max_proper. by symmetry. }
      destruct Hatt as (x & Hx & Heq).
      apply List.Exists_exists. exists (b_volume x / m * 100).
      split; [by apply (in_map (fun week => b_volume week / m * 100))|].
      rewrite Heq. field. intros H. by apply Hnz.
    + intros Hzero. exfalso. inversion Hzero as [|? ? Hw0 Hrest0]; subst.
      assert (Hmz : m == 0); [|by apply Hnz].
      subst m. clear -Hw0 Hrest0.
      revert w Hw0. induction Hrest0 as [|y rest Hy _ IH]; intros w Hw0; simpl;
        [done|].
      rewrite (fold_max_proper _ (Qmax (b_volume w) (b_volume y)) (b_volume y)).
      * by apply IH.
      * rewrite Hw0, Hy. reflexivity.
Qed.

Lemma barHeights_in_range_witness :
  Forall (fun height => 0 <= height /\ height <= 100)
    (barHeights [{| b_label := "1w ago"; b_workouts := 1; b_volume := 500 |};
                 {| b_label := "This Week"; b_workouts := 2; b_volume := 1200 |}]).
Proof.
  apply (barHeights_in_range
           [{| b_label := "1w ago"; b_workouts := 1; b_volume := 500 |};
            {| b_label := "This Week"; b_workouts := 2; b_volume := 1200 |}]).
  repeat constructor; discriminate.
Defined.

(** A progression point never has a negative best weight. *)
Lemma exerciseStats_maxWeight_nonneg history selectedExercise :
  Forall (fun p => 0 <= sp_maxWeight p) (exerciseStats history selectedExercise).
Proof.
  unfold exerciseStats. destruct (String.eqb selectedExercise EmptyString);
    [constructor|].
  eapply Permutation_Forall; [symmetry; apply sortByDate_perm|].
  rewrite statLoop_flat_map. simpl. apply List.Forall_forall. intros p Hp.
  apply in_flat_map in Hp as (h & _ & Hp).
  apply statRecord_fields in Hp as (_ & -> & _).
  unfold statSets.
  by destruct (statSets_bounds (entrySets selectedExercise h)
                 {| acc_maxWeight := 0; acc_volume := 0; acc_max1RM := 0 |})
    as (H & _ & _).
Qed.

Lemma lineChart_y (w mn mx : Q) :
  0 <= mn -> mn <= w -> w <= mx ->
  let minVal := mn * (9 # 10) in
  let maxVal := mx * (11 # 10) in
  let range := orNumber (maxVal - minVal) 10 in
  0 <= 50 - (w - minVal) / range * 50 /\ 50 - (w - minVal) / range * 50 <= 50.
Proof.
  intros Hmn Hw Hmx minVal maxVal range. subst range.
  destruct (orNumber_cases (maxVal - minVal) 10) as [[Hz ->]|[Hnz ->]].
  - assert (Hv : w - minVal == 0) by (subst minVal maxVal; lra).
    assert (Ht : (w - minVal) / 10 * 50 == 0) by (rewrite Hv; reflexivity).
    rewrite Ht. split; discriminate.
  - assert (Hr : 0 < maxVal - minVal).
    { assert (0 <= maxVal - minVal) as [?|Heq]%Qle_lteq by (subst minVal maxVal; lra);
        [done|]. by symmetry in Heq. }
    assert (Hf : 0 <= (w - minVal) / (maxVal - minVal) * 50 /\
                 (w - minVal) / (maxVal - minVal) * 50 <= 50).
    { apply scaled_fraction; try done; subst minVal maxVal; lra. }
    destruct Hf as [H0 H1]. split; lra.
Qed.

Lemma lineChart_x (i n : nat) :
  (i <= n)%nat -> (1 <= n)%nat ->
  0 <= inject_Z (Z.of_nat i) / inject_Z (Z.of_nat n) * 100 /\
  inject_Z (Z.of_nat i) / inject_Z (Z.of_nat n) * 100 <= 100.
Proof.
  intros Hi Hn. apply scaled_fraction.
  - rewrite <- (Zle_Qle 0). lia.
  - rewrite <- Zle_Qle. lia.
  - rewrite <- (Zlt_Qlt 0). lia.
  - discriminate.
Qed.

(** X23.  [renderLineChart] draws nothing for fewer than two points; otherwise
    it draws one point per point of the series, each inside the 100 x 50
    box, whatever the history. *)
Theorem lineChart_in_box (history : list WorkoutHistory)
    (selectedExercise : string) :
  let points := exerciseStats history selectedExercise in
  match lineChartPoints points with
  | None => (length points < 2)%nat
  | Some coords =>
      (2 <= length points)%nat /\ length coords = length points /\
      Forall (fun xy => (0 <= fst xy /\ fst xy <= 100) /\
                        (0 <= snd xy /\ snd xy <= 50)) coords
  end.
Proof.
  intros points.
  pose proof (exerciseStats_maxWeight_nonneg history selectedExercise) as Hpos.
  fold points in Hpos. clearbody points.
  destruct points as [|p [|q rest]]; simpl; [lia|lia|].
  split; [lia|]. split; [by rewrite length_imap|].
  set (ws := map sp_maxWeight rest).
  set (mn := fold_left Qmin ws (Qmin (sp_maxWeight p) (sp_maxWeight q))).
  set (mx := fold_left Qmax ws (Qmax (sp_maxWeight p) (sp_maxWeight q))).
  assert (Hmn : 0 <= mn).
  { change mn with (fold_left Qmin (map sp_maxWeight (q :: rest)) (sp_maxWeight p)).
    inversion Hpos as [|? ? Hp Hrest]; subst. apply fold_min_nonneg; [done|].
    apply List.Forall_forall. intros x Hx. apply in_map_iff in Hx as (z & <- & Hz).
    rewrite List.Forall_forall in Hrest. by apply Hrest. }
  assert (Hall : forall z, In z (p :: q :: rest) ->
                   mn <= sp_maxWeight z /\ sp_maxWeight z <= mx).
  { intros z Hz.
    destruct (fold_min_bounds (map sp_maxWeight (q :: rest)) (sp_maxWeight p))
      as [Hlo0 Hlo].
    destruct (fold_max_bounds (map sp_maxWeight (q :: rest)) (sp_maxWeight p))
      as [Hhi0 Hhi].
    simpl in Hlo0, Hlo, Hhi0, Hhi. fold ws mn in Hlo0, Hlo. fold ws mx in Hhi0, Hhi.
    destruct Hz as [<-|Hz]; [done|].
    rewrite List.Forall_forall in Hlo, Hhi.
    split; [apply Hlo|apply Hhi];
      by apply (in_map sp_maxWeight (q :: rest) z). }
  apply Forall_lookup. intros i xy Hxy.
  change (imap ?f (p :: q :: rest)) with (imap f (p :: q :: rest)) in Hxy.
  pose proof (list_lookup_imap
    (fun i z =>
       (inject_Z (Z.of_nat i) / inject_Z (Z.of_nat (S (length rest) - 0)) * 100,
        50 - (sp_maxWeight z - mn * (9 # 10))
               / orNumber (mx * (11 # 10) - mn * (9 # 10)) 10 * 50))
    (p :: q :: rest) i) as Hlk.
  simpl imap in Hlk. simpl in Hxy. rewrite Hlk in Hxy. clear Hlk.
  destruct ((p :: q :: rest) !! i) as [z|] eqn:Hz; [|done].
  injection Hxy as <-. simpl fst. simpl snd.
  pose proof (lookup_lt_Some _ _ _ Hz) as Hlt. simpl in Hlt.
  apply list_elem_of_lookup_2, list_elem_of_In in Hz.
  destruct (Hall z Hz) as [Hlo Hhi]. split.
  - apply lineChart_x; lia.
  - by apply lineChart_y.
Qed.

Lemma lineChart_in_box_witness :
  match lineChartPoints
          (exerciseStats [benchRecord 9 [lset 100 8 true];
                          benchRecord 5 [lset 80 8 true]] "Bench Press") with
  | None => False
  | Some coords =>
      Forall (fun xy => (0 <= fst xy /\ fst xy <= 100) /\
                        (0 <= snd xy /\ snd xy <= 50)) coords
  end.
Proof.
  pose proof (lineChart_in_box [benchRecord 9 [lset 100 8 true];
                                benchRecord 5 [lset 80 8 true]] "Bench Press") as H.
  cbv zeta in H.
  destruct (lineChartPoints _) as [coords|].
  - apply H.
  - simpl in H. lia.
Defined.

(** ** Elapsed time *)

Lemma string_app_nil (t : string) : (EmptyString ++ t)%string = t.
Proof. reflexivity. Qed.

Lemma string_app_cons (c : Ascii.ascii) (s t : string) :
  (String c s ++ t)%string = String c (s ++ t)%string.
Proof. reflexivity. Qed.

Lemma string_length_app (s t : string) :
  String.length (s ++ t)%string = (String.length s + String.length t)%nat.
Proof.
  induction s as [|c s IH]; [by rewrite string_app_nil|].
  rewrite string_app_cons. simpl. by rewrite IH.
Qed.

(** Two texts with suffixes of one length agree part by part. *)
Lemma string_app_inj (s1 s2 t1 t2 : string) :
  (s1 ++ t1 = s2 ++ t2)%string -> String.length t1 = String.length t2 ->
  s1 = s2 /\ t1 = t2.
Proof.
  revert s2. induction s1 as [|c s1 IH]; intros [|c' s2] Heq Hlen;
    rewrite ?string_app_nil, ?string_app_cons in Heq.
  - done.
  - exfalso. rewrite Heq in Hlen. simpl in Hlen. rewrite string_length_app in Hlen. lia.
  - exfalso. rewrite <- Heq in Hlen. simpl in Hlen. rewrite string_length_app in Hlen.
    lia.
  - injection Heq as -> Heq. destruct (IH s2 Heq Hlen) as [-> ->]. done.
Qed.

Lemma seconds_two_digits (r : nat) :
  (r < 60)%nat -> String.length (padStart2 (pretty r)) = 2%nat.
Proof.
  intros Hr.
  assert (H : forallb (fun r => (String.length (padStart2 (pretty r)) =? 2)%nat)
                (seq 0 60) = true) by (vm_compute; reflexivity).
  rewrite forallb_forall in H. apply Nat.eqb_eq, H, in_seq. lia.
Qed.

Lemma seconds_inj (r r' : nat) :
  (r < 60)%nat -> (r' < 60)%nat ->
  padStart2 (pretty r) = padStart2 (pretty r') -> r = r'.
Proof.
  intros Hr Hr' Heq.
  assert (H : forallb (fun r =>
                forallb (fun r' =>
                  implb (String.eqb (padStart2 (pretty r)) (padStart2 (pretty r')))
                        (r =? r')%nat) (seq 0 60)) (seq 0 60) = true)
    by (vm_compute; reflexivity).
  rewrite forallb_forall in H.
  assert (Hin : In r (seq 0 60)) by (apply in_seq; lia).
  specialize (H r Hin). rewrite forallb_forall in H.
  assert (Hin' : In r' (seq 0 60)) by (apply in_seq; lia).
  specialize (H r' Hin'). rewrite Heq, String.eqb_refl in H. simpl in H.
  by apply Nat.eqb_eq.
Qed.

(** X24.  [formatTime] shows the minutes, a colon and exactly two characters
    of seconds, and different elapsed times are shown differently. *)
Theorem formatTime_unambiguous (seconds : nat) :
  String.length (formatTime seconds)
    = (String.length (pretty (seconds / 60)%nat) + 3)%nat /\
  (exists secs,
     String.length secs = 2%nat /\
     formatTime seconds = (pretty (seconds / 60)%nat ++ ":" ++ secs)%string) /\
  (forall other, formatTime seconds = formatTime other -> seconds = other).
Proof.
  assert (Hmod : forall n, (n mod 60 < 60)%nat) by (intros n; apply Nat.mod_upper_bound; lia).
  split; [|split].
  - unfold formatTime. cbv zeta.
    rewrite !string_length_app, seconds_two_digits by apply Hmod.
    simpl. lia.
  - exists (padStart2 (pretty (seconds mod 60)%nat)).
    split; [apply seconds_two_digits, Hmod|done].
  - intros other Heq. unfold formatTime in Heq.
    apply string_app_inj in Heq as [Hmins Hsecs].
    + apply (inj pretty) in Hmins.
      apply string_app_inj in Hsecs as [_ Hs];
        [|by rewrite !seconds_two_digits by apply Hmod].
      apply seconds_inj in Hs; [|apply Hmod|apply Hmod].
      rewrite (Nat.div_mod_eq seconds 60), (Nat.div_mod_eq other 60). lia.
    + rewrite !string_app_cons, !string_app_nil. simpl.
      by rewrite !seconds_two_digits by apply Hmod.
Qed.

Lemma formatTime_unambiguous_witness :
  formatTime 125 = "2:05" /\
  forall other, formatTime 125 = formatTime other -> 125%nat = other.
Proof.
  split; [reflexivity|].
  apply (proj2 (proj2 (formatTime_unambiguous 125))).
Defined.

(** ** Custom plan editor *)

Lemma withDays_same prev : withDays prev (cp_days prev) = prev.
Proof. by destruct prev. Qed.

Lemma withDays_twice prev days days' :
  withDays (withDays prev days) days' = withDays prev days'.
Proof. done. Qed.

Lemma map_unaddressed {A} (addressed : A -> bool) (f : A -> A) (l : list A) :
  Forall (fun x => addressed x = false) l ->
  map (fun x => if addressed x then f x else x) l = l.
Proof. induction 1 as [|x l Hx _ IH]; simpl; [done|]. by rewrite Hx, IH. Qed.

Lemma filter_unaddressed {A} (addressed : A -> bool) (l : list A) :
  Forall (fun x => addressed x = false) l ->
  List.filter (fun x => negb (addressed x)) l = l.
Proof. induction 1 as [|x l Hx _ IH]; simpl; [done|]. by rewrite Hx, IH. Qed.

(** X25.  [handleSaveCustomPlan] refuses exactly a form without name or
    without days, and then leaves form and view alone.  Otherwise the plan
    handed over has the new id, the form's name, description and days, is
    not marked as generated and is dated by the clock; the form is reset,
    the list is shown, and saving the reset form again is refused. *)
Theorem handleSaveCustomPlan_accepts (newId : string) (now : Z)
    (customPlan : CustomPlan) :
  let result := handleSaveCustomPlan newId now customPlan in
  (saved result = None <->
   cp_name customPlan = EmptyString \/ cp_days customPlan = []) /\
  (saved result = None ->
   formAfter result = customPlan /\ viewAfter result = CustomView) /\
  (forall plan,
     saved result = Some plan ->
     tp_id plan = newId /\ tp_name plan = cp_name customPlan /\
     tp_description plan = cp_description customPlan /\
     tp_days plan = cp_days customPlan /\
     tp_isAiGenerated plan = Some false /\ tp_createdAt plan = now /\
     formAfter result = emptyCustomPlan /\ viewAfter result = ListView /\
     forall nextId later,
       saved (handleSaveCustomPlan nextId later (formAfter result)) = None).
Proof.
  intros result. subst result. unfold handleSaveCustomPlan.
  destruct (String.eqb_spec (cp_name customPlan) EmptyString) as [Hn|Hn]; simpl.
  - split; [split; [by left|done]|]. split; [done|]. by intros plan.
  - destruct (cp_days customPlan) as [|d days] eqn:Hd; simpl.
    + split; [split; [by right|done]|]. split; [done|]. by intros plan.
    + split; [split; [done|by intros [?|?]]|]. split; [done|].
      intros plan [= <-]. simpl. by repeat split.
Qed.

Lemma handleSaveCustomPlan_accepts_witness :
  exists plan,
    saved (handleSaveCustomPlan "p9" 77 demoForm) = Some plan /\
    tp_name plan = "My Split" /\ tp_isAiGenerated plan = Some false.
Proof.
  exists {| tp_id := "p9"; tp_name := "My Split"; tp_description := EmptyString;
            tp_days := cp_days demoForm; tp_isAiGenerated := Some false;
            tp_createdAt := 77 |}.
  split; [reflexivity|].
  destruct (proj2 (proj2 (handleSaveCustomPlan_accepts "p9" 77 demoForm))
              _ eq_refl) as (_ & Hn & _ & _ & Hai & _).
  split; [exact Hn|exact Hai].
Defined.

(** X26.  [addDayToCustomPlan] appends one day without exercises, named after
    the new number of days, and keeps name and description.
    [removeDayFromCustomPlan] of a fresh id undoes it; removing a day leaves
    no day of that id and is idempotent. *)
Theorem addDay_removeDay (newId : string) (prev : CustomPlan) :
  let added := addDayToCustomPlan newId prev in
  length (cp_days added) = S (length (cp_days prev)) /\
  last (cp_days added)
    = Some {| wd_id := newId;
              wd_name := ("Day " ++ pretty (S (length (cp_days prev))))%string;
              wd_exercises := [] |} /\
  cp_name added = cp_name prev /\ cp_description added = cp_description prev /\
  (Forall (fun d => wd_id d <> newId) (cp_days prev) ->
   removeDayFromCustomPlan newId added = prev) /\
  (forall dayId,
     Forall (fun d => wd_id d <> dayId) (cp_days (removeDayFromCustomPlan dayId prev)) /\
     removeDayFromCustomPlan dayId (removeDayFromCustomPlan dayId prev)
       = removeDayFromCustomPlan dayId prev).
Proof.
  intros added. subst added. unfold addDayToCustomPlan. simpl.
  split; [rewrite length_app; simpl; lia|].
  split; [rewrite last_snoc; by rewrite Nat.add_1_r|].
  split; [done|]. split; [done|]. split.
  - intros Hfresh. unfold removeDayFromCustomPlan. simpl cp_days.
    rewrite withDays_twice, List.filter_app. simpl. rewrite String.eqb_refl. simpl.
    rewrite app_nil_r, (filter_unaddressed (fun d => String.eqb (wd_id d) newId)).
    + apply withDays_same.
    + eapply List.Forall_impl; [|exact Hfresh]. intros d Hd. by apply String.eqb_neq.
  - intros dayId.
    assert (Hgone : Forall (fun d => wd_id d <> dayId)
                      (cp_days (removeDayFromCustomPlan dayId prev))).
    { simpl. apply List.Forall_forall. intros d Hd. apply filter_In in Hd as [_ Hd].
      apply negb_true_iff in Hd. by apply String.eqb_neq. }
    split; [done|].
    unfold removeDayFromCustomPlan at 1.
    rewrite (filter_unaddressed (fun d => String.eqb (wd_id d) dayId)).
    + apply withDays_same.
    + eapply List.Forall_impl; [|exact Hgone]. intros d Hd. by apply String.eqb_neq.
Qed.

Lemma addDay_removeDay_witness :
  removeDayFromCustomPlan "d2" (addDayToCustomPlan "d2" demoForm) = demoForm.
Proof.
  apply (proj1 (proj2 (proj2 (proj2 (proj2 (addDay_removeDay "d2" demoForm)))))).
  repeat constructor. discriminate.
Defined.

Lemma addExerciseDays_unknown uuid k dayId days :
  Forall (fun d => String.eqb (wd_id d) dayId = false) days ->
  addExerciseDays uuid k dayId days = (days, k).
Proof.
  induction 1 as [|d days Hd _ IH]; simpl; [done|]. by rewrite Hd, IH.
Qed.

(** X27.  Addressed at a day id that no day of the form has, the edit
    operations change nothing, and [addExerciseToDay] draws no identifier. *)
Theorem editor_unknown_ids (dayId : string) (prev : CustomPlan) :
  Forall (fun d => wd_id d <> dayId) (cp_days prev) ->
  removeDayFromCustomPlan dayId prev = prev /\
  (forall name, handleDayNameChange dayId name prev = prev) /\
  (forall uuid k, addExerciseToDay uuid k dayId prev = (prev, k)) /\
  (forall exId, removeExerciseFromDay dayId exId prev = prev) /\
  (forall exId fv, handleExerciseChange dayId exId fv prev = prev).
Proof.
  intros Hunknown.
  assert (Hb : Forall (fun d => String.eqb (wd_id d) dayId = false) (cp_days prev)).
  { eapply List.Forall_impl; [|exact Hunknown]. intros d Hd. by apply String.eqb_neq. }
  split; [|split; [|split; [|split]]].
  - unfold removeDayFromCustomPlan.
    rewrite (filter_unaddressed (fun d => String.eqb (wd_id d) dayId)) by done.
    apply withDays_same.
  - intros name. unfold handleDayNameChange.
    rewrite (map_unaddressed (fun d => String.eqb (wd_id d) dayId)) by done.
    apply withDays_same.
  - intros uuid k. unfold addExerciseToDay.
    rewrite addExerciseDays_unknown by done. by rewrite withDays_same.
  - intros exId. unfold removeExerciseFromDay.
    rewrite (map_unaddressed (fun d => String.eqb (wd_id d) dayId)) by done.
    apply withDays_same.
  - intros exId fv. unfold handleExerciseChange.
    rewrite (map_unaddressed (fun d => String.eqb (wd_id d) dayId)) by done.
    apply withDays_same.
Qed.

Lemma editor_unknown_ids_witness :
  addExerciseToDay demoUuid 0 "nowhere" demoForm = (demoForm, 0%nat).
Proof.
  apply (proj1 (proj2 (proj2 (editor_unknown_ids "nowhere" demoForm
           ltac:(repeat constructor; discriminate))))).
Defined.

(** X28.  [handleExerciseChange] keeps name and description of the form, the
    ids and names of the days and the ids of the exercises; it replaces the
    field in the exercises of the given id in the days of the given id and
    leaves every other exercise as it is. *)
Theorem handleExerciseChange_only (dayId exId : string)
    (fv : ExerciseFieldValue) (prev : CustomPlan) :
  let next := handleExerciseChange dayId exId fv prev in
  cp_name next = cp_name prev /\ cp_description next = cp_description prev /\
  map wd_id (cp_days next) = map wd_id (cp_days prev) /\
  map wd_name (cp_days next) = map wd_name (cp_days prev) /\
  map (fun d => map ex_id (wd_exercises d)) (cp_days next)
    = map (fun d => map ex_id (wd_exercises d)) (cp_days prev) /\
  (forall i d,
     cp_days prev !! i = Some d ->
     exists d',
       cp_days next !! i = Some d' /\
       forall j ex,
         wd_exercises d !! j = Some ex ->
         wd_exercises d' !! j
           = Some (if String.eqb (wd_id d) dayId && String.eqb (ex_id ex) exId
                   then assignExerciseField ex fv else ex)).
Proof.
  intros next. subst next. unfold handleExerciseChange. simpl.
  assert (Hids : forall exs : list Exercise,
             map ex_id (map (fun ex => if String.eqb (ex_id ex) exId
                                       then assignExerciseField ex fv else ex) exs)
             = map ex_id exs).
  { intros exs. rewrite map_map. apply map_ext. intros ex.
    destruct (String.eqb (ex_id ex) exId); [by destruct fv|done]. }
  split; [done|]. split; [done|].
  split; [rewrite map_map; apply map_ext; intros d;
          by destruct (String.eqb (wd_id d) dayId)|].
  split; [rewrite map_map; apply map_ext; intros d;
          by destruct (String.eqb (wd_id d) dayId)|].
  split.
  - rewrite map_map. apply map_ext. intros d.
    destruct (String.eqb (wd_id d) dayId); [|done]. simpl. apply Hids.
  - intros i d Hd. rewrite list_lookup_fmap, Hd. simpl. eexists. split; [done|].
    intros j ex Hex. destruct (String.eqb (wd_id d) dayId); simpl.
    + by rewrite list_lookup_fmap, Hex.
    + done.
Qed.

Lemma handleExerciseChange_only_witness :
  exists d',
    cp_days (handleExerciseChange "d1" "e1" (TargetSetsValue 5) demoForm) !! 0%nat
      = Some d' /\
    map ex_targetSets (wd_exercises d') = [5%nat].
Proof.
  destruct (proj2 (proj2 (proj2 (proj2 (proj2
              (handleExerciseChange_only "d1" "e1" (TargetSetsValue 5) demoForm)))))
              0%nat _ eq_refl) as (d' & Hd' & Hex).
  exists d'. split; [exact Hd'|].
  specialize (Hex 0%nat _ eq_refl).
  injection Hd' as <-. reflexivity.
Defined.

Lemma addExerciseDays_once uuid k dayId days :
  List.NoDup (map wd_id days) -> In dayId (map wd_id days) ->
  (forall d, In d days -> wd_id d = dayId ->
             Forall (fun ex => ex_id ex <> uuid k) (wd_exercises d)) ->
  snd (addExerciseDays uuid k dayId days) = S k /\
  map (fun d =>
         if String.eqb (wd_id d) dayId then
           withDayExercises d
             (List.filter (fun ex => negb (String.eqb (ex_id ex) (uuid k)))
                (wd_exercises d))
         else d)
      (fst (addExerciseDays uuid k dayId days)) = days /\
  Exists (fun d' =>
            wd_id d' = dayId /\
            last (wd_exercises d')
              = Some {| ex_id := uuid k; ex_name := EmptyString;
                        ex_targetSets := 3; ex_targetReps := "8-12";
                        ex_notes := None |})
         (fst (addExerciseDays uuid k dayId days)).
Proof.
  induction days as [|d days IH]; intros Hnd Hin Hfresh; simpl in *; [done|].
  apply List.NoDup_cons_iff in Hnd as [Hd Hnd].
  destruct (String.eqb_spec (wd_id d) dayId) as [Heq|Hne].
  - rewrite addExerciseDays_unknown.
    + simpl. rewrite Heq, String.eqb_refl. simpl.
      split; [done|]. split.
      * f_equal.
        -- rewrite List.filter_app. simpl. rewrite String.eqb_refl. simpl.
           rewrite app_nil_r,
             (filter_unaddressed (fun ex => String.eqb (ex_id ex) (uuid k))).
           ++ by destruct d.
           ++ eapply List.Forall_impl; [|apply (Hfresh d); [by left|done]].
              intros ex Hex. by apply String.eqb_neq.
        -- apply (map_unaddressed (fun d => String.eqb (wd_id d) dayId)).
           apply List.Forall_forall. intros d' Hd'. apply String.eqb_neq.
           intros Heq'. apply Hd. rewrite Heq, <- Heq'. by apply in_map.
      * apply Exists_cons_hd. simpl. split; [done|]. apply last_snoc.
    + apply List.Forall_forall. intros d' Hd'. apply String.eqb_neq.
      intros Heq'. apply Hd. rewrite Heq, <- Heq'. by apply in_map.
  - destruct Hin as [?|Hin]; [done|].
    destruct (addExerciseDays uuid k dayId days) as [rest' k'] eqn:E.
    destruct IH as (Hk & Hmap & Hex); [done|done|by intros; apply Hfresh; auto|].
    simpl in *. split; [done|]. split.
    + destruct (String.eqb_spec (wd_id d) dayId); [done|]. by rewrite Hmap.
    + by apply Exists_cons_tl.
Qed.

(** X29.  In a form whose days have distinct ids, [addExerciseToDay] on a day
    of the form draws one identifier and appends to that day an exercise
    with empty name, 3 sets and reps "8-12"; if the identifier is new to that
    day, [removeExerciseFromDay] of it gives back the form. *)
Theorem addExercise_removeExercise (uuid : nat -> string) (k : nat)
    (dayId : string) (prev : CustomPlan) :
  List.NoDup (map wd_id (cp_days prev)) ->
  In dayId (map wd_id (cp_days prev)) ->
  (forall d, In d (cp_days prev) -> wd_id d = dayId ->
             Forall (fun ex => ex_id ex <> uuid k) (wd_exercises d)) ->
  snd (addExerciseToDay uuid k dayId prev) = S k /\
  removeExerciseFromDay dayId (uuid k) (fst (addExerciseToDay uuid k dayId prev))
    = prev /\
  Exists (fun d' =>
            wd_id d' = dayId /\
            last (wd_exercises d')
              = Some {| ex_id := uuid k; ex_name := EmptyString;
                        ex_targetSets := 3; ex_targetReps := "8-12";
                        ex_notes := None |})
         (cp_days (fst (addExerciseToDay uuid k dayId prev))).
Proof.
  intros Hnd Hin Hfresh.
  destruct (addExerciseDays_once uuid k dayId (cp_days prev) Hnd Hin Hfresh)
    as (Hk & Hmap & Hex).
  unfold addExerciseToDay, removeExerciseFromDay.
  destruct (addExerciseDays uuid k dayId (cp_days prev)) as [days' k'].
  simpl in *. split; [done|]. split; [|done].
  rewrite withDays_twice, Hmap. apply withDays_same.
Qed.

Lemma addExercise_removeExercise_witness :
  removeExerciseFromDay "d1" (demoUuid 7)
    (fst (addExerciseToDay demoUuid 7 "d1" demoForm)) = demoForm.
Proof.
  apply (addExercise_removeExercise demoUuid 7 "d1" demoForm).
  - repeat constructor. simpl. tauto.
  - left. reflexivity.
  - intros d [<-|[]] _. repeat constructor. discriminate.
Defined.

(** ** Plans built from the generation service *)

Lemma mapExercises_spec uuid k exercises :
  snd (mapExercises uuid k exercises) = (k + length exercises)%nat /\
  map ex_id (fst (mapExercises uuid k exercises))
    = map uuid (seq k (length exercises)) /\
  map ex_name (fst (mapExercises uuid k exercises)) = map ed_name exercises /\
  map ex_targetSets (fst (mapExercises uuid k exercises))
    = map ed_targetSets exercises /\
  map ex_targetReps (fst (mapExercises uuid k exercises))
    = map ed_targetReps exercises.
Proof.
  revert k. induction exercises as [|e rest IH]; intros k; simpl.
  - by rewrite Nat.add_0_r.
  - destruct (IH (S k)) as (Hk & Hid & Hn & Hs & Hr).
    destruct (mapExercises uuid (S k) rest) as [rest' k']. simpl in *.
    split; [lia|]. by rewrite Hid, Hn, Hs, Hr.
Qed.

Lemma mapDays_spec uuid k days :
  snd (mapDays uuid k days) = (k + idsNeeded days)%nat /\
  flat_map (fun d => wd_id d :: map ex_id (wd_exercises d)) (fst (mapDays uuid k days))
    = map uuid (seq k (idsNeeded days)) /\
  map wd_name (fst (mapDays uuid k days)) = map dd_name days /\
  map (fun d => map ex_name (wd_exercises d)) (fst (mapDays uuid k days))
    = map (fun d => map ed_name (dd_exercises d)) days /\
  map (fun d => map ex_targetSets (wd_exercises d)) (fst (mapDays uuid k days))
    = map (fun d => map ed_targetSets (dd_exercises d)) days.
Proof.
  revert k. unfold idsNeeded. induction days as [|d rest IH]; intros k; simpl.
  - by rewrite Nat.add_0_r.
  - destruct (mapExercises_spec uuid (S k) (dd_exercises d))
      as (Hk1 & Hid1 & Hn1 & Hs1 & _).
    destruct (mapExercises uuid (S k) (dd_exercises d)) as [exercises k1].
    simpl in *. subst k1.
    destruct (IH (S (k + length (dd_exercises d)))) as (Hk2 & Hid2 & Hn2 & Hs2 & Ht2).
    destruct (mapDays uuid (S (k + length (dd_exercises d))) rest) as [rest' k2].
    simpl in *. split; [lia|].
    rewrite Hid1, Hid2, Hn1, Hn2, Hs1, Hs2, Ht2.
    split; [|done]. f_equal. by rewrite seq_app, map_app.
Qed.

Lemma NoDup_flat_ids (days : list WorkoutDay) :
  List.NoDup (flat_map (fun d => wd_id d :: map ex_id (wd_exercises d)) days) ->
  List.NoDup (map wd_id days) /\
  Forall (fun d => List.NoDup (map ex_id (wd_exercises d))) days.
Proof.
  induction days as [|d days IH]; simpl; intros H.
  - split; constructor.
  - apply List.NoDup_cons_iff in H as [Hd H].
    pose proof (List.NoDup_app_remove_l _ _ H) as Hrest.
    pose proof (List.NoDup_app_remove_r _ _ H) as Hexs.
    destruct (IH Hrest) as [Hids Hall]. split.
    + constructor; [|done]. intros Hin. apply Hd. apply in_or_app. right.
      apply in_map_iff in Hin as (d' & Heq & Hd').
      apply in_flat_map. exists d'. split; [done|]. left. done.
    + by constructor.
Qed.

(** X30.  The plan built from a parsed response draws its identifiers in
    order: plan, then each day followed by its exercises.  Names and set
    counts are those of the response, in order, and the plan is marked as
    generated.  With a supply that never repeats, all identifiers are
    distinct, so the days have distinct ids and so have the exercises of
    each day. *)
Theorem planOfData_identifiers (uuid : nat -> string) (k : nat) (now : Z)
    (data : PlanData) :
  let plan := planOfData uuid k now data in
  allIds plan = map uuid (seq k (S (idsNeeded (pd_days data)))) /\
  tp_name plan = pd_planName data /\
  map wd_name (tp_days plan) = map dd_name (pd_days data) /\
  map (fun d => map ex_name (wd_exercises d)) (tp_days plan)
    = map (fun d => map ed_name (dd_exercises d)) (pd_days data) /\
  map (fun d => map ex_targetSets (wd_exercises d)) (tp_days plan)
    = map (fun d => map ed_targetSets (dd_exercises d)) (pd_days data) /\
  tp_isAiGenerated plan = Some true /\
  ((forall i j, uuid i = uuid j -> i = j) ->
   List.NoDup (allIds plan) /\
   List.NoDup (map wd_id (tp_days plan)) /\
   Forall (fun d => List.NoDup (map ex_id (wd_exercises d))) (tp_days plan)).
Proof.
  intros plan. subst plan. unfold allIds, planOfData. simpl.
  destruct (mapDays_spec uuid (S k) (pd_days data)) as (_ & Hid & Hn & He & Hs).
  rewrite Hid. split; [done|]. split; [done|]. split; [done|]. split; [done|].
  split; [done|]. split; [done|].
  intros Hinj.
  assert (Hnd : List.NoDup (uuid k :: map uuid (seq (S k) (idsNeeded (pd_days data))))).
  { change (uuid k :: map uuid (seq (S k) (idsNeeded (pd_days data))))
      with (map uuid (seq k (S (idsNeeded (pd_days data))))).
    apply Finite.Injective_map_NoDup; [exact Hinj|apply List.seq_NoDup]. }
  split; [done|].
  apply NoDup_flat_ids. rewrite Hid. by apply List.NoDup_cons_iff in Hnd as [_ ?].
Qed.

Lemma planOfData_identifiers_witness :
  allIds (planOfData demoUuid 4 0
            {| pd_planName := "Upper Lower"; pd_description := EmptyString;
               pd_days := [{| dd_name := "Upper";
                              dd_exercises :=
                                [{| ed_name := "Row"; ed_targetSets := 3;
                                    ed_targetReps := "8"; ed_notes := None |}] |};
                           {| dd_name := "Lower"; dd_exercises := [] |}] |})
  = ["4"; "5"; "6"; "7"].
Proof.
  apply (planOfData_identifiers demoUuid 4 0).
Defined.
